(** * Ishiiruka: texture-encoding shader generator and DX11 post-processing

    A shallow embedding of
      - Source/Core/VideoCommon/TextureConversionShaderGL.cpp
      - Source/Core/VideoBackends/DX11/PostProcessing.cpp
    together with the properties their specification states about them. *)

From Stdlib Require Import ZArith List String Ascii Bool Lia Floats.SpecFloat.
Import ListNotations.

Local Open Scope string_scope.

(** ** Machine integers *)

Module MachineInt.
Local Open Scope Z_scope.

(** A value stored in a 32-bit [int]. *)
Definition wrap_int (z : Z) : Z := (z + 2 ^ 31) mod 2 ^ 32 - 2 ^ 31.

(** A value stored in a [u32]. *)
Definition wrap_u32 (z : Z) : Z := z mod 2 ^ 32.

(** [size_t] of the 64-bit build. *)
Definition SIZE_MAX : Z := 2 ^ 64 - 1.
Definition wrap_size_t (z : Z) : Z := z mod 2 ^ 64.

Lemma wrap_int_range z : - 2 ^ 31 <= wrap_int z < 2 ^ 31.
Proof.
  unfold wrap_int.
  pose proof (Z.mod_pos_bound (z + 2 ^ 31) (2 ^ 32) ltac:(lia)). lia.
Qed.

Lemma wrap_int_small z : - 2 ^ 31 <= z < 2 ^ 31 -> wrap_int z = z.
Proof.
  intros H. unfold wrap_int. rewrite Z.mod_small; lia.
Qed.

Lemma wrap_u32_range z : 0 <= wrap_u32 z < 2 ^ 32.
Proof. unfold wrap_u32. apply Z.mod_pos_bound. lia. Qed.

Lemma wrap_u32_small z : 0 <= z < 2 ^ 32 -> wrap_u32 z = z.
Proof. intros H. unfold wrap_u32. apply Z.mod_small; lia. Qed.

End MachineInt.
Import MachineInt.

(** ** printf-style formatting

    The two files build their text with [sprintf] and [StringFromFormat].
    Only the conversions they use are modelled: [%d] and [%i] (an [int]),
    and [%s] (a C string). *)

Module Printf.

Inductive Arg : Type :=
| A_int (v : Z)
| A_str (s : string).

Definition newline : ascii := ascii_of_nat 10.
Definition NUL : ascii := ascii_of_nat 0.

Definition digit (n : Z) : ascii := ascii_of_nat (48 + Z.to_nat n).

(** The decimal digits of [n >= 0], most significant first, in front of
    [acc].  Ten rounds print every 32-bit magnitude in full. *)
Fixpoint dec_digits (fuel : nat) (n : Z) (acc : string) : string :=
  match fuel with
  | O => acc
  | S k =>
      let acc' := String (digit (n mod 10)) acc in
      if (n / 10 =? 0)%Z then acc' else dec_digits k (n / 10) acc'
  end.

(** [%d] applied to a value that is read back as an [int]. *)
Definition fmt_d (v : Z) : string :=
  let i := wrap_int v in
  if (i <? 0)%Z then String "-" (dec_digits 10 (- i) "") else dec_digits 10 i "".

(** The escape sequences of a C string literal; the sources use [\n] only. *)
Fixpoint c_lit (s : string) : string :=
  match s with
  | EmptyString => EmptyString
  | String c rest =>
      match rest with
      | String d rest' =>
          if (Ascii.eqb c "\" && Ascii.eqb d "n")%bool
          then String newline (c_lit rest')
          else String c (c_lit rest)
      | EmptyString => String c EmptyString
      end
  end.

(** [vformat stray fmt args] is the text [vsnprintf] produces.  A conversion
    that finds no argument of its kind left reads past the supplied ones,
    which C leaves undefined: the value it then reads is [stray], of which
    nothing is assumed. *)
Fixpoint vformat (stray : Z) (fmt : string) (args : list Arg) : string :=
  match fmt with
  | EmptyString => EmptyString
  | String c rest =>
      match rest with
      | String d rest' =>
          if Ascii.eqb c "%" then
            if (Ascii.eqb d "d" || Ascii.eqb d "i")%bool then
              match args with
              | A_int v :: args' => fmt_d v ++ vformat stray rest' args'
              | _ :: args' => fmt_d stray ++ vformat stray rest' args'
              | [] => fmt_d stray ++ vformat stray rest' []
              end
            else if Ascii.eqb d "s" then
              match args with
              | A_str s :: args' => s ++ vformat stray rest' args'
              | _ :: args' => vformat stray rest' args'
              | [] => vformat stray rest' []
              end
            else String c (vformat stray rest args)
          else String c (vformat stray rest args)
      | EmptyString => String c EmptyString
      end
  end.

(** Number of conversions in a format, and the arguments it is given. *)
Fixpoint conversions (fmt : string) : nat :=
  match fmt with
  | EmptyString => 0
  | String c rest =>
      match rest with
      | String d rest' =>
          if (Ascii.eqb c "%" &&
              (Ascii.eqb d "d" || Ascii.eqb d "i" || Ascii.eqb d "s"))%bool
          then S (conversions rest')
          else conversions rest
      | EmptyString => 0
      end
  end.

Definition no_nul (s : string) : bool :=
  forallb (fun c => negb (Ascii.eqb c NUL)) (list_ascii_of_string s).

Definition no_newline (s : string) : bool :=
  forallb (fun c => negb (Ascii.eqb c newline)) (list_ascii_of_string s).

End Printf.
Import Printf.

(** ** Facts about the formatted text *)

Module PrintfFacts.

Lemma append_length (a b : string) :
  String.length (a ++ b) = String.length a + String.length b.
Proof. induction a as [|c a IH]; simpl; [reflexivity | now rewrite IH]. Qed.

Lemma append_assoc (a b c : string) : (a ++ b) ++ c = a ++ (b ++ c).
Proof. induction a as [|x a IH]; simpl; [reflexivity | now rewrite IH]. Qed.

Lemma append_nil_r (a : string) : a ++ "" = a.
Proof. induction a as [|x a IH]; simpl; [reflexivity | now rewrite IH]. Qed.

Lemma list_ascii_of_string_append (a b : string) :
  list_ascii_of_string (a ++ b) = (list_ascii_of_string a ++ list_ascii_of_string b)%list.
Proof. induction a as [|x a IH]; simpl; [reflexivity | now rewrite IH]. Qed.

Lemma list_ascii_of_string_length (a : string) :
  List.length (list_ascii_of_string a) = String.length a.
Proof. induction a as [|x a IH]; simpl; [reflexivity | now rewrite IH]. Qed.

Lemma no_nul_append (a b : string) : no_nul (a ++ b) = no_nul a && no_nul b.
Proof.
  unfold no_nul. rewrite list_ascii_of_string_append. apply forallb_app.
Qed.

Lemma no_newline_append (a b : string) :
  no_newline (a ++ b) = no_newline a && no_newline b.
Proof.
  unfold no_newline. rewrite list_ascii_of_string_append. apply forallb_app.
Qed.

(** The characters [%d] prints. *)
Definition is_num_char (c : ascii) : bool :=
  Ascii.eqb c "-" || existsb (Ascii.eqb c) (list_ascii_of_string "0123456789").

Definition num_chars (s : string) : bool :=
  forallb is_num_char (list_ascii_of_string s).

Lemma digit_is_num_char n : (0 <= n < 10)%Z -> is_num_char (digit n) = true.
Proof.
  intros H.
  assert (E : In n [0; 1; 2; 3; 4; 5; 6; 7; 8; 9]%Z) by (simpl; lia).
  simpl in E.
  repeat (destruct E as [E | E]; [subst n; reflexivity | ]). contradiction.
Qed.

Lemma num_chars_cons c s : num_chars (String c s) = is_num_char c && num_chars s.
Proof. reflexivity. Qed.

Lemma dec_digits_spec fuel : forall n acc,
  (0 <= n)%Z -> num_chars acc = true ->
  num_chars (dec_digits fuel n acc) = true /\
  String.length (dec_digits fuel n acc) <= fuel + String.length acc /\
  (1 <= fuel -> 1 + String.length acc <= String.length (dec_digits fuel n acc)).
Proof.
  induction fuel as [|k IH]; intros n acc Hn Hacc; cbn [dec_digits].
  - repeat split; [assumption | lia | lia].
  - assert (Hd : num_chars (String (digit (n mod 10)) acc) = true).
    { rewrite num_chars_cons, digit_is_num_char.
      - exact Hacc.
      - apply Z.mod_pos_bound. lia. }
    destruct (n / 10 =? 0)%Z.
    + repeat split; [exact Hd | cbn [String.length]; lia | cbn [String.length]; lia].
    + destruct (IH (n / 10)%Z (String (digit (n mod 10)) acc)) as (A & B & C).
      * apply Z.div_pos; lia.
      * exact Hd.
      * cbn [String.length] in B, C.
        repeat split; [exact A | lia | intros _].
        destruct k as [|k'].
        -- cbn [dec_digits String.length]. lia.
        -- lia.
Qed.

Lemma fmt_d_spec v :
  num_chars (fmt_d v) = true /\ 1 <= String.length (fmt_d v) <= 11.
Proof.
  unfold fmt_d. pose proof (wrap_int_range v) as R.
  destruct (wrap_int v <? 0)%Z eqn:E.
  - apply Z.ltb_lt in E.
    destruct (dec_digits_spec 10 (- wrap_int v) "" ltac:(lia) eq_refl) as (A & B & C).
    split; [exact A | cbn [String.length] in *; lia].
  - apply Z.ltb_ge in E.
    destruct (dec_digits_spec 10 (wrap_int v) "" E eq_refl) as (A & B & C).
    split; [exact A | cbn [String.length] in *; lia].
Qed.

Lemma num_chars_no_nul s : num_chars s = true -> no_nul s = true.
Proof.
  unfold num_chars, no_nul. intros H. rewrite forallb_forall in *.
  intros c Hc. specialize (H c Hc). destruct (Ascii.eqb_spec c NUL) as [->|]; [discriminate H | reflexivity].
Qed.

Lemma num_chars_no_newline s : num_chars s = true -> no_newline s = true.
Proof.
  unfold num_chars, no_newline. intros H. rewrite forallb_forall in *.
  intros c Hc. specialize (H c Hc). destruct (Ascii.eqb_spec c newline) as [->|]; [discriminate H | reflexivity].
Qed.

Lemma fmt_d_no_nul v : no_nul (fmt_d v) = true.
Proof. apply num_chars_no_nul, fmt_d_spec. Qed.

Lemma fmt_d_no_newline v : no_newline (fmt_d v) = true.
Proof. apply num_chars_no_newline, fmt_d_spec. Qed.

Lemma fmt_d_length v : 1 <= String.length (fmt_d v) <= 11.
Proof. apply fmt_d_spec. Qed.

End PrintfFacts.
Import PrintfFacts.

(** ** TextureConversionShaderGL.cpp *)

Module TextureConversionShaderGL.

(** The enumerators of [TextureFormat] that the generator names. *)
Inductive TextureFormat : Type :=
| GX_TF_I4 | GX_TF_I8 | GX_TF_IA4 | GX_TF_IA8
| GX_TF_RGB565 | GX_TF_RGB5A3 | GX_TF_RGBA8
| GX_CTF_R4 | GX_CTF_RA4 | GX_CTF_RA8
| GX_CTF_A8 | GX_CTF_R8 | GX_CTF_G8 | GX_CTF_B8
| GX_CTF_RG8 | GX_CTF_GB8
| GX_TF_Z8 | GX_TF_Z16 | GX_TF_Z24X8
| GX_CTF_Z4 | GX_CTF_Z8M | GX_CTF_Z8L | GX_CTF_Z16L.

(** The case labels of the switch in [GenerateEncodingShader], in order. *)
Definition case_labels : list TextureFormat :=
  [ GX_TF_I4; GX_TF_I8; GX_TF_IA4; GX_TF_IA8;
    GX_TF_RGB565; GX_TF_RGB5A3; GX_TF_RGBA8;
    GX_CTF_R4; GX_CTF_RA4; GX_CTF_RA8;
    GX_CTF_A8; GX_CTF_R8; GX_CTF_G8; GX_CTF_B8;
    GX_CTF_RG8; GX_CTF_GB8;
    GX_TF_Z8; GX_TF_Z16; GX_TF_Z24X8;
    GX_CTF_Z4; GX_CTF_Z8M; GX_CTF_Z8L; GX_CTF_Z16L ].

(** [static char text[16384]]. *)
Definition TEXT_SIZE : nat := Z.to_nat 16384.

(** The canary, [0x7C]. *)
Definition canary : ascii := ascii_of_nat 124.

(** [text] once the canary is in its last slot. *)
Definition with_canary (t : list ascii) : list ascii :=
  firstn (TEXT_SIZE - 1) t ++ canary :: skipn TEXT_SIZE t.

Inductive Alert : Type :=
| UnknownTextureCopyFormat (format : Z)
| CanaryEaten.

(** The two statics of the file, the cursor [p] of the call in progress, and
    the alerts raised so far ([PanicAlert]). *)
Record State : Type := mkState {
  text : list ascii;
  IntensityConstantAdded : bool;
  p : nat;
  alerts : list Alert
}.

(** A writer: a function that takes [char*& p].  [None] is a store outside
    [text], which C leaves undefined. *)
Definition W : Type := State -> option State.

Definition seq (a b : W) : W :=
  fun st => match a st with Some st' => b st' | None => None end.

Notation "a ;; b" := (seq a b) (at level 61, right associativity).

Definition skip : W := fun st => Some st.

(** [sprintf(p, ...)] once the text [s] to store is known: its characters
    and the terminating zero go to [text + p]. *)
Definition store (s : string) : W :=
  fun st =>
    let n := String.length s in
    if (p st + n + 1 <=? List.length (text st))%nat then
      Some (mkState
              (firstn (p st) (text st) ++ list_ascii_of_string s
                 ++ NUL :: skipn (p st + n + 1) (text st))
              (IntensityConstantAdded st) (p st) (alerts st))
    else None.

Definition advance (n : nat) : W :=
  fun st => Some (mkState (text st) (IntensityConstantAdded st) (p st + n) (alerts st)).

(** [#define WRITE p+=sprintf] *)
Definition WRITE (fmt : string) (args : list Arg) : W :=
  let s := vformat 0 (c_lit fmt) args in
  store s ;; advance (String.length s).

Definition set_IntensityConstantAdded (b : bool) : W :=
  fun st => Some (mkState (text st) b (p st) (alerts st)).

Definition PanicAlert (a : Alert) : W :=
  fun st => Some (mkState (text st) (IntensityConstantAdded st) (p st) (alerts st ++ [a])).

(** What the caller reads at the returned pointer: the characters of [text]
    up to the first zero. *)
Fixpoint c_str (buf : list ascii) : string :=
  match buf with
  | [] => EmptyString
  | c :: rest => if Ascii.eqb c NUL then EmptyString else String c (c_str rest)
  end.

Definition returned_text (st : State) : string := c_str (text st).

(** The line that declares the luminance constant, and a one-pass count of
    the lines of a text equal to a given line.  The state of the pass is what
    is left of the line to match ([None] once the current line differs). *)
Definition IntensityConst_line : string :=
  "  float4 IntensityConst = float4(0.257f,0.504f,0.098f,0.0625f);".

Fixpoint scan_lines (l : string) (cur : option string) (s : string)
  : nat * option string :=
  match s with
  | EmptyString => (0, cur)
  | String c rest =>
      if Ascii.eqb c newline then
        let (n, st) := scan_lines l (Some l) rest in
        ((match cur with Some EmptyString => 1 | _ => 0 end) + n, st)
      else
        scan_lines l
          (match cur with
           | Some (String d cur') => if Ascii.eqb c d then Some cur' else None
           | _ => None
           end) rest
  end.

(** Number of complete (newline-terminated) lines of [s] equal to [l]. *)
Definition count_lines (l s : string) : nat := fst (scan_lines l (Some l) s).

(** The lines of a text, for reference: the complete lines and the
    unterminated rest. *)
Fixpoint split_lines (s : string) : list string * string :=
  match s with
  | EmptyString => ([], EmptyString)
  | String c rest =>
      let (ls, t) := split_lines rest in
      if Ascii.eqb c newline then (EmptyString :: ls, t)
      else match ls with
           | [] => ([], String c t)
           | l :: ls' => (String c l :: ls', t)
           end
  end.

(** The formats whose encoder converts colour to intensity. *)
Definition uses_intensity (f : TextureFormat) : bool :=
  match f with
  | GX_TF_I4 | GX_TF_I8 | GX_TF_IA4 | GX_TF_IA8 => true
  | _ => false
  end.

(** The statics as the program starts: [text] zero-filled, the flag clear. *)
Definition initial_state : State :=
  mkState (repeat NUL TEXT_SIZE) false 0 [].

(** What a caller finds after a call that produced a shader: the text at
    the returned pointer is not empty, its terminating zero lies before the
    last slot of [text], and that slot still holds the canary. *)
Definition shader_in_buffer (st : State) : Prop :=
  returned_text st <> EmptyString /\
  (String.length (returned_text st) + 1 < TEXT_SIZE)%nat /\
  nth (String.length (returned_text st)) (text st) canary = NUL /\
  nth (TEXT_SIZE - 1) (text st) NUL = canary.

Section Generator.

Set Default Proof Using "Type".

(** Declared outside this file: the numeric values of the enumerators
    (TextureDecoder.h), the block dimensions of a format, its sample count,
    [IntLog2] and the dimensions of the EFB. *)
Variable code_of : TextureFormat -> Z.
Variable TexDecoder_GetBlockWidthInTexels : Z -> Z.
Variable TexDecoder_GetBlockHeightInTexels : Z -> Z.
Variable GetEncodedSampleCount : Z -> Z.
Variable IntLog2 : Z -> Z.
Variable EFB_WIDTH EFB_HEIGHT : Z.

Definition WriteSwizzler (format : Z) : W :=
  WRITE "uniform int4 position;\n" [] ;;
  let blkW := wrap_int (TexDecoder_GetBlockWidthInTexels format) in
  let blkH := wrap_int (TexDecoder_GetBlockHeightInTexels format) in
  let samples := wrap_int (GetEncodedSampleCount format) in
  WRITE "#define samp0 samp9\n" [] ;;
  WRITE "SAMPLER_BINDING(9) uniform sampler2D samp0;\n" [] ;;
  WRITE "  out vec4 ocol0;\n" [] ;;
  WRITE "void main()\n" [] ;;
  WRITE "{\n  int2 sampleUv;\n  int2 uv1 = int2(gl_FragCoord.xy);\n" [] ;;
  WRITE "  int y_block_position = uv1.y & %d;\n" [A_int (Z.lnot (blkH - 1))] ;;
  WRITE "  int y_offset_in_block = uv1.y & %d;\n" [A_int (blkH - 1)] ;;
  WRITE "  int x_virtual_position = (uv1.x << %d) + y_offset_in_block * position.z;\n"
        [A_int (IntLog2 samples)] ;;
  WRITE "  int x_block_position = (x_virtual_position >> %d) & %d;\n"
        [A_int (IntLog2 blkH); A_int (Z.lnot (blkW - 1))] ;;
  (if (samples =? 1)%Z then
     WRITE "  bool first = 0 == (x_virtual_position & %d);\n" [A_int (8 * samples)] ;;
     WRITE "  x_virtual_position = x_virtual_position << 1;\n" []
   else skip) ;;
  WRITE "  int x_offset_in_block = x_virtual_position & %d;\n" [A_int (blkW - 1)] ;;
  WRITE "  int y_offset = (x_virtual_position >> %d) & %d;\n"
        [A_int (IntLog2 blkW); A_int (blkH - 1)] ;;
  WRITE "  sampleUv.x = x_offset_in_block + x_block_position;\n" [] ;;
  WRITE "  sampleUv.y = y_block_position + y_offset;\n" [] ;;
  WRITE "  float2 uv0 = float2(sampleUv);\n" [] ;;
  WRITE "  uv0 += float2(0.5, 0.5);\n" [] ;;
  WRITE "  uv0 *= float(position.w);\n" [] ;;
  WRITE "  uv0 += float2(position.xy);\n" [] ;;
  WRITE "  uv0 /= float2(%d, %d);\n" [A_int EFB_WIDTH; A_int EFB_HEIGHT] ;;
  WRITE "  uv0.y = 1.0-uv0.y;\n" [] ;;
  WRITE "  float sample_offset = float(position.w) / float(%d);\n" [A_int EFB_WIDTH].

Definition WriteSampleColor (colorComp dest : string) (xoffset : Z) : W :=
  WRITE "  %s = texture(samp0, uv0 + float2(%d, 0) * sample_offset).%s;\n"
        [A_str dest; A_int xoffset; A_str colorComp].

Definition WriteColorToIntensity (src dest : string) : W :=
  (fun st =>
     if negb (IntensityConstantAdded st) then
       (WRITE "  float4 IntensityConst = float4(0.257f,0.504f,0.098f,0.0625f);\n" [] ;;
        set_IntensityConstantAdded true) st
     else Some st) ;;
  WRITE "  %s = dot(IntensityConst.rgb, %s.rgb);\n" [A_str dest; A_str src].

Definition WriteToBitDepth (depth : Z) (src dest : string) : W :=
  WRITE "  %s = floor(%s * 255.0 / exp2(8.0 - %d.0));\n"
        [A_str dest; A_str src; A_int depth].

Definition WriteEncoderEnd : W :=
  WRITE "}\n" [] ;;
  set_IntensityConstantAdded false.

Definition WriteI8Encoder : W :=
  WriteSwizzler (code_of GX_TF_I8) ;;
  WRITE "  float3 texSample;\n" [] ;;
  WriteSampleColor "rgb" "texSample" 0 ;;
  WriteColorToIntensity "texSample" "ocol0.b" ;;
  WriteSampleColor "rgb" "texSample" 1 ;;
  WriteColorToIntensity "texSample" "ocol0.g" ;;
  WriteSampleColor "rgb" "texSample" 2 ;;
  WriteColorToIntensity "texSample" "ocol0.r" ;;
  WriteSampleColor "rgb" "texSample" 3 ;;
  WriteColorToIntensity "texSample" "ocol0.a" ;;
  WRITE "  ocol0.rgba += IntensityConst.aaaa;\n" [] ;;
  WriteEncoderEnd.

Definition WriteI4Encoder : W :=
  WriteSwizzler (code_of GX_TF_I4) ;;
  WRITE "  float3 texSample;\n" [] ;;
  WRITE "  float4 color0;\n" [] ;;
  WRITE "  float4 color1;\n" [] ;;
  WriteSampleColor "rgb" "texSample" 0 ;;
  WriteColorToIntensity "texSample" "color0.b" ;;
  WriteSampleColor "rgb" "texSample" 1 ;;
  WriteColorToIntensity "texSample" "color1.b" ;;
  WriteSampleColor "rgb" "texSample" 2 ;;
  WriteColorToIntensity "texSample" "color0.g" ;;
  WriteSampleColor "rgb" "texSample" 3 ;;
  WriteColorToIntensity "texSample" "color1.g" ;;
  WriteSampleColor "rgb" "texSample" 4 ;;
  WriteColorToIntensity "texSample" "color0.r" ;;
  WriteSampleColor "rgb" "texSample" 5 ;;
  WriteColorToIntensity "texSample" "color1.r" ;;
  WriteSampleColor "rgb" "texSample" 6 ;;
  WriteColorToIntensity "texSample" "color0.a" ;;
  WriteSampleColor "rgb" "texSample" 7 ;;
  WriteColorToIntensity "texSample" "color1.a" ;;
  WRITE "  color0.rgba += IntensityConst.aaaa;\n" [] ;;
  WRITE "  color1.rgba += IntensityConst.aaaa;\n" [] ;;
  WriteToBitDepth 4 "color0" "color0" ;;
  WriteToBitDepth 4 "color1" "color1" ;;
  WRITE "  ocol0 = (color0 * 16.0 + color1) / 255.0;\n" [] ;;
  WriteEncoderEnd.

Definition WriteIA8Encoder : W :=
  WriteSwizzler (code_of GX_TF_IA8) ;;
  WRITE "  float4 texSample;\n" [] ;;
  WriteSampleColor "rgba" "texSample" 0 ;;
  WRITE "  ocol0.b = texSample.a;\n" [] ;;
  WriteColorToIntensity "texSample" "ocol0.g" ;;
  WriteSampleColor "rgba" "texSample" 1 ;;
  WRITE "  ocol0.r = texSample.a;\n" [] ;;
  WriteColorToIntensity "texSample" "ocol0.a" ;;
  WRITE "  ocol0.ga += IntensityConst.aa;\n" [] ;;
  WriteEncoderEnd.

Definition WriteIA4Encoder : W :=
  WriteSwizzler (code_of GX_TF_IA4) ;;
  WRITE "  float4 texSample;\n" [] ;;
  WRITE "  float4 color0;\n" [] ;;
  WRITE "  float4 color1;\n" [] ;;
  WriteSampleColor "rgba" "texSample" 0 ;;
  WRITE "  color0.b = texSample.a;\n" [] ;;
  WriteColorToIntensity "texSample" "color1.b" ;;
  WriteSampleColor "rgba" "texSample" 1 ;;
  WRITE "  color0.g = texSample.a;\n" [] ;;
  WriteColorToIntensity "texSample" "color1.g" ;;
  WriteSampleColor "rgba" "texSample" 2 ;;
  WRITE "  color0.r = texSample.a;\n" [] ;;
  WriteColorToIntensity "texSample" "color1.r" ;;
  WriteSampleColor "rgba" "texSample" 3 ;;
  WRITE "  color0.a = texSample.a;\n" [] ;;
  WriteColorToIntensity "texSample" "color1.a" ;;
  WRITE "  color1.rgba += IntensityConst.aaaa;\n" [] ;;
  WriteToBitDepth 4 "color0" "color0" ;;
  WriteToBitDepth 4 "color1" "color1" ;;
  WRITE "  ocol0 = (color0 * 16.0 + color1) / 255.0;\n" [] ;;
  WriteEncoderEnd.

Definition WriteRGB565Encoder : W :=
  WriteSwizzler (code_of GX_TF_RGB565) ;;
  WriteSampleColor "rgb" "float3 texSample0" 0 ;;
  WriteSampleColor "rgb" "float3 texSample1" 1 ;;
  WRITE "  float2 texRs = float2(texSample0.r, texSample1.r);\n" [] ;;
  WRITE "  float2 texGs = float2(texSample0.g, texSample1.g);\n" [] ;;
  WRITE "  float2 texBs = float2(texSample0.b, texSample1.b);\n" [] ;;
  WriteToBitDepth 6 "texGs" "float2 gInt" ;;
  WRITE "  float2 gUpper = floor(gInt / 8.0);\n" [] ;;
  WRITE "  float2 gLower = gInt - gUpper * 8.0;\n" [] ;;
  WriteToBitDepth 5 "texRs" "ocol0.br" ;;
  WRITE "  ocol0.br = ocol0.br * 8.0 + gUpper;\n" [] ;;
  WriteToBitDepth 5 "texBs" "ocol0.ga" ;;
  WRITE "  ocol0.ga = ocol0.ga + gLower * 32.0;\n" [] ;;
  WRITE "  ocol0 = ocol0 / 255.0;\n" [] ;;
  WriteEncoderEnd.

Definition WriteRGB5A3Encoder : W :=
  WriteSwizzler (code_of GX_TF_RGB5A3) ;;
  WRITE "  float4 texSample;\n" [] ;;
  WRITE "  float color0;\n" [] ;;
  WRITE "  float gUpper;\n" [] ;;
  WRITE "  float gLower;\n" [] ;;
  WriteSampleColor "rgba" "texSample" 0 ;;
  WRITE "if(texSample.a > 0.878f) {\n" [] ;;
  WriteToBitDepth 5 "texSample.g" "color0" ;;
  WRITE "  gUpper = floor(color0 / 8.0);\n" [] ;;
  WRITE "  gLower = color0 - gUpper * 8.0;\n" [] ;;
  WriteToBitDepth 5 "texSample.r" "ocol0.b" ;;
  WRITE "  ocol0.b = ocol0.b * 4.0 + gUpper + 128.0;\n" [] ;;
  WriteToBitDepth 5 "texSample.b" "ocol0.g" ;;
  WRITE "  ocol0.g = ocol0.g + gLower * 32.0;\n" [] ;;
  WRITE "} else {\n" [] ;;
  WriteToBitDepth 4 "texSample.r" "ocol0.b" ;;
  WriteToBitDepth 4 "texSample.b" "ocol0.g" ;;
  WriteToBitDepth 3 "texSample.a" "color0" ;;
  WRITE "ocol0.b = ocol0.b + color0 * 16.0;\n" [] ;;
  WriteToBitDepth 4 "texSample.g" "color0" ;;
  WRITE "ocol0.g = ocol0.g + color0 * 16.0;\n" [] ;;
  WRITE "}\n" [] ;;
  WriteSampleColor "rgba" "texSample" 1 ;;
  WRITE "if(texSample.a > 0.878f) {\n" [] ;;
  WriteToBitDepth 5 "texSample.g" "color0" ;;
  WRITE "  gUpper = floor(color0 / 8.0);\n" [] ;;
  WRITE "  gLower = color0 - gUpper * 8.0;\n" [] ;;
  WriteToBitDepth 5 "texSample.r" "ocol0.r" ;;
  WRITE "  ocol0.r = ocol0.r * 4.0 + gUpper + 128.0;\n" [] ;;
  WriteToBitDepth 5 "texSample.b" "ocol0.a" ;;
  WRITE "  ocol0.a = ocol0.a + gLower * 32.0;\n" [] ;;
  WRITE "} else {\n" [] ;;
  WriteToBitDepth 4 "texSample.r" "ocol0.r" ;;
  WriteToBitDepth 4 "texSample.b" "ocol0.a" ;;
  WriteToBitDepth 3 "texSample.a" "color0" ;;
  WRITE "ocol0.r = ocol0.r + color0 * 16.0;\n" [] ;;
  WriteToBitDepth 4 "texSample.g" "color0" ;;
  WRITE "ocol0.a = ocol0.a + color0 * 16.0;\n" [] ;;
  WRITE "}\n" [] ;;
  WRITE "  ocol0 = ocol0 / 255.0;\n" [] ;;
  WriteEncoderEnd.

Definition WriteRGBA8Encoder : W :=
  WriteSwizzler (code_of GX_TF_RGBA8) ;;
  WRITE "  float4 texSample;\n" [] ;;
  WRITE "  float4 color0;\n" [] ;;
  WRITE "  float4 color1;\n" [] ;;
  WriteSampleColor "rgba" "texSample" 0 ;;
  WRITE "  color0.b = texSample.a;\n" [] ;;
  WRITE "  color0.g = texSample.r;\n" [] ;;
  WRITE "  color1.b = texSample.g;\n" [] ;;
  WRITE "  color1.g = texSample.b;\n" [] ;;
  WriteSampleColor "rgba" "texSample" 1 ;;
  WRITE "  color0.r = texSample.a;\n" [] ;;
  WRITE "  color0.a = texSample.r;\n" [] ;;
  WRITE "  color1.r = texSample.g;\n" [] ;;
  WRITE "  color1.a = texSample.b;\n" [] ;;
  WRITE "  ocol0 = first ? color0 : color1;\n" [] ;;
  WriteEncoderEnd.

Definition WriteC4Encoder (comp : string) : W :=
  WriteSwizzler (code_of GX_CTF_R4) ;;
  WRITE "  float4 color0;\n" [] ;;
  WRITE "  float4 color1;\n" [] ;;
  WriteSampleColor comp "color0.b" 0 ;;
  WriteSampleColor comp "color1.b" 1 ;;
  WriteSampleColor comp "color0.g" 2 ;;
  WriteSampleColor comp "color1.g" 3 ;;
  WriteSampleColor comp "color0.r" 4 ;;
  WriteSampleColor comp "color1.r" 5 ;;
  WriteSampleColor comp "color0.a" 6 ;;
  WriteSampleColor comp "color1.a" 7 ;;
  WriteToBitDepth 4 "color0" "color0" ;;
  WriteToBitDepth 4 "color1" "color1" ;;
  WRITE "  ocol0 = (color0 * 16.0 + color1) / 255.0;\n" [] ;;
  WriteEncoderEnd.

Definition WriteC8Encoder (comp : string) : W :=
  WriteSwizzler (code_of GX_CTF_R8) ;;
  WriteSampleColor comp "ocol0.b" 0 ;;
  WriteSampleColor comp "ocol0.g" 1 ;;
  WriteSampleColor comp "ocol0.r" 2 ;;
  WriteSampleColor comp "ocol0.a" 3 ;;
  WriteEncoderEnd.

Definition WriteCC4Encoder (comp : string) : W :=
  WriteSwizzler (code_of GX_CTF_RA4) ;;
  WRITE "  float2 texSample;\n" [] ;;
  WRITE "  float4 color0;\n" [] ;;
  WRITE "  float4 color1;\n" [] ;;
  WriteSampleColor comp "texSample" 0 ;;
  WRITE "  color0.b = texSample.x;\n" [] ;;
  WRITE "  color1.b = texSample.y;\n" [] ;;
  WriteSampleColor comp "texSample" 1 ;;
  WRITE "  color0.g = texSample.x;\n" [] ;;
  WRITE "  color1.g = texSample.y;\n" [] ;;
  WriteSampleColor comp "texSample" 2 ;;
  WRITE "  color0.r = texSample.x;\n" [] ;;
  WRITE "  color1.r = texSample.y;\n" [] ;;
  WriteSampleColor comp "texSample" 3 ;;
  WRITE "  color0.a = texSample.x;\n" [] ;;
  WRITE "  color1.a = texSample.y;\n" [] ;;
  WriteToBitDepth 4 "color0" "color0" ;;
  WriteToBitDepth 4 "color1" "color1" ;;
  WRITE "  ocol0 = (color0 * 16.0 + color1) / 255.0;\n" [] ;;
  WriteEncoderEnd.

Definition WriteCC8Encoder (comp : string) : W :=
  WriteSwizzler (code_of GX_CTF_RA8) ;;
  WriteSampleColor comp "ocol0.bg" 0 ;;
  WriteSampleColor comp "ocol0.ra" 1 ;;
  WriteEncoderEnd.

Definition WriteZ8Encoder (multiplier : string) : W :=
  WriteSwizzler (code_of GX_CTF_Z8M) ;;
  WRITE " float depth;\n" [] ;;
  WriteSampleColor "b" "depth" 0 ;;
  WRITE "ocol0.b = frac(depth * %s);\n" [A_str multiplier] ;;
  WriteSampleColor "b" "depth" 1 ;;
  WRITE "ocol0.g = frac(depth * %s);\n" [A_str multiplier] ;;
  WriteSampleColor "b" "depth" 2 ;;
  WRITE "ocol0.r = frac(depth * %s);\n" [A_str multiplier] ;;
  WriteSampleColor "b" "depth" 3 ;;
  WRITE "ocol0.a = frac(depth * %s);\n" [A_str multiplier] ;;
  WriteEncoderEnd.

Definition WriteZ16Encoder : W :=
  WriteSwizzler (code_of GX_TF_Z16) ;;
  WRITE "  float depth;\n" [] ;;
  WRITE "  float3 expanded;\n" [] ;;
  WriteSampleColor "b" "depth" 0 ;;
  WRITE "  depth *= 16777215.0;\n" [] ;;
  WRITE "  expanded.r = floor(depth / (256.0 * 256.0));\n" [] ;;
  WRITE "  depth -= expanded.r * 256.0 * 256.0;\n" [] ;;
  WRITE "  expanded.g = floor(depth / 256.0);\n" [] ;;
  WRITE "  ocol0.b = expanded.g / 255.0;\n" [] ;;
  WRITE "  ocol0.g = expanded.r / 255.0;\n" [] ;;
  WriteSampleColor "b" "depth" 1 ;;
  WRITE "  depth *= 16777215.0;\n" [] ;;
  WRITE "  expanded.r = floor(depth / (256.0 * 256.0));\n" [] ;;
  WRITE "  depth -= expanded.r * 256.0 * 256.0;\n" [] ;;
  WRITE "  expanded.g = floor(depth / 256.0);\n" [] ;;
  WRITE "  ocol0.r = expanded.g / 255.0;\n" [] ;;
  WRITE "  ocol0.a = expanded.r / 255.0;\n" [] ;;
  WriteEncoderEnd.

Definition WriteZ16LEncoder : W :=
  WriteSwizzler (code_of GX_CTF_Z16L) ;;
  WRITE "  float depth;\n" [] ;;
  WRITE "  float3 expanded;\n" [] ;;
  WriteSampleColor "b" "depth" 0 ;;
  WRITE "  depth *= 16777215.0;\n" [] ;;
  WRITE "  expanded.r = floor(depth / (256.0 * 256.0));\n" [] ;;
  WRITE "  depth -= expanded.r * 256.0 * 256.0;\n" [] ;;
  WRITE "  expanded.g = floor(depth / 256.0);\n" [] ;;
  WRITE "  depth -= expanded.g * 256.0;\n" [] ;;
  WRITE "  expanded.b = depth;\n" [] ;;
  WRITE "  ocol0.b = expanded.b / 255.0;\n" [] ;;
  WRITE "  ocol0.g = expanded.g / 255.0;\n" [] ;;
  WriteSampleColor "b" "depth" 1 ;;
  WRITE "  depth *= 16777215.0;\n" [] ;;
  WRITE "  expanded.r = floor(depth / (256.0 * 256.0));\n" [] ;;
  WRITE "  depth -= expanded.r * 256.0 * 256.0;\n" [] ;;
  WRITE "  expanded.g = floor(depth / 256.0);\n" [] ;;
  WRITE "  depth -= expanded.g * 256.0;\n" [] ;;
  WRITE "  expanded.b = depth;\n" [] ;;
  WRITE "  ocol0.r = expanded.b / 255.0;\n" [] ;;
  WRITE "  ocol0.a = expanded.g / 255.0;\n" [] ;;
  WriteEncoderEnd.

(** The body of the loop [for (int i = 0; i < 2; i++)] of [WriteZ24Encoder]. *)
Definition WriteZ24Expand (i : Z) : W :=
  WRITE "  depth%i *= 16777215.0;\n" [A_int i] ;;
  WRITE "  expanded%i.r = floor(depth%i / (256.0 * 256.0));\n" [A_int i; A_int i] ;;
  WRITE "  depth%i -= expanded%i.r * 256.0 * 256.0;\n" [A_int i; A_int i] ;;
  WRITE "  expanded%i.g = floor(depth%i / 256.0);\n" [A_int i; A_int i] ;;
  WRITE "  depth%i -= expanded%i.g * 256.0;\n" [A_int i; A_int i] ;;
  WRITE "  expanded%i.b = depth%i;\n" [A_int i; A_int i].

Definition WriteZ24Encoder : W :=
  WriteSwizzler (code_of GX_TF_Z24X8) ;;
  WRITE "  float depth0;\n" [] ;;
  WRITE "  float depth1;\n" [] ;;
  WRITE "  float3 expanded0;\n" [] ;;
  WRITE "  float3 expanded1;\n" [] ;;
  WriteSampleColor "b" "depth0" 0 ;;
  WriteSampleColor "b" "depth1" 1 ;;
  WriteZ24Expand 0 ;;
  WriteZ24Expand 1 ;;
  WRITE "  if (!first) {\n" [] ;;
  WRITE "     ocol0.b = expanded0.g / 255.0;\n" [] ;;
  WRITE "     ocol0.g = expanded0.b / 255.0;\n" [] ;;
  WRITE "     ocol0.r = expanded1.g / 255.0;\n" [] ;;
  WRITE "     ocol0.a = expanded1.b / 255.0;\n" [] ;;
  WRITE "  } else {\n" [] ;;
  WRITE "     ocol0.b = 1.0;\n" [] ;;
  WRITE "     ocol0.g = expanded0.r / 255.0;\n" [] ;;
  WRITE "     ocol0.r = 1.0;\n" [] ;;
  WRITE "     ocol0.a = expanded1.r / 255.0;\n" [] ;;
  WRITE "  }\n" [] ;;
  WriteEncoderEnd.

(** The statement each case label of the switch runs. *)
Definition encoder_of (f : TextureFormat) : W :=
  match f with
  | GX_TF_I4 => WriteI4Encoder
  | GX_TF_I8 => WriteI8Encoder
  | GX_TF_IA4 => WriteIA4Encoder
  | GX_TF_IA8 => WriteIA8Encoder
  | GX_TF_RGB565 => WriteRGB565Encoder
  | GX_TF_RGB5A3 => WriteRGB5A3Encoder
  | GX_TF_RGBA8 => WriteRGBA8Encoder
  | GX_CTF_R4 => WriteC4Encoder "r"
  | GX_CTF_RA4 => WriteCC4Encoder "ar"
  | GX_CTF_RA8 => WriteCC8Encoder "ar"
  | GX_CTF_A8 => WriteC8Encoder "a"
  | GX_CTF_R8 => WriteC8Encoder "r"
  | GX_CTF_G8 => WriteC8Encoder "g"
  | GX_CTF_B8 => WriteC8Encoder "b"
  | GX_CTF_RG8 => WriteCC8Encoder "rg"
  | GX_CTF_GB8 => WriteCC8Encoder "gb"
  | GX_TF_Z8 => WriteC8Encoder "b"
  | GX_TF_Z16 => WriteZ16Encoder
  | GX_TF_Z24X8 => WriteZ24Encoder
  | GX_CTF_Z4 => WriteC4Encoder "b"
  | GX_CTF_Z8M => WriteZ8Encoder "256.0"
  | GX_CTF_Z8L => WriteZ8Encoder "65536.0"
  | GX_CTF_Z16L => WriteZ16LEncoder
  end.

(** [switch (format)]: the first case label whose value is [format]. *)
Definition switch_case (format : Z) : option TextureFormat :=
  find (fun f => (code_of f =? format)%Z) case_labels.

(** [text[sizeof(text) - 1] = 0x7C; char *p = text;] *)
Definition set_canary : W :=
  fun st =>
    Some (mkState (with_canary (text st)) (IntensityConstantAdded st) 0 (alerts st)).

Definition check_canary : W :=
  fun st =>
    if Ascii.eqb (nth (TEXT_SIZE - 1) (text st) NUL) canary then Some st
    else PanicAlert CanaryEaten st.

(** The numeric locale the function installs and restores only matters to
    floating-point conversions, of which the formats have none. *)
Definition GenerateEncodingShader (format : Z) : W :=
  set_canary ;;
  match switch_case format with
  | Some f => encoder_of f
  | None => PanicAlert (UnknownTextureCopyFormat format)
  end ;;
  check_canary.

(** A run of calls, one format after the other. *)
Fixpoint run_calls (formats : list Z) (st : State) : option State :=
  match formats with
  | [] => Some st
  | f :: fs =>
      match GenerateEncodingShader f st with
      | Some st' => run_calls fs st'
      | None => None
      end
  end.


(** *** How the writers compose

    Every writer of the file appends one text at the cursor and leaves the
    flag in a known state.  [emits m fin fout lo hi cnt] says so for [m]
    started with the flag at [fin]: the text has between [lo] and [hi]
    characters, none of them zero, and consists of complete lines, [cnt] of
    which are the declaration of the luminance constant. *)

(** [put s f]: the text [s] appended at the cursor, the flag left at [f]. *)
Definition put (s : string) (f : bool) : W :=
  fun st =>
    match s with
    | EmptyString => Some (mkState (text st) f (p st) (alerts st))
    | _ =>
      let n := String.length s in
      if (p st + n + 1 <=? List.length (text st))%nat then
        Some (mkState
                (firstn (p st) (text st) ++ list_ascii_of_string s
                   ++ NUL :: skipn (p st + n + 1) (text st))
                f (p st + n) (alerts st))
      else None
    end.

Lemma put_nonempty s f st :
  s <> EmptyString ->
  put s f st =
  if (p st + String.length s + 1 <=? List.length (text st))%nat then
    Some (mkState
            (firstn (p st) (text st) ++ list_ascii_of_string s
               ++ NUL :: skipn (p st + String.length s + 1) (text st))
            f (p st + String.length s) (alerts st))
  else None.
Proof. destruct s; [congruence | reflexivity]. Qed.

Lemma put_length s f st st' :
  put s f st = Some st' -> List.length (text st') = List.length (text st).
Proof.
  destruct s as [|c s].
  - intros [= <-]. reflexivity.
  - rewrite put_nonempty by discriminate.
    generalize (String c s) as a. intros a.
    destruct (Nat.leb_spec (p st + String.length a + 1) (List.length (text st))) as [H|H];
      [|discriminate].
    intros [= <-]. cbn [text].
    rewrite !length_app, length_firstn. cbn [List.length].
    rewrite length_skipn, list_ascii_of_string_length. lia.
Qed.

Lemma put_put s1 f1 s2 f2 st :
  match put s1 f1 st with
  | Some st1 => put s2 f2 st1
  | None => None
  end = put (s1 ++ s2) f2 st.
Proof.
  destruct s1 as [|c1 s1]; [destruct s2; reflexivity|].
  destruct s2 as [|c2 s2].
  { rewrite append_nil_r. unfold put.
    destruct (_ <=? _)%nat; reflexivity. }
  assert (Ha : String c1 s1 <> "") by discriminate.
  assert (Hb : String c2 s2 <> "") by discriminate.
  assert (Hab : String c1 s1 ++ String c2 s2 <> "") by discriminate.
  revert Ha Hb Hab. generalize (String c1 s1) as a. generalize (String c2 s2) as b.
  intros b a Ha Hb Hab.
  rewrite (put_nonempty a) by assumption.
  rewrite (put_nonempty (a ++ b)) by assumption.
  rewrite append_length.
  destruct (Nat.leb_spec (p st + String.length a + 1) (List.length (text st))) as [H1|H1].
  - rewrite (put_nonempty b) by assumption. cbn [text p alerts].
    rewrite !length_app, length_firstn. cbn [List.length].
    rewrite length_skipn, list_ascii_of_string_length.
    replace (Nat.min (p st) (List.length (text st))) with (p st) by lia.
    destruct (Nat.leb_spec (p st + String.length a + String.length b + 1)
                (p st + (String.length a + S (List.length (text st) - (p st + String.length a + 1)))))
      as [H2|H2];
    destruct (Nat.leb_spec (p st + (String.length a + String.length b) + 1) (List.length (text st)))
      as [H3|H3]; try lia; [|reflexivity].
    f_equal. f_equal; [|lia].
    rewrite list_ascii_of_string_append.
    set (la := list_ascii_of_string a). set (lb := list_ascii_of_string b).
    assert (Hla : List.length la = String.length a) by apply list_ascii_of_string_length.
    set (pre := firstn (p st) (text st)).
    assert (Hpre : List.length pre = p st) by (unfold pre; rewrite length_firstn; lia).
    replace (pre ++ la ++ NUL :: skipn (p st + String.length a + 1) (text st))%list
      with ((pre ++ la) ++ NUL :: skipn (p st + String.length a + 1) (text st))%list
      by (now rewrite <- app_assoc).
    rewrite firstn_app.
    replace (p st + String.length a - List.length (pre ++ la)) with 0
      by (rewrite length_app; lia).
    rewrite firstn_all2 by (rewrite length_app; lia).
    cbn [firstn]. rewrite app_nil_r.
    rewrite skipn_app.
    rewrite (skipn_all2 (pre ++ la)) by (rewrite length_app; lia).
    rewrite length_app, Hpre, Hla.
    replace (p st + String.length a + String.length b + 1 - (p st + String.length a))
      with (S (String.length b)) by lia.
    cbn [skipn app]. rewrite skipn_skipn.
    replace (String.length b + (p st + String.length a + 1))
      with (p st + (String.length a + String.length b) + 1) by lia.
    now rewrite <- !app_assoc.
  - destruct (Nat.leb_spec (p st + (String.length a + String.length b) + 1) (List.length (text st)));
      [lia | reflexivity].
Qed.

(** [m] appends one text, the same from every state with the flag [fin],
    and leaves the flag [fout]. *)
Definition emits (m : W) (fin fout : bool) (lo hi cnt : nat) : Prop :=
  exists s,
    (forall st, IntensityConstantAdded st = fin -> m st = put s fout st) /\
    lo <= String.length s <= hi /\ no_nul s = true /\
    scan_lines IntensityConst_line (Some IntensityConst_line) s
    = (cnt, Some IntensityConst_line).

Lemma scan_lines_append l : forall a cur b,
  scan_lines l cur (a ++ b) =
  let (n1, c1) := scan_lines l cur a in
  let (n2, c2) := scan_lines l c1 b in (n1 + n2, c2).
Proof.
  induction a as [|x a IH]; intros cur b; cbn [scan_lines append].
  - destruct (scan_lines l cur b); reflexivity.
  - destruct (Ascii.eqb x newline).
    + rewrite IH. destruct (scan_lines l (Some l) a) as [n1 c1].
      destruct (scan_lines l c1 b) as [n2 c2]. f_equal. lia.
    + apply IH.
Qed.

Lemma scan_lines_None_skip l : forall d r,
  no_newline d = true -> scan_lines l None (d ++ r) = scan_lines l None r.
Proof.
  induction d as [|x d IH]; intros r H; cbn [append]; [reflexivity|].
  unfold no_newline in H. cbn [list_ascii_of_string forallb] in H.
  apply andb_prop in H. destruct H as [Hx Hd].
  cbn [scan_lines]. destruct (Ascii.eqb x newline); [discriminate|].
  apply IH. exact Hd.
Qed.

Lemma emits_seq m1 m2 f0 f1 f2 lo1 hi1 c1 lo2 hi2 c2 :
  emits m1 f0 f1 lo1 hi1 c1 -> emits m2 f1 f2 lo2 hi2 c2 ->
  emits (m1 ;; m2) f0 f2 (lo1 + lo2) (hi1 + hi2) (c1 + c2).
Proof.
  intros (s1 & E1 & L1 & N1 & S1) (s2 & E2 & L2 & N2 & S2).
  exists (s1 ++ s2). split.
  - intros st Hst. unfold seq. rewrite (E1 st Hst).
    pose proof (put_put s1 f1 s2 f2 st) as PP.
    destruct (put s1 f1 st) as [st1|] eqn:P1; [|exact PP].
    assert (F1 : IntensityConstantAdded st1 = f1).
    { unfold put in P1. destruct s1; [|destruct (_ <=? _)%nat; [|discriminate]];
        injection P1 as <-; reflexivity. }
    rewrite (E2 st1 F1). exact PP.
  - rewrite append_length, no_nul_append, N1, N2.
    split; [lia|]. split; [reflexivity|].
    rewrite scan_lines_append, S1, S2. reflexivity.
Qed.

Lemma emits_WRITE fmt args f lo hi c :
  vformat 0 (c_lit fmt) args <> "" ->
  lo <= String.length (vformat 0 (c_lit fmt) args) <= hi ->
  no_nul (vformat 0 (c_lit fmt) args) = true ->
  scan_lines IntensityConst_line (Some IntensityConst_line) (vformat 0 (c_lit fmt) args)
    = (c, Some IntensityConst_line) ->
  emits (WRITE fmt args) f f lo hi c.
Proof.
  intros Hne Hlen Hn Hs. exists (vformat 0 (c_lit fmt) args).
  split; [|repeat split; try assumption; lia].
  intros st Hst.
  rewrite put_nonempty by assumption.
  unfold WRITE, seq, store, advance. cbv zeta.
  destruct (_ <=? _)%nat; [|reflexivity].
  cbn [text IntensityConstantAdded p alerts]. now rewrite Hst.
Qed.

Lemma emits_WRITE_closed fmt args f n c :
  String.length (vformat 0 (c_lit fmt) args) = S n ->
  no_nul (vformat 0 (c_lit fmt) args) = true ->
  scan_lines IntensityConst_line (Some IntensityConst_line) (vformat 0 (c_lit fmt) args)
    = (c, Some IntensityConst_line) ->
  emits (WRITE fmt args) f f (S n) (S n) c.
Proof.
  intros Hl Hn Hs. apply emits_WRITE; try assumption.
  - intros E. rewrite E in Hl. discriminate.
  - lia.
Qed.

Lemma emits_set_flag f b : emits (set_IntensityConstantAdded b) f b 0 0 0.
Proof.
  exists "". split; [intros st _; reflexivity|].
  split; [cbn [String.length]; lia|]. split; reflexivity.
Qed.

Lemma emits_skip f : emits skip f f 0 0 0.
Proof.
  exists "". split.
  - intros st Hst. unfold skip, put. rewrite <- Hst. now destruct st.
  - split; [cbn [String.length]; lia|]. split; reflexivity.
Qed.

Lemma emits_if_not_added (A : W) fin fout lo hi c :
  emits (if negb fin then A else skip) fin fout lo hi c ->
  emits (fun st => if negb (IntensityConstantAdded st) then A st else Some st) fin fout lo hi c.
Proof.
  intros (s & E & R). exists s. split; [|exact R].
  intros st Hst. rewrite <- (E st Hst), Hst. destruct (negb fin); reflexivity.
Qed.

Lemma emits_weaken m fin fout lo hi c lo' hi' c' :
  emits m fin fout lo hi c -> lo' <= lo -> hi <= hi' -> c = c' ->
  emits m fin fout lo' hi' c'.
Proof.
  intros (s & E & L & R) Hlo Hhi <-.
  exists s. split; [exact E|]. split; [lia | exact R].
Qed.

Ltac emits_closed :=
  lazymatch goal with
  | |- emits (_ ;; _) _ _ _ _ _ => eapply emits_seq; [emits_closed | emits_closed]
  | |- emits (WRITE _ _) _ _ _ _ _ =>
      eapply emits_WRITE_closed; vm_compute; reflexivity
  | |- emits (set_IntensityConstantAdded _) _ _ _ _ _ => apply emits_set_flag
  | |- emits skip _ _ _ _ _ => apply emits_skip
  | |- emits (fun st => if negb (IntensityConstantAdded st) then _ else _) _ _ _ _ _ =>
      apply emits_if_not_added; cbn [negb]; emits_closed
  | |- emits (WriteSampleColor _ _ _) _ _ _ _ _ => unfold WriteSampleColor; emits_closed
  | |- emits (WriteColorToIntensity _ _) _ _ _ _ _ => unfold WriteColorToIntensity; emits_closed
  | |- emits (WriteToBitDepth _ _ _) _ _ _ _ _ => unfold WriteToBitDepth; emits_closed
  | |- emits WriteEncoderEnd _ _ _ _ _ => unfold WriteEncoderEnd; emits_closed
  | |- emits (WriteZ24Expand _) _ _ _ _ _ => unfold WriteZ24Expand; emits_closed
  end.


Arguments fmt_d : simpl never.

Lemma no_nul_cons c s : no_nul (String c s) = negb (Ascii.eqb c NUL) && no_nul s.
Proof. reflexivity. Qed.

(** A line with a number the model leaves open. *)
Ltac sym_line :=
  cbn [vformat c_lit Ascii.eqb Bool.eqb andb orb];
  repeat first
    [ progress cbn [scan_lines String.length Ascii.eqb Bool.eqb andb orb negb
                    IntensityConst_line newline NUL ascii_of_nat ascii_of_pos
                    ascii_of_N Nat.add fst snd Pos.of_succ_nat Pos.succ
                    N.of_nat Ascii.shift Ascii.zero Ascii.one]
    | rewrite append_length
    | rewrite no_nul_append
    | rewrite no_nul_cons
    | rewrite fmt_d_no_nul
    | rewrite scan_lines_None_skip by apply fmt_d_no_newline ].

Ltac emits_open :=
  lazymatch goal with
  | |- emits (_ ;; _) _ _ _ _ _ => eapply emits_seq; [emits_open | emits_open]
  | |- emits (WRITE _ []) _ _ _ _ _ =>
      eapply emits_WRITE_closed; vm_compute; reflexivity
  | |- emits (WRITE _ _) _ _ _ _ _ =>
      apply (emits_WRITE _ _ _ 1 120 0);
      [ sym_line; discriminate
      | sym_line;
        repeat match goal with
               | |- context [String.length (fmt_d ?x)] =>
                   lazymatch goal with
                   | _ : 1 <= String.length (fmt_d x) <= 11 |- _ => fail
                   | _ => pose proof (fmt_d_length x)
                   end
               end; lia
      | sym_line; reflexivity
      | sym_line; reflexivity ]
  | |- emits skip _ _ _ _ _ => apply emits_skip
  end.

Lemma WriteSwizzler_emits format f :
  exists lo hi, emits (WriteSwizzler format) f f lo hi 0 /\ 1 <= lo /\ hi <= 2400.
Proof.
  unfold WriteSwizzler. cbv zeta.
  destruct (wrap_int (GetEncodedSampleCount format) =? 1)%Z.
  - do 2 eexists.
    split; [eapply emits_weaken;
            [emits_open | apply Nat.le_refl | apply Nat.le_refl | vm_compute; reflexivity]|].
    split; apply Nat.leb_le; vm_compute; reflexivity.
  - do 2 eexists.
    split; [eapply emits_weaken;
            [emits_open | apply Nat.le_refl | apply Nat.le_refl | vm_compute; reflexivity]|].
    split; apply Nat.leb_le; vm_compute; reflexivity.
Qed.

Lemma emits_after_swizzler format body fin fout lo hi c c' :
  emits body fin fout lo hi c -> (hi <=? 4500)%nat = true -> c = c' ->
  exists lo' hi',
    emits (WriteSwizzler format ;; body) fin fout lo' hi' c' /\
    1 <= lo' /\ hi' <= 2400 + 4500.
Proof.
  intros Hb Hhi <-. apply Nat.leb_le in Hhi.
  destruct (WriteSwizzler_emits format fin) as (los & his & Hs & Hlo & Hh).
  exists (los + lo), (his + hi). split; [|lia].
  exact (emits_seq _ _ _ _ _ _ _ _ _ _ _ Hs Hb).
Qed.

(** Each encoder appends one text of at most 6900 characters, in which the
    declaration of the constant stands once if the encoder converts to
    intensity and the flag was clear, and not at all otherwise; the flag is
    clear afterwards. *)
Lemma encoder_emits f fin :
  exists lo hi,
    emits (encoder_of f) fin false lo hi (if uses_intensity f && negb fin then 1 else 0) /\
    1 <= lo /\ hi <= 2400 + 4500.
Proof.
  destruct f, fin; cbn [encoder_of uses_intensity andb negb];
    unfold WriteI4Encoder, WriteI8Encoder, WriteIA4Encoder, WriteIA8Encoder,
      WriteRGB565Encoder, WriteRGB5A3Encoder, WriteRGBA8Encoder, WriteC4Encoder,
      WriteC8Encoder, WriteCC4Encoder, WriteCC8Encoder, WriteZ8Encoder,
      WriteZ16Encoder, WriteZ16LEncoder, WriteZ24Encoder;
    (eapply emits_after_swizzler;
     [emits_closed | vm_compute; reflexivity | vm_compute; reflexivity]).
Qed.

(** *** The buffer after a call *)

(** The statics after a call that ran an encoder which wrote [s]. *)
Definition after_encoder (s : string) (st : State) : State :=
  mkState
    (list_ascii_of_string s ++ NUL :: skipn (String.length s + 1) (with_canary (text st)))
    false (String.length s) (alerts st).

(** The statics after a call with a format the switch does not list. *)
Definition after_unknown (format : Z) (st : State) : State :=
  mkState (with_canary (text st)) (IntensityConstantAdded st) 0
          (alerts st ++ [UnknownTextureCopyFormat format]).

Lemma TEXT_SIZE_val : TEXT_SIZE = Z.to_nat 16384.
Proof. reflexivity. Qed.

Opaque TEXT_SIZE.

Lemma with_canary_length t :
  List.length t = TEXT_SIZE -> List.length (with_canary t) = TEXT_SIZE.
Proof.
  intros H. unfold with_canary. rewrite length_app, length_firstn. cbn [List.length].
  rewrite length_skipn, H, TEXT_SIZE_val. lia.
Qed.

Lemma with_canary_last t d :
  List.length t = TEXT_SIZE -> nth (TEXT_SIZE - 1) (with_canary t) d = canary.
Proof.
  intros H. unfold with_canary.
  replace (TEXT_SIZE - 1) with (List.length (firstn (TEXT_SIZE - 1) t)) at 1.
  - apply nth_middle.
  - rewrite length_firstn, H, TEXT_SIZE_val. lia.
Qed.

Lemma with_canary_nth t i d :
  i < TEXT_SIZE - 1 -> List.length t = TEXT_SIZE -> nth i (with_canary t) d = nth i t d.
Proof.
  intros Hi H. unfold with_canary. rewrite app_nth1.
  - rewrite nth_firstn. destruct (Nat.ltb_spec i (TEXT_SIZE - 1)); [reflexivity | lia].
  - rewrite length_firstn, H. lia.
Qed.

Lemma c_str_append s rest :
  no_nul s = true -> c_str (list_ascii_of_string s ++ NUL :: rest) = s.
Proof.
  induction s as [|c s IH]; intros H.
  - reflexivity.
  - rewrite no_nul_cons in H. apply andb_prop in H. destruct H as [Hc Hs].
    cbn [list_ascii_of_string app c_str].
    destruct (Ascii.eqb c NUL); [discriminate|]. now rewrite IH.
Qed.

(** [c_str] reads no further than the first zero. *)
Lemma c_str_prefix : forall (t u : list ascii) i,
  i < List.length t -> i < List.length u ->
  nth i t NUL = NUL ->
  (forall j, j <= i -> nth j u NUL = nth j t NUL) ->
  c_str u = c_str t.
Proof.
  induction t as [|a t IH]; intros u i Ht Hu Hz Hsame.
  - cbn [List.length] in Ht. lia.
  - destruct u as [|b u]; [cbn [List.length] in Hu; lia|].
    pose proof (Hsame 0 ltac:(lia)) as H0. cbn [nth] in H0. subst b.
    cbn [c_str]. destruct (Ascii.eqb a NUL) eqn:Ea; [reflexivity|].
    destruct i as [|i].
    + cbn [nth] in Hz. subst a. discriminate Ea.
    + f_equal. apply (IH u i).
      * cbn [List.length] in Ht. lia.
      * cbn [List.length] in Hu. lia.
      * exact Hz.
      * intros j Hj. apply (Hsame (S j)). lia.
Qed.

Lemma c_str_with_canary t i :
  List.length t = TEXT_SIZE -> i < TEXT_SIZE - 1 -> nth i t NUL = NUL ->
  c_str (with_canary t) = c_str t.
Proof.
  intros H Hi Hz. apply (c_str_prefix t (with_canary t) i).
  - lia.
  - rewrite with_canary_length by assumption. lia.
  - exact Hz.
  - intros j Hj. apply with_canary_nth; [lia | assumption].
Qed.

Lemma after_encoder_length s st :
  List.length (text st) = TEXT_SIZE -> String.length s + 1 < TEXT_SIZE ->
  List.length (text (after_encoder s st)) = TEXT_SIZE.
Proof.
  intros H Hs. cbn [after_encoder text]. rewrite length_app. cbn [List.length].
  rewrite length_skipn, list_ascii_of_string_length, with_canary_length by assumption. lia.
Qed.

Lemma after_encoder_canary s st d :
  List.length (text st) = TEXT_SIZE -> String.length s + 1 < TEXT_SIZE ->
  nth (TEXT_SIZE - 1) (text (after_encoder s st)) d = canary.
Proof.
  intros H Hs. cbn [after_encoder text].
  rewrite app_nth2 by (rewrite list_ascii_of_string_length; lia).
  rewrite list_ascii_of_string_length.
  replace (TEXT_SIZE - 1 - String.length s) with (S (TEXT_SIZE - 1 - String.length s - 1)) by lia.
  cbn [nth]. rewrite nth_skipn.
  replace (String.length s + 1 + (TEXT_SIZE - 1 - String.length s - 1)) with (TEXT_SIZE - 1) by lia.
  now apply with_canary_last.
Qed.

Lemma after_encoder_terminator s st d :
  nth (String.length s) (text (after_encoder s st)) d = NUL.
Proof.
  cbn [after_encoder text]. rewrite <- (list_ascii_of_string_length s) at 1.
  apply nth_middle.
Qed.

Lemma after_encoder_returned s st :
  no_nul s = true -> returned_text (after_encoder s st) = s.
Proof. intros H. unfold returned_text. cbn [after_encoder text]. now apply c_str_append. Qed.

Lemma set_canary_eq st :
  set_canary st = Some (mkState (with_canary (text st)) (IntensityConstantAdded st) 0 (alerts st)).
Proof. reflexivity. Qed.

Lemma check_canary_intact st :
  nth (TEXT_SIZE - 1) (text st) NUL = canary -> check_canary st = Some st.
Proof. intros H. unfold check_canary. rewrite H. reflexivity. Qed.

(** A call with a format of the switch: the text depends on the format and
    the flag only. *)
Lemma GenerateEncodingShader_text format f fin :
  switch_case format = Some f ->
  exists s,
    1 <= String.length s <= 2400 + 4500 /\
    no_nul s = true /\
    count_lines IntensityConst_line s = (if uses_intensity f && negb fin then 1 else 0) /\
    forall st,
      List.length (text st) = TEXT_SIZE ->
      IntensityConstantAdded st = fin ->
      GenerateEncodingShader format st = Some (after_encoder s st).
Proof.
  intros Hsw.
  destruct (encoder_emits f fin) as (lo & hi & (s & Es & Ls & Ns & Cs) & Hlo & Hhi).
  exists s.
  assert (Hs : 1 <= String.length s <= 2400 + 4500) by lia.
  assert (Hne : s <> "") by (intros ->; cbn [String.length] in Hs; lia).
  split; [exact Hs|]. split; [exact Ns|].
  split; [unfold count_lines; now rewrite Cs|].
  intros st Hlen Hfin.
  pose (st0 := mkState (with_canary (text st)) (IntensityConstantAdded st) 0 (alerts st)).
  unfold GenerateEncodingShader, seq. rewrite set_canary_eq, Hsw. fold st0.
  rewrite (Es st0 Hfin), put_nonempty by exact Hne.
  cbn [st0 text p alerts]. rewrite with_canary_length by exact Hlen.
  destruct (Nat.leb_spec (0 + String.length s + 1) TEXT_SIZE) as [Hb|Hb];
    [|rewrite TEXT_SIZE_val in Hb; lia].
  cbn [firstn app Nat.add].
  change (mkState _ false (String.length s) (alerts st)) with (after_encoder s st).
  apply check_canary_intact. apply after_encoder_canary; [exact Hlen|].
  rewrite TEXT_SIZE_val. lia.
Qed.

Lemma GenerateEncodingShader_known format f st :
  List.length (text st) = TEXT_SIZE ->
  switch_case format = Some f ->
  exists s,
    GenerateEncodingShader format st = Some (after_encoder s st) /\
    1 <= String.length s <= 2400 + 4500 /\
    no_nul s = true /\
    count_lines IntensityConst_line s =
      (if uses_intensity f && negb (IntensityConstantAdded st) then 1 else 0).
Proof.
  intros Hlen Hsw.
  destruct (GenerateEncodingShader_text format f (IntensityConstantAdded st) Hsw)
    as (s & Ls & Ns & Cs & E).
  exists s. split; [now apply E|]. split; [exact Ls|]. split; [exact Ns | exact Cs].
Qed.

(** A call with any other format. *)
Lemma GenerateEncodingShader_unknown format st :
  List.length (text st) = TEXT_SIZE ->
  switch_case format = None ->
  GenerateEncodingShader format st = Some (after_unknown format st).
Proof.
  intros Hlen Hsw. unfold GenerateEncodingShader, seq.
  rewrite set_canary_eq, Hsw. unfold PanicAlert. cbn [text IntensityConstantAdded p alerts].
  apply check_canary_intact. cbn [text]. now apply with_canary_last.
Qed.

(** *** Runs of calls *)

(** What every call finds and leaves: [text] has its full length, the flag
    is clear, and a zero stands before the last slot. *)
Definition call_invariant (st : State) : Prop :=
  List.length (text st) = TEXT_SIZE /\
  IntensityConstantAdded st = false /\
  exists i, i < TEXT_SIZE - 1 /\ nth i (text st) NUL = NUL.

Lemma initial_state_invariant : call_invariant initial_state.
Proof.
  unfold call_invariant, initial_state. cbn [text IntensityConstantAdded].
  split; [apply repeat_length|]. split; [reflexivity|].
  exists 0. split; [rewrite TEXT_SIZE_val; lia|].
  apply nth_repeat.
Qed.

Lemma GenerateEncodingShader_invariant format st :
  call_invariant st ->
  exists st', GenerateEncodingShader format st = Some st' /\ call_invariant st'.
Proof.
  intros (Hlen & Hflag & i & Hi & Hz).
  destruct (switch_case format) as [f|] eqn:Hsw.
  - destruct (GenerateEncodingShader_known format f st Hlen Hsw) as (s & E & Ls & Ns & _).
    exists (after_encoder s st). split; [exact E|].
    assert (Hs : String.length s + 1 < TEXT_SIZE) by (rewrite TEXT_SIZE_val; lia).
    split; [now apply after_encoder_length|]. split; [reflexivity|].
    exists (String.length s). split; [lia | apply after_encoder_terminator].
  - exists (after_unknown format st).
    split; [now apply GenerateEncodingShader_unknown|].
    unfold call_invariant, after_unknown. cbn [text IntensityConstantAdded].
    split; [now apply with_canary_length|]. split; [exact Hflag|].
    exists i. split; [exact Hi|]. rewrite with_canary_nth; assumption.
Qed.

Lemma run_calls_invariant formats : forall st,
  call_invariant st ->
  exists st', run_calls formats st = Some st' /\ call_invariant st'.
Proof.
  induction formats as [|f fs IH]; intros st Hst; cbn [run_calls].
  - exists st. split; [reflexivity | exact Hst].
  - destruct (GenerateEncodingShader_invariant f st Hst) as (st1 & E1 & H1).
    rewrite E1. apply IH. exact H1.
Qed.

Lemma switch_case_listed format f :
  switch_case format = Some f -> In f case_labels /\ code_of f = format.
Proof.
  unfold switch_case. intros H. apply find_some in H. destruct H as [Hin Heq].
  split; [exact Hin | now apply Z.eqb_eq].
Qed.

Lemma switch_case_of_label f :
  In f case_labels -> switch_case (code_of f) <> None.
Proof.
  intros Hin Hnone. unfold switch_case in Hnone.
  pose proof (find_none _ _ Hnone f Hin) as H. cbv beta in H.
  rewrite Z.eqb_refl in H. discriminate H.
Qed.

Lemma every_format_is_a_label (f : TextureFormat) : In f case_labels.
Proof.
  destruct f; cbv [case_labels In]; repeat first [left; reflexivity | right].
Qed.

(** *** The claims about the generator *)

(** C1, as amended: for each of the 23 formats the switch of
    GenerateEncodingShader lists, a call raises no alert and leaves in the
    16384-byte buffer a non-empty, zero-terminated text that ends before the
    last byte, with the canary written there before generation unchanged. *)
Theorem encoding_shader_fits (f : TextureFormat) (st : State) :
  In f case_labels ->
  List.length (text st) = TEXT_SIZE ->
  exists st',
    GenerateEncodingShader (code_of f) st = Some st' /\
    alerts st' = alerts st /\
    List.length (text st') = TEXT_SIZE /\
    shader_in_buffer st'.
Proof.
  intros Hin Hlen.
  destruct (switch_case (code_of f)) as [f'|] eqn:Hsw;
    [|now apply switch_case_of_label in Hin].
  destruct (GenerateEncodingShader_known _ f' st Hlen Hsw) as (s & E & Ls & Ns & _).
  assert (Hs : String.length s + 1 < TEXT_SIZE) by (rewrite TEXT_SIZE_val; lia).
  exists (after_encoder s st). split; [exact E|]. split; [reflexivity|].
  split; [now apply after_encoder_length|].
  unfold shader_in_buffer. rewrite after_encoder_returned by exact Ns.
  split; [intros ->; cbn [String.length] in Ls; lia|].
  split; [exact Hs|]. split; [apply after_encoder_terminator|].
  now apply after_encoder_canary.
Qed.

(** C4: in any run of calls from the program's start, take two successive
    calls with formats A and B.  The flag is clear when A starts, when B
    starts and when B ends, and if B's encoder converts to intensity, the
    text B returns declares IntensityConst on exactly one line, whatever A
    was. *)
Theorem intensity_flag_does_not_leak (history : list Z) (A B : Z) :
  exists st0 st1 st2,
    run_calls history initial_state = Some st0 /\
    IntensityConstantAdded st0 = false /\
    GenerateEncodingShader A st0 = Some st1 /\
    IntensityConstantAdded st1 = false /\
    GenerateEncodingShader B st1 = Some st2 /\
    IntensityConstantAdded st2 = false /\
    (forall f, switch_case B = Some f -> uses_intensity f = true ->
       count_lines IntensityConst_line (returned_text st2) = 1).
Proof.
  destruct (run_calls_invariant history _ initial_state_invariant) as (st0 & E0 & I0).
  destruct (GenerateEncodingShader_invariant A st0 I0) as (st1 & E1 & I1).
  destruct (GenerateEncodingShader_invariant B st1 I1) as (st2 & E2 & I2).
  exists st0, st1, st2.
  repeat (split; [first [assumption | apply I0 | apply I1 | apply I2]|]).
  intros f Hsw Hint.
  destruct I1 as (Hlen1 & Hf1 & _).
  destruct (GenerateEncodingShader_known B f st1 Hlen1 Hsw) as (s & E & _ & Ns & Cs).
  rewrite E in E2. injection E2 as <-.
  rewrite after_encoder_returned by exact Ns.
  rewrite Cs, Hint, Hf1. reflexivity.
Qed.

(** C5, as amended: a call with a format the switch does not list raises the
    alert and writes no text: the cursor stays at the start of the buffer,
    every byte before the canary slot and the flag are as the call found
    them, and the text at the returned pointer is the text that was there
    before the call (the previous call's shader, or nothing on a fresh
    buffer). *)
Theorem unknown_format_alerts_and_writes_nothing (history : list Z) (format : Z) :
  switch_case format = None ->
  exists st st',
    run_calls history initial_state = Some st /\
    GenerateEncodingShader format st = Some st' /\
    alerts st' = (alerts st ++ [UnknownTextureCopyFormat format])%list /\
    p st' = 0 /\
    (forall i, i < TEXT_SIZE - 1 -> nth i (text st') NUL = nth i (text st) NUL) /\
    IntensityConstantAdded st' = IntensityConstantAdded st /\
    returned_text st' = returned_text st.
Proof.
  intros Hsw.
  destruct (run_calls_invariant history _ initial_state_invariant)
    as (st & E & Hlen & Hflag & i & Hi & Hz).
  exists st, (after_unknown format st).
  split; [exact E|]. split; [now apply GenerateEncodingShader_unknown|].
  split; [reflexivity|]. split; [reflexivity|].
  split; [intros j Hj; cbn [after_unknown text]; now apply with_canary_nth|].
  split; [reflexivity|].
  unfold returned_text. cbn [after_unknown text]. now apply (c_str_with_canary _ i).
Qed.

(** *** Further properties of the generator *)

(** The identifiers that reach the default branch of the switch. *)
Definition unlisted (format : Z) : bool :=
  match switch_case format with
  | Some _ => false
  | None => true
  end.

Lemma run_calls_alerts calls : forall st,
  call_invariant st ->
  exists st',
    run_calls calls st = Some st' /\
    alerts st' = (alerts st ++ map UnknownTextureCopyFormat (filter unlisted calls))%list.
Proof.
  induction calls as [|c calls IH]; intros st Hst; cbn [run_calls filter].
  - exists st. split; [reflexivity|]. cbn [map]. now rewrite app_nil_r.
  - destruct (GenerateEncodingShader_invariant c st Hst) as (st1 & E1 & H1).
    rewrite E1. destruct (IH st1 H1) as (st' & E' & A').
    exists st'. split; [exact E'|]. rewrite A'.
    destruct Hst as (Hlen & _). unfold unlisted.
    destruct (switch_case c) as [f|] eqn:Hsw.
    + destruct (GenerateEncodingShader_known c f st Hlen Hsw) as (s & E & _).
      rewrite E in E1. injection E1 as <-. reflexivity.
    + rewrite (GenerateEncodingShader_unknown c st Hlen Hsw) in E1. injection E1 as <-.
      cbn [after_unknown alerts map]. now rewrite <- app_assoc.
Qed.

(** Over any run of calls from the program's start, the alerts raised are
    those for the identifiers the switch does not list, one for each such
    call and in the order of the calls; a listed format never alerts. *)
Theorem alerts_are_the_unlisted_calls (calls : list Z) :
  exists st,
    run_calls calls initial_state = Some st /\
    alerts st = map UnknownTextureCopyFormat (filter unlisted calls).
Proof.
  destruct (run_calls_alerts calls initial_state initial_state_invariant) as (st & E & A).
  exists st. split; [exact E|]. exact A.
Qed.

(** A call for a listed format leaves the cursor [p] on the terminating
    zero of the text it returns, and that text has at most 6900
    characters: less than half of the buffer is ever written. *)
Theorem cursor_ends_on_terminator (format : Z) (f : TextureFormat) (st : State) :
  List.length (text st) = TEXT_SIZE ->
  switch_case format = Some f ->
  exists st',
    GenerateEncodingShader format st = Some st' /\
    p st' = String.length (returned_text st') /\
    nth (p st') (text st') NUL = NUL /\
    2 * (p st' + 1) < TEXT_SIZE.
Proof.
  intros Hlen Hsw.
  destruct (GenerateEncodingShader_known format f st Hlen Hsw) as (s & E & Ls & Ns & _).
  exists (after_encoder s st). split; [exact E|].
  rewrite after_encoder_returned by exact Ns.
  split; [reflexivity|]. split; [apply after_encoder_terminator|].
  cbn [after_encoder p]. rewrite TEXT_SIZE_val. lia.
Qed.

(** After any run of calls, the text returned for a format whose encoder
    does not convert to intensity has no line declaring IntensityConst. *)
Theorem other_encoders_do_not_declare_IntensityConst
    (history : list Z) (format : Z) (f : TextureFormat) :
  switch_case format = Some f ->
  uses_intensity f = false ->
  exists st st',
    run_calls history initial_state = Some st /\
    GenerateEncodingShader format st = Some st' /\
    count_lines IntensityConst_line (returned_text st') = 0.
Proof.
  intros Hsw Hint.
  destruct (run_calls_invariant history _ initial_state_invariant) as (st & E & Hlen & _).
  destruct (GenerateEncodingShader_known format f st Hlen Hsw) as (s & Es & _ & Ns & Cs).
  exists st, (after_encoder s st). split; [exact E|]. split; [exact Es|].
  rewrite after_encoder_returned by exact Ns.
  rewrite Cs, Hint. reflexivity.
Qed.

(** The text a call returns for a listed format is fixed by the format:
    after any two runs of calls, whatever they generated or alerted, the
    call returns the same text. *)
Theorem generated_text_ignores_history (history1 history2 : list Z) (format : Z)
    (f : TextureFormat) :
  switch_case format = Some f ->
  exists st1 st1' st2 st2',
    run_calls history1 initial_state = Some st1 /\
    GenerateEncodingShader format st1 = Some st1' /\
    run_calls history2 initial_state = Some st2 /\
    GenerateEncodingShader format st2 = Some st2' /\
    returned_text st1' = returned_text st2'.
Proof.
  intros Hsw.
  destruct (run_calls_invariant history1 _ initial_state_invariant)
    as (st1 & E1 & Hlen1 & Hf1 & _).
  destruct (run_calls_invariant history2 _ initial_state_invariant)
    as (st2 & E2 & Hlen2 & Hf2 & _).
  destruct (GenerateEncodingShader_text format f false Hsw) as (s & _ & Ns & _ & G).
  exists st1, (after_encoder s st1), st2, (after_encoder s st2).
  split; [exact E1|]. split; [now apply G|].
  split; [exact E2|]. split; [now apply G|].
  now rewrite !after_encoder_returned.
Qed.

End Generator.

(** *** One environment to run the generator in

    The enumerators' values, block sizes and sample counts follow Dolphin's
    TextureDecoder.h and TextureConversionShader.cpp, which are not among
    the sources; they serve to run the generator on concrete input. *)

Definition sample_code_of (f : TextureFormat) : Z :=
  match f with
  | GX_TF_I4 => 0 | GX_TF_I8 => 1 | GX_TF_IA4 => 2 | GX_TF_IA8 => 3
  | GX_TF_RGB565 => 4 | GX_TF_RGB5A3 => 5 | GX_TF_RGBA8 => 6
  | GX_TF_Z8 => 17 | GX_TF_Z16 => 19 | GX_TF_Z24X8 => 22
  | GX_CTF_R4 => 32 | GX_CTF_RA4 => 34 | GX_CTF_RA8 => 35
  | GX_CTF_A8 => 39 | GX_CTF_R8 => 40 | GX_CTF_G8 => 41 | GX_CTF_B8 => 42
  | GX_CTF_RG8 => 43 | GX_CTF_GB8 => 44
  | GX_CTF_Z4 => 48 | GX_CTF_Z8M => 57 | GX_CTF_Z8L => 58 | GX_CTF_Z16L => 60
  end%Z.

Definition sample_block_width (format : Z) : Z :=
  if existsb (Z.eqb format) [0; 1; 2; 17; 32; 34; 39; 40; 41; 42; 48; 57; 58]%Z
  then 8%Z else 4%Z.

Definition sample_block_height (format : Z) : Z :=
  if existsb (Z.eqb format) [0; 32; 48]%Z then 8%Z else 4%Z.

Definition sample_sample_count (format : Z) : Z :=
  if existsb (Z.eqb format) [0; 32; 48]%Z then 8%Z
  else if existsb (Z.eqb format) [1; 2; 17; 34; 39; 40; 41; 42; 57; 58]%Z then 4%Z
  else if existsb (Z.eqb format) [3; 4; 5; 19; 35; 43; 44; 60]%Z then 2%Z
  else 1%Z.

Definition sample_generate : Z -> W :=
  GenerateEncodingShader sample_code_of sample_block_width sample_block_height
    sample_sample_count Z.log2 640 528.

Definition sample_run : list Z -> State -> option State :=
  run_calls sample_code_of sample_block_width sample_block_height
    sample_sample_count Z.log2 640 528.

(** The text generated for GX_CTF_RA8 in this environment. *)
Example sample_RA8_text :
  option_map returned_text (sample_generate 35 initial_state) =
  Some (c_lit
"uniform int4 position;\n#define samp0 samp9\nSAMPLER_BINDING(9) uniform sampler2D samp0;\n  out vec4 ocol0;\nvoid main()\n{\n  int2 sampleUv;\n  int2 uv1 = int2(gl_FragCoord.xy);\n  int y_block_position = uv1.y & -4;\n  int y_offset_in_block = uv1.y & 3;\n  int x_virtual_position = (uv1.x << 1) + y_offset_in_block * position.z;\n  int x_block_position = (x_virtual_position >> 2) & -4;\n  int x_offset_in_block = x_virtual_position & 3;\n  int y_offset = (x_virtual_position >> 2) & 3;\n  sampleUv.x = x_offset_in_block + x_block_position;\n  sampleUv.y = y_block_position + y_offset;\n  float2 uv0 = float2(sampleUv);\n  uv0 += float2(0.5, 0.5);\n  uv0 *= float(position.w);\n  uv0 += float2(position.xy);\n  uv0 /= float2(640, 528);\n  uv0.y = 1.0-uv0.y;\n  float sample_offset = float(position.w) / float(640);\n  ocol0.bg = texture(samp0, uv0 + float2(0, 0) * sample_offset).ar;\n  ocol0.ra = texture(samp0, uv0 + float2(1, 0) * sample_offset).ar;\n}\n").
Proof. vm_compute. reflexivity. Qed.

(** The switch lists 23 formats: no 24 distinct identifiers are all handled,
    whatever values the enumerators have. *)
Lemma no_24_supported_formats :
  ~ (exists (code : TextureFormat -> Z) (l : list Z),
        NoDup l /\ List.length l = 24 /\
        forall x, In x l -> switch_case code x <> None).
Proof.
  intros (code & l & Hnd & Hlen & Hall).
  assert (Hincl : incl l (map code case_labels)).
  { intros x Hx. specialize (Hall x Hx).
    destruct (switch_case code x) as [f|] eqn:E; [|congruence].
    apply switch_case_listed in E. destruct E as [Hin <-].
    now apply in_map. }
  pose proof (NoDup_incl_length Hnd Hincl) as H.
  rewrite length_map, Hlen in H. cbv [case_labels List.length] in H. lia.
Qed.

Lemma encoding_shader_fits_witness :
  exists st',
    sample_generate (sample_code_of GX_TF_RGB5A3) initial_state = Some st' /\
    alerts st' = alerts initial_state /\
    List.length (text st') = TEXT_SIZE /\
    shader_in_buffer st'.
Proof.
  apply (encoding_shader_fits sample_code_of sample_block_width sample_block_height
           sample_sample_count Z.log2 640 528 GX_TF_RGB5A3 initial_state).
  - apply every_format_is_a_label.
  - apply repeat_length.
Defined.

(** After a call for GX_TF_I8, a call with the unlisted identifier 7 returns
    the pointer to a buffer that still holds the I8 shader: the caller
    receives non-empty text. *)
Lemma unknown_format_returns_previous_shader :
  exists st st',
    sample_run [1%Z] initial_state = Some st /\
    sample_generate 7 st = Some st' /\
    returned_text st' = returned_text st /\
    returned_text st' <> "" /\
    count_lines IntensityConst_line (returned_text st') = 1.
Proof.
  destruct (GenerateEncodingShader_known sample_code_of sample_block_width
              sample_block_height sample_sample_count Z.log2 640 528
              1 GX_TF_I8 initial_state (repeat_length _ _) eq_refl)
    as (s & E & Ls & Ns & Cs).
  assert (Hs : String.length s + 1 < TEXT_SIZE) by (rewrite TEXT_SIZE_val; lia).
  assert (Hlen : List.length (text (after_encoder s initial_state)) = TEXT_SIZE)
    by (apply after_encoder_length; [apply repeat_length | exact Hs]).
  exists (after_encoder s initial_state), (after_unknown 7 (after_encoder s initial_state)).
  unfold sample_run, sample_generate.
  split; [cbn [run_calls]; rewrite E; reflexivity|].
  split; [apply GenerateEncodingShader_unknown; [exact Hlen | reflexivity]|].
  assert (R : returned_text (after_unknown 7 (after_encoder s initial_state)) = s).
  { unfold returned_text. cbn [after_unknown text].
    rewrite (c_str_with_canary _ (String.length s)).
    - now apply c_str_append.
    - exact Hlen.
    - lia.
    - apply after_encoder_terminator. }
  rewrite R, after_encoder_returned by exact Ns.
  split; [reflexivity|]. split; [intros ->; cbn [String.length] in Ls; lia|].
  exact Cs.
Qed.

Lemma unknown_format_witness :
  exists st st',
    sample_run [1; 6]%Z initial_state = Some st /\
    sample_generate 7 st = Some st' /\
    alerts st' = (alerts st ++ [UnknownTextureCopyFormat 7])%list /\
    p st' = 0 /\
    (forall i, i < TEXT_SIZE - 1 -> nth i (text st') NUL = nth i (text st) NUL) /\
    IntensityConstantAdded st' = IntensityConstantAdded st /\
    returned_text st' = returned_text st.
Proof.
  apply (unknown_format_alerts_and_writes_nothing sample_code_of sample_block_width
           sample_block_height sample_sample_count Z.log2 640 528 [1; 6]%Z 7%Z).
  reflexivity.
Defined.

Lemma cursor_ends_on_terminator_witness :
  exists st',
    sample_generate 6 initial_state = Some st' /\
    p st' = String.length (returned_text st') /\
    nth (p st') (text st') NUL = NUL /\
    2 * (p st' + 1) < TEXT_SIZE.
Proof.
  apply (cursor_ends_on_terminator sample_code_of sample_block_width sample_block_height
           sample_sample_count Z.log2 640 528 6%Z GX_TF_RGBA8 initial_state).
  - apply repeat_length.
  - reflexivity.
Defined.

Lemma other_encoders_witness :
  exists st st',
    sample_run [1; 7; 0]%Z initial_state = Some st /\
    sample_generate 6 st = Some st' /\
    count_lines IntensityConst_line (returned_text st') = 0.
Proof.
  apply (other_encoders_do_not_declare_IntensityConst sample_code_of sample_block_width
           sample_block_height sample_sample_count Z.log2 640 528
           [1; 7; 0]%Z 6%Z GX_TF_RGBA8); reflexivity.
Defined.

Lemma generated_text_ignores_history_witness :
  exists st1 st1' st2 st2',
    sample_run [] initial_state = Some st1 /\
    sample_generate 1 st1 = Some st1' /\
    sample_run [6; 7; 1; 0]%Z initial_state = Some st2 /\
    sample_generate 1 st2 = Some st2' /\
    returned_text st1' = returned_text st2'.
Proof.
  apply (generated_text_ignores_history sample_code_of sample_block_width
           sample_block_height sample_sample_count Z.log2 640 528
           [] [6; 7; 1; 0]%Z 1%Z GX_TF_I8); reflexivity.
Defined.

End TextureConversionShaderGL.

(** ** Single-precision arithmetic

    [float] values are IEEE 754 binary32 numbers, computed with the
    operations of the Standard Library's specification of floating-point
    arithmetic at 24 bits of precision (round to nearest, ties to even). *)

Module Float32.

Definition float : Type := spec_float.

Definition prec : Z := 24.
Definition emax : Z := 128.

(** [(float)n] for an integer [n]. *)
Definition of_int (n : Z) : float := binary_normalize prec emax n 0 false.

Definition one : float := of_int 1.

Definition div (a b : float) : float := SFdiv prec emax a b.
Definition mul (a b : float) : float := SFmul prec emax a b.
Definition sub (a b : float) : float := SFsub prec emax a b.

(** [a != b]; true when either side is a NaN. *)
Definition neq (a b : float) : bool := negb (SFeqb a b).

(** [(u32)x]: truncation toward zero.  [None] where the conversion is
    undefined: a NaN, an infinity, or a truncated value outside [u32]. *)
Definition to_u32 (x : float) : option Z :=
  match x with
  | S754_zero _ => Some 0%Z
  | S754_finite s m e =>
      let mag := (if (0 <=? e)%Z then Z.pos m * 2 ^ e else Z.pos m / 2 ^ (- e))%Z in
      if (mag =? 0)%Z then Some 0%Z
      else if s then None
      else if (mag <? 2 ^ 32)%Z then Some mag else None
  | S754_infinity _ | S754_nan => None
  end.

(** The exact value of a finite number, as a fraction [(n, d)] with [d > 0]. *)
Definition to_fraction (x : float) : option (Z * Z) :=
  match x with
  | S754_zero _ => Some (0, 1)%Z
  | S754_finite s m e =>
      let n := (if s then Z.neg m else Z.pos m) in
      Some (if (0 <=? e)%Z then (n * 2 ^ e, 1)%Z else (n, 2 ^ (- e))%Z)
  | S754_infinity _ | S754_nan => None
  end.

(** [x] lies within [tol] of the decimal [num / den]. *)
Definition within (x : float) (num den : Z) (tol_num tol_den : Z) : Prop :=
  match to_fraction x with
  | Some (n, d) =>
      (Z.abs (n * den - num * d) * tol_den < tol_num * (d * den))%Z
  | None => False
  end.

(** [x] is exactly [num / den]. *)
Definition exactly (x : float) (num den : Z) : Prop :=
  match to_fraction x with
  | Some (n, d) => (n * den = num * d)%Z
  | None => False
  end.

(** The binary32 number nearest to 2.2. *)
Definition f2_2 : float := div (of_int 22) (of_int 10).


(** Numbers that compare equal compare alike with any third. *)
Lemma SFeqb_congr (a b c : float) :
  SFeqb a b = true -> SFeqb a c = SFeqb b c.
Proof.
  unfold SFeqb. intros H.
  assert (E : a = b \/ exists s s', a = S754_zero s /\ b = S754_zero s').
  { destruct a as [s|s| |s m e], b as [s'|s'| |s' m' e']; cbn [SFcompare] in H;
      try discriminate H; try (destruct s; discriminate H);
      try (destruct s'; discriminate H).
    - right. now exists s, s'.
    - destruct s, s'; try discriminate H; now left.
    - destruct s, s'; try discriminate H.
      + destruct (Z.compare_spec e e') as [->|?|?]; try discriminate H.
        destruct (Pos.compare_cont Eq m m') eqn:Em; try discriminate H.
        apply Pos.compare_eq in Em. subst. now left.
      + destruct (Z.compare_spec e e') as [->|?|?]; try discriminate H.
        destruct (Pos.compare_cont Eq m m') eqn:Em; try discriminate H.
        apply Pos.compare_eq in Em. subst. now left. }
  destruct E as [->|(s & s' & -> & ->)]; [reflexivity|].
  destruct c; reflexivity.
Qed.

End Float32.

(** ** DX11/PostProcessing.cpp *)

Module DX11.

Import Float32.

(** *** The configuration the engine reads

    [PostProcessingShaderConfiguration] is declared in
    VideoCommon/PostProcessing.h, which is not among the sources; its
    members are modelled as far as this file reads them. *)

Inductive OptionType : Type := OPTION_BOOL | OPTION_INTEGER | OPTION_FLOAT.

Record ConfigurationOption : Type := mkOption {
  m_type : OptionType;
  m_bool_value : bool;
  m_integer_values : list Z;
  m_float_values : list float;
  m_dirty : bool
}.

Record StageOption : Type := mkStage {
  m_stage_entry_point : string;
  m_inputs : list Z;
  m_use_source_resolution : bool;
  m_outputScale : float
}.

(** [GetOptions()] is kept as the list of its entries in iteration order. *)
Record PostProcessingShaderConfiguration : Type := mkConfig {
  GetShader : string;
  GetStages : list StageOption;
  GetOptions : list (string * ConfigurationOption);
  IsDirty : bool
}.

(** Modelled from the spec: [HasOptions] is declared in PostProcessing.h,
    not among the sources; the spec calls it the "has options" predicate of
    the option map. *)
Definition HasOptions (cfg : PostProcessingShaderConfiguration) : bool :=
  negb (Nat.eqb (List.length (GetOptions cfg)) 0).

(** *** Constant-buffer packing *)

(** One 4-byte element of a constant buffer. *)
Inductive Word : Type :=
| W_int (v : Z)
| W_float (v : float).

(** [needed_size], as both loops compute it. *)
Definition needed_size (o : ConfigurationOption) : Z :=
  match m_type o with
  | OPTION_BOOL => 4
  | OPTION_INTEGER => wrap_u32 (Z.of_nat (List.length (m_integer_values o)) * 4)
  | OPTION_FLOAT => wrap_u32 (Z.of_nat (List.length (m_float_values o)) * 4)
  end%Z.

(** [((buffer_size + 15) & (~15)) - buffer_size] in [u32]. *)
Definition remaining (buffer_size : Z) : Z :=
  wrap_u32 (Z.land (wrap_u32 (buffer_size + 15)) (wrap_u32 (Z.lnot 15)) - buffer_size).

(** The padding step: [buffer_size] once the entry's padding is added. *)
Definition pad (buffer_size needed : Z) : Z :=
  if (remaining buffer_size <? needed)%Z
  then wrap_u32 (buffer_size + remaining buffer_size)
  else buffer_size.

(** The words an option's value occupies. *)
Definition option_words (o : ConfigurationOption) : list Word :=
  match m_type o with
  | OPTION_BOOL => [W_int (if m_bool_value o then 1 else 0)%Z]
  | OPTION_INTEGER => map W_int (m_integer_values o)
  | OPTION_FLOAT => map W_float (m_float_values o)
  end.

(** What one pass of the declaring loop of [LoadShaderOptions] fixes for an
    entry: the offset its field starts at, after padding. *)
Record Placement : Type := mkPlacement {
  before_padding : Z;
  placed_at : Z;
  size : Z
}.

(** The loop of [LoadShaderOptions] over the options: for each entry the
    running [buffer_size] before and after padding, and the final
    [buffer_size]. *)
Fixpoint layout_walk (buffer_size : Z) (opts : list (string * ConfigurationOption))
  : list Placement * Z :=
  match opts with
  | [] => ([], buffer_size)
  | (_, o) :: rest =>
      let n := needed_size o in
      let b := pad buffer_size n in
      let (ps, final) := layout_walk (wrap_u32 (b + n)) rest in
      (mkPlacement buffer_size b n :: ps, final)
  end.

(** One store of the upload loop of [BlitFromTexture]: the byte offset of
    [dstdata] from the start of the mapped buffer, and the words copied. *)
Record Store : Type := mkStore {
  store_offset : Z;
  store_words : list Word
}.

(** The upload loop of [BlitFromTexture]: each value is copied to [dstdata]
    first; then [buffer_size] and [dstdata] move past the padding and the
    value.  [dstdata] is kept as its offset from the start of the buffer. *)
Fixpoint upload_walk (buffer_size dstdata : Z) (opts : list (string * ConfigurationOption))
  : list Store * list Z * Z :=
  match opts with
  | [] => ([], [], buffer_size)
  | (_, o) :: rest =>
      let n := needed_size o in
      let st := mkStore dstdata (option_words o) in
      let rem := remaining buffer_size in
      let b := if (rem <? n)%Z then wrap_u32 (buffer_size + rem) else buffer_size in
      let d := if (rem <? n)%Z then (dstdata + rem)%Z else dstdata in
      let '(sts, sizes, final) := upload_walk (wrap_u32 (b + n)) (d + n)%Z rest in
      (st :: sts, wrap_u32 (b + n) :: sizes, final)
  end.

(** The running [buffer_size] after each entry of the declaring loop. *)
Definition layout_sizes (opts : list (string * ConfigurationOption)) : list Z :=
  map (fun pl => wrap_u32 (placed_at pl + size pl)) (fst (layout_walk 0 opts)).

(** An entry lies within one 16-byte row. *)
Definition within_row (offset sz : Z) : Prop :=
  (offset mod 16 + sz <= 16)%Z.


(** The options of the specification's example: [bool a], a float vector of
    three [b], and [int a2]. *)
Definition opt_bool (v : bool) : ConfigurationOption := mkOption OPTION_BOOL v [] [] false.
Definition opt_int (vs : list Z) : ConfigurationOption := mkOption OPTION_INTEGER false vs [] false.
Definition opt_float (vs : list float) : ConfigurationOption :=
  mkOption OPTION_FLOAT false [] vs false.

Definition example_a : string * ConfigurationOption := ("a", opt_bool true).
Definition example_b : string * ConfigurationOption := ("b", opt_float [one; one; one]).
Definition example_a2 : string * ConfigurationOption := ("a2", opt_int [7%Z]).

(** *** The shader text the engine adds *)

Definition s_hlsl_header : string :=
"
// Required variables
// Shouldn't be accessed directly by the PP shader
// Texture sampler
sampler samp8 : register(s8);
sampler samp9 : register(s9);
sampler samp10 : register(s10);
Texture2D Tex8 : register(t8);
Texture2DArray Tex9 : register(t9);
Texture2DArray Tex10 : register(t10);
Texture2DArray Tex11[4] : register(t11);

cbuffer ParamBuffer : register(b0) 
{
	uint Time;
	int layer;
	float native_gamma;
	float padding;
	float4 resolution;
	float4 targetscale;
}

// Globals
static float2 uv0;
static float4 uv1, uv2, fragment_pos;
// Interfacing functions
float2 GetFragmentCoord()
{
	return fragment_pos.xy;
}
float4 Sample(float2 location, int l)
{
	return Tex9.Sample(samp9, float3(location, l));
}
float4 SampleLocationOffset(float2 location, int2 offset)
{
	return Tex9.Sample(samp9, float3(location, layer), offset);
}
float4 SamplePrev(int idx, float2 location)
{
	return Tex11[idx].Sample(samp9, float3((location - targetscale.xy) * targetscale.zw, 0));
}
float4 SamplePrevLocationOffset(int idx, float2 location, int2 offset)
{
	return Tex11[idx].Sample(samp9, float3((location - targetscale.xy) * targetscale.zw , 0), offset);
}
float SampleDepth(float2 location, int l)
{
	/*float Znear = 0.001;
	float Zfar = 1.0;
	float A  = (1 - ( Zfar / Znear ))/2;
	float B = (1 + ( Zfar / Znear ))/2;*/
	float A = -499.5;
	float B =  500.5;
	float depth = 1.0 - Tex10.Sample(samp10, float3(location, l)).x;
	depth = 1.0 / (A * depth + B);
	return depth;
}
float SampleDepthLoacationOffset(float2 location, int2 offset)
{
	float A = -499.5;
	float B =  500.5;
	float depth = 1.0 - Tex10.Sample(samp10, float3(location, layer), offset).x;
	depth = 1.0 / (A * depth + B);
	return depth;
}
".

Definition s_hlsl_header_MSAA : string :=
"
// Required variables
// Shouldn't be accessed directly by the PP shader
// Texture sampler
sampler samp8 : register(s8);
sampler samp9 : register(s9);
sampler samp10 : register(s10);
Texture2D Tex8 : register(t8);
Texture2DArray Tex9 : register(t9);
Texture2DMSArray<float4, %d> Tex10 : register(t10);
Texture2DArray Tex11[4] : register(t11);

cbuffer ParamBuffer : register(b0) 
{
	uint Time;
	int layer;
	float native_gamma;
	float padding;
	float4 resolution;
	float4 targetscale;
}

// Globals
static float2 uv0;
static float4 uv1, uv2, fragment_pos;
// Interfacing functions
float2 GetFragmentCoord()
{
	return fragment_pos.xy;
}
float4 Sample(float2 location, int l)
{
	return Tex9.Sample(samp9, float3(location, l));
}
float4 SampleLocationOffset(float2 location, int2 offset)
{
	return Tex9.Sample(samp9, float3(location, layer), offset);
}
float4 SamplePrev(int idx, float2 location)
{
	return Tex11[idx].Sample(samp9, float3((location - targetscale.xy) * targetscale.zw, 0));
}
float4 SamplePrevLocationOffset(int idx, float2 location, int2 offset)
{
	return Tex11[idx].Sample(samp9, float3((location - targetscale.xy) * targetscale.zw , 0), offset);
}
float SampleDepth(float2 location, int l)
{
	/*float Znear = 0.001;
	float Zfar = 1.0;
	float A  = (1 - ( Zfar / Znear ))/2;
	float B = (1 + ( Zfar / Znear ))/2;*/
	float A = -499.5;
	float B =  500.5;
	float depth = 1.0 - Tex10.Load(int3(int2(resolution.xy * location), l), 0).x;
	depth = 1.0 / (A * depth + B);
	return depth;
}
float SampleDepthLoacationOffset(float2 location, int2 offset)
{
	float A = -499.5;
	float B =  500.5;
	const int samples = %d;
	float depth = 1.0 - Tex10.Load(int3(int2(resolution.xy * location), layer), 0, offset).x;
	depth = 1.0 / (A * depth + B);
	return depth;
}
".

Definition s_hlsl_interface : string :=
"
float4 Sample() { return Sample(uv0, layer); }
float4 SampleOffset(int2 offset) { return SampleLocationOffset(uv0, offset); }
float4 SamplePrev() { return SamplePrev(0, uv0); }
float4 SamplePrev(int idx) { return SamplePrev(idx, uv0); }
float4 SamplePrevOffset(int2 offset) { return SamplePrevLocationOffset(0, uv0, offset); }
float4 SamplePrevOffset(int idx, int2 offset) { return SamplePrevLocationOffset(idx, uv0, offset); }
float SampleDepth() { return SampleDepth(uv0, layer); }
float SampleDepthOffset(int2 offset) { return SampleDepthLoacationOffset(uv0, offset); }
float4 SampleLocation(float2 location) { return Sample(location, layer); }
float SampleDepthLocation(float2 location) { return SampleDepth(location, layer); }
float4 SamplePrevLocation(float2 location) { return SamplePrev(0, location); }
float4 SamplePrevLocation(int idx, float2 location) { return SamplePrev(idx, location); }
float4 SampleLayer(int l) { return Sample(uv0, l); }
float SampleDepthLayer(int l) { return SampleDepth(uv0, l); }
float4 SampleFontLocation(float2 location) { return Tex8.Sample(samp8, location); }

float4 ApplyGCGamma(float4 col)
{
	return pow(col, native_gamma);
}
float2 GetResolution()
{
	return resolution.xy;
}
float2 GetInvResolution()
{
	return resolution.zw;
}
float2 GetCoordinates()
{
	return uv0;
}
uint GetTime()
{
	return Time;
}

#define SetOutput(color) ocol0 = color
#define mult(a, b) mul(b, a)
#define GetOption(x) (option_##x)
#define OptionEnabled(x) (option_##x != 0)

//Random
static float global_rnd_state;

float RandomSeedfloat(float2 seed)
{
	float noise = frac(sin(dot(seed, float2(12.9898, 78.233)*2.0)) * 43758.5453);
	return noise;
}

void rnd_advance()
{
    global_rnd_state = RandomSeedfloat(uv0 + global_rnd_state);
}

uint RandomSeeduint(float2 seed)
{
	float noise = RandomSeedfloat(seed);
	return uint(noise * 0xFFFFFF);
}

void Randomize()
{
	global_rnd_state = frac(float(GetTime())*0.0001);
}

uint Rndint()
{
	rnd_advance();
	return uint(global_rnd_state * 0xFFFFFF);
}

float Rndfloat()
{
	rnd_advance();
	return global_rnd_state;
}

float2 Rndfloat2()
{
	float2 val;
	rnd_advance();
	val.x = global_rnd_state;
	rnd_advance();
	val.y = global_rnd_state;
	return val;
}

float3 Rndfloat3()
{
	float3 val;
	rnd_advance();
	val.x = global_rnd_state;
	rnd_advance();
	val.y = global_rnd_state;
	rnd_advance();
	val.z = global_rnd_state;
	return val;
}

float4 Rndfloat4()
{
	float4 val;
	rnd_advance();
	val.x = global_rnd_state;
	rnd_advance();
	val.y = global_rnd_state;
	rnd_advance();
	val.z = global_rnd_state;
	rnd_advance();
	val.w = global_rnd_state;
	return val;
}

".

(** [s_hlsl_header_MSAA] up to its first conversion, between its two
    conversions, and after the second. *)
Definition msaa_part0 : string :=
"
// Required variables
// Shouldn't be accessed directly by the PP shader
// Texture sampler
sampler samp8 : register(s8);
sampler samp9 : register(s9);
sampler samp10 : register(s10);
Texture2D Tex8 : register(t8);
Texture2DArray Tex9 : register(t9);
Texture2DMSArray<float4, ".

Definition msaa_part1 : string :=
"> Tex10 : register(t10);
Texture2DArray Tex11[4] : register(t11);

cbuffer ParamBuffer : register(b0) 
{
	uint Time;
	int layer;
	float native_gamma;
	float padding;
	float4 resolution;
	float4 targetscale;
}

// Globals
static float2 uv0;
static float4 uv1, uv2, fragment_pos;
// Interfacing functions
float2 GetFragmentCoord()
{
	return fragment_pos.xy;
}
float4 Sample(float2 location, int l)
{
	return Tex9.Sample(samp9, float3(location, l));
}
float4 SampleLocationOffset(float2 location, int2 offset)
{
	return Tex9.Sample(samp9, float3(location, layer), offset);
}
float4 SamplePrev(int idx, float2 location)
{
	return Tex11[idx].Sample(samp9, float3((location - targetscale.xy) * targetscale.zw, 0));
}
float4 SamplePrevLocationOffset(int idx, float2 location, int2 offset)
{
	return Tex11[idx].Sample(samp9, float3((location - targetscale.xy) * targetscale.zw , 0), offset);
}
float SampleDepth(float2 location, int l)
{
	/*float Znear = 0.001;
	float Zfar = 1.0;
	float A  = (1 - ( Zfar / Znear ))/2;
	float B = (1 + ( Zfar / Znear ))/2;*/
	float A = -499.5;
	float B =  500.5;
	float depth = 1.0 - Tex10.Load(int3(int2(resolution.xy * location), l), 0).x;
	depth = 1.0 / (A * depth + B);
	return depth;
}
float SampleDepthLoacationOffset(float2 location, int2 offset)
{
	float A = -499.5;
	float B =  500.5;
	const int samples = ".

Definition msaa_part2 : string :=
";
	float depth = 1.0 - Tex10.Load(int3(int2(resolution.xy * location), layer), 0, offset).x;
	depth = 1.0 / (A * depth + B);
	return depth;
}
".

Definition s_hlsl_entry : string := c_lit
  "(\nout float4 ocol0 : SV_Target,\nin float4 frag_pos : SV_Position,\nin float2 _uv0 : TEXCOORD0,\nin float4 _uv1 : TEXCOORD1,\nin float4 _uv2 : TEXCOORD2)\n{\nfragment_pos = frag_pos;\nuv0 = _uv0;\nuv1 = _uv1;\nuv2 = _uv2;\n".

(** *** The engine and what it drives *)

(** A compiled pixel shader: the text and entry point it was compiled from. *)
Record Program : Type := mkProgram {
  program_code : string;
  program_entry : string
}.

(** A texture created by [D3DTexture2D::Create]. *)
Record Texture : Type := mkTexture {
  tex_id : nat;
  tex_width : Z;
  tex_height : Z
}.

Record STVertex : Type := mkVertex { vx : float; vy : float; vz : float; vu0 : float; vv0 : float }.

(** [paramsStruct]; its [padding] member is never assigned. *)
Record paramsStruct : Type := mkParams {
  Time : Z;
  Layer : Z;
  native_gamma : float;
  resolution : list float;
  targetscale : list float
}.

(** [TargetRectangle]: [MathUtil::Rectangle<int>] of Common/MathUtil.h, whose
    width and height are the absolute differences of its edges. *)
Record TargetRectangle : Type := mkRect { left : Z; top : Z; right : Z; bottom : Z }.

Definition GetWidth (r : TargetRectangle) : Z := Z.abs (right r - left r).
Definition GetHeight (r : TargetRectangle) : Z := Z.abs (bottom r - top r).

Record Viewport : Type := mkViewport {
  TopLeftX : float; TopLeftY : float; Width : float; Height : float
}.

(** Where a stage draws: the render target bound when the call began, or
    the image of an earlier stage. *)
Inductive RenderTarget : Type :=
| Destination
| Intermediate (t : Texture).

(** What the device is asked to do, in order. *)
Inductive Event : Type :=
| TextureCreated (t : Texture)
| TextureReleased (t : Texture)
| VerticesAppended (coords : list STVertex)
| Drawn (stage : nat) (target : RenderTarget) (vp : Viewport)
        (shader : option Program) (inputs : list Texture) (vertex_offset : Z)
| CompileFailed (shader : string).

(** The options constant buffer: its size and the stores of the last map. *)
Record OptionBuffer : Type := mkOptionBuffer {
  buffer_bytes : Z;
  buffer_stores : list Store
}.

Record ShaderState : Type := mkShaderState {
  m_initialized : bool;
  m_config : PostProcessingShaderConfiguration;
  m_pshader : list (option Program);
  m_prev_samples : Z;
  m_options : option OptionBuffer
}.

Record ImageState : Type := mkImageState {
  m_stageOutput : list Texture;
  m_prev_dst_width : Z;
  m_prev_dst_height : Z;
  m_prev_src_width : Z;
  m_prev_src_height : Z
}.

Record VertexState : Type := mkVertexState {
  m_vertex_buffer_offset : Z;
  m_vertex_buffer_observer : bool;
  pu0 : float; pu1 : float; pv0 : float; pv1 : float
}.

(** [g_Config] and [g_ActiveConfig], as far as the engine touches them;
    [active_samples] is [D3D::GetAAMode(g_ActiveConfig.iMultisampleMode).Count]. *)
Record Globals : Type := mkGlobals {
  g_Config_sPostProcessingShader : string;
  g_ActiveConfig_sPostProcessingShader : string;
  active_samples : Z
}.

Record Device : Type := mkDevice {
  next_texture : nat;
  events : list Event
}.

(** The members of [DX11PostProcessing], the globals and the device. *)
Record Engine : Type := mkEngine {
  shaders : ShaderState;
  images : ImageState;
  vertices : VertexState;
  m_params : option paramsStruct;
  globals : Globals;
  device : Device
}.

Definition with_shaders (s : ShaderState) (e : Engine) : Engine :=
  mkEngine s (images e) (vertices e) (m_params e) (globals e) (device e).
Definition with_images (i : ImageState) (e : Engine) : Engine :=
  mkEngine (shaders e) i (vertices e) (m_params e) (globals e) (device e).
Definition with_vertices (v : VertexState) (e : Engine) : Engine :=
  mkEngine (shaders e) (images e) v (m_params e) (globals e) (device e).
Definition with_params (ps : paramsStruct) (e : Engine) : Engine :=
  mkEngine (shaders e) (images e) (vertices e) (Some ps) (globals e) (device e).
Definition with_globals (g : Globals) (e : Engine) : Engine :=
  mkEngine (shaders e) (images e) (vertices e) (m_params e) g (device e).
Definition with_device (d : Device) (e : Engine) : Engine :=
  mkEngine (shaders e) (images e) (vertices e) (m_params e) (globals e) d.

Definition log (ev : list Event) (e : Engine) : Engine :=
  with_device (mkDevice (next_texture (device e)) (events (device e) ++ ev)) e.

(** [std::vector::resize]. *)
Definition resize {A : Type} (n : nat) (d : A) (l : list A) : list A :=
  firstn n l ++ repeat d (n - List.length l).

(** [v[i] = x] for [i] inside the vector. *)
Fixpoint set_nth {A : Type} (i : nat) (x : A) (l : list A) : list A :=
  match l, i with
  | [], _ => []
  | _ :: t, O => x :: t
  | h :: t, S j => h :: set_nth j x t
  end.

(** The largest size a vector of pointers takes; [resize] beyond it throws
    [std::length_error]. *)
Definition vector_max_size : Z := (2 ^ 63 - 1) / 8.

(** Counting the events of one kind. *)
Definition is_VerticesAppended (ev : Event) : bool :=
  match ev with VerticesAppended _ => true | _ => false end.
Definition is_TextureCreated (ev : Event) : bool :=
  match ev with TextureCreated _ => true | _ => false end.
Definition is_TextureReleased (ev : Event) : bool :=
  match ev with TextureReleased _ => true | _ => false end.
Definition is_Drawn (ev : Event) : bool :=
  match ev with Drawn _ _ _ _ _ _ => true | _ => false end.

Definition count_events (f : Event -> bool) (evs : list Event) : nat :=
  List.length (filter f evs).

Section Engine.

Set Default Proof Using "Type".

(** Outside this file: whether the device compiles a text for an entry
    point, [m_config.LoadShader()] (given the active preset), the offset
    [m_vertexbuffer.AppendData] returns after the blocks appended so far,
    and the value a conversion reads where no argument was passed. *)
Variable compiles : string -> string -> bool.
Variable LoadShader :
  string -> PostProcessingShaderConfiguration -> string * PostProcessingShaderConfiguration.
Variable AppendData : list Event -> list STVertex -> Z.
Variable stray_vararg : Z.

Definition StringFromFormat (fmt : string) (args : list Arg) : string :=
  vformat stray_vararg fmt args.

(** [D3D::CompileAndCreatePixelShader(code, nullptr, entry)]; a null result
    is [None]. *)
Definition CompileAndCreatePixelShader (code entry : string) : option Program :=
  if compiles code entry then Some (mkProgram code entry) else None.

(** The entry point [CompileAndCreatePixelShader] uses when none is given. *)
Definition default_entry : string := "main".

(** The declaration [LoadShaderOptions] writes for one option. *)
Definition option_declaration (name : string) (o : ConfigurationOption) : string :=
  match m_type o with
  | OPTION_BOOL => StringFromFormat (c_lit "int     option_%s;\n") [A_str name]
  | OPTION_INTEGER =>
      let count := wrap_u32 (Z.of_nat (List.length (m_integer_values o))) in
      if (count <? 2)%Z
      then StringFromFormat (c_lit "int     option_%s;\n") [A_str name]
      else StringFromFormat (c_lit "int%d   option_%s;\n") [A_int count; A_str name]
  | OPTION_FLOAT =>
      let count := wrap_u32 (Z.of_nat (List.length (m_float_values o))) in
      if (count <? 2)%Z
      then StringFromFormat (c_lit "float   option_%s;\n") [A_str name]
      else StringFromFormat (c_lit "float%d option_%s;\n") [A_int count; A_str name]
  end.

Fixpoint option_declarations (opts : list (string * ConfigurationOption)) : string :=
  match opts with
  | [] => ""
  | (name, o) :: rest => option_declaration name o ++ option_declarations rest
  end.

(** The header [LoadShaderOptions] picks for a sample count. *)
Definition shader_header (s : Z) : string :=
  if (wrap_int s =? 1)%Z then s_hlsl_header
  else StringFromFormat s_hlsl_header_MSAA [A_int s].

(** The text and the buffer [LoadShaderOptions] derives from the options. *)
Definition options_text (cfg : PostProcessingShaderConfiguration) : string :=
  if HasOptions cfg then
    if (snd (layout_walk 0 (GetOptions cfg)) >? 0)%Z then
      "cbuffer OptionBuffer : register(b1) {" ++ option_declarations (GetOptions cfg)
        ++ c_lit "}\n"
    else ""
  else "".

Definition options_buffer (cfg : PostProcessingShaderConfiguration) : option OptionBuffer :=
  if HasOptions cfg then
    let buffer_size := snd (layout_walk 0 (GetOptions cfg)) in
    if (buffer_size >? 0)%Z then
      Some (mkOptionBuffer
              (Z.land (wrap_u32 (buffer_size + 15)) (wrap_u32 (Z.lnot 15))) [])
    else None
  else None.

Definition LoadShaderOptions (code : string) (e : Engine) : string * Engine :=
  let sh := shaders e in
  let cfg := m_config sh in
  (shader_header (m_prev_samples sh) ++ s_hlsl_interface ++ options_text cfg ++ code,
   with_shaders (mkShaderState (m_initialized sh) cfg (m_pshader sh)
                   (m_prev_samples sh) (options_buffer cfg)) e).

(** The loop of [InitStages]: the entry point of each stage is given the
    fixed parameter list and prologue; a stage whose entry point or opening
    brace is not found empties the text and ends the loop. *)
Fixpoint InitStages_loop (stages : list StageOption) (result : string) : string :=
  match stages with
  | [] => result
  | stage :: rest =>
      let glslentry := "void " ++ m_stage_entry_point stage in
      match index 0 glslentry result with
      | None => ""
      | Some entryPointStart =>
          match index entryPointStart "{" result with
          | None => ""
          | Some entryPointEnd =>
              InitStages_loop rest
                (substring 0 (entryPointStart + String.length glslentry) result
                   ++ s_hlsl_entry
                   ++ substring (entryPointEnd + 1)
                        (String.length result - (entryPointEnd + 1)) result)
          end
      end
  end.

Definition InitStages (code : string) (e : Engine) : string * Engine :=
  let sh := shaders e in
  let stages := GetStages (m_config sh) in
  (InitStages_loop stages code,
   with_shaders (mkShaderState (m_initialized sh) (m_config sh)
                   (resize (List.length stages) None (m_pshader sh))
                   (m_prev_samples sh) (m_options sh)) e).

(** The compile loop of [ApplyShader], from stage [i] on: the programs, and
    whether every stage compiled. *)
Fixpoint compile_stages (code : string) (i : nat) (stages : list StageOption)
    (pshader : list (option Program)) : list (option Program) * bool :=
  match stages with
  | [] => (pshader, true)
  | stage :: rest =>
      let r := CompileAndCreatePixelShader code (m_stage_entry_point stage) in
      let pshader' := set_nth i r pshader in
      match r with
      | None => (pshader', false)
      | Some _ => compile_stages code (S i) rest pshader'
      end
  end.

Definition release_stage_outputs (e : Engine) : Engine :=
  let im := images e in
  log (map TextureReleased (m_stageOutput im))
    (with_images (mkImageState [] (m_prev_dst_width im) (m_prev_dst_height im)
                    (m_prev_src_width im) (m_prev_src_height im)) e).

Definition reset_programs (e : Engine) : Engine :=
  let sh := shaders e in
  with_shaders (mkShaderState (m_initialized sh) (m_config sh)
                  (map (fun _ => None) (m_pshader sh))
                  (m_prev_samples sh) (m_options sh)) e.

Definition set_config (cfg : PostProcessingShaderConfiguration) (e : Engine) : Engine :=
  let sh := shaders e in
  with_shaders (mkShaderState (m_initialized sh) cfg (m_pshader sh)
                  (m_prev_samples sh) (m_options sh)) e.

Definition set_programs (ps : list (option Program)) (init : bool) (e : Engine) : Engine :=
  let sh := shaders e in
  with_shaders (mkShaderState init (m_config sh) ps (m_prev_samples sh) (m_options sh)) e.

(** The fallback of [ApplyShader], taken when a stage failed to compile.
    [None]: [m_pshader[0]] is assigned in an empty vector. *)
Definition ApplyShader_fallback (e : Engine) : option Engine :=
  let g := globals e in
  let e := with_globals (mkGlobals "" "" (active_samples g)) e in
  let e := reset_programs e in
  let e := set_programs (resize 1 None (m_pshader (shaders e)))
                        (m_initialized (shaders e)) e in
  let '(raw, cfg) :=
    LoadShader (g_ActiveConfig_sPostProcessingShader (globals e)) (m_config (shaders e)) in
  let e := set_config cfg e in
  let '(code, e) := InitStages raw e in
  let '(code, e) := LoadShaderOptions code e in
  match m_pshader (shaders e) with
  | [] => None
  | _ :: rest =>
      Some (set_programs (CompileAndCreatePixelShader code default_entry :: rest) true e)
  end.

(** The test [ApplyShader] starts with: nothing changed since the programs
    were compiled. *)
Definition shader_current (e : Engine) : bool :=
  let sh := shaders e in
  let g := globals e in
  (m_initialized sh
   && String.eqb (GetShader (m_config sh)) (g_ActiveConfig_sPostProcessingShader g)
   && (m_prev_samples sh =? active_samples g)%Z)%bool.

(** [ApplyShader] up to the end of its compile loop: the programs, whether
    every stage compiled, and the engine at that point. *)
Definition recompile (e : Engine) : list (option Program) * bool * Engine :=
  let sh := shaders e in
  let g := globals e in
  let e := with_shaders (mkShaderState (m_initialized sh) (m_config sh) (m_pshader sh)
                           (active_samples g) (m_options sh)) e in
  let e := release_stage_outputs e in
  let e := reset_programs e in
  let '(raw, cfg) :=
    LoadShader (g_ActiveConfig_sPostProcessingShader g) (m_config (shaders e)) in
  let e := set_config cfg e in
  let '(code, e) := InitStages raw e in
  let '(code, e) := LoadShaderOptions code e in
  (compile_stages code 0 (GetStages (m_config (shaders e))) (m_pshader (shaders e)), e).

Definition ApplyShader (e : Engine) : option Engine :=
  if shader_current e then Some e
  else
    let '(ps, ok, e) := recompile e in
    if ok then Some (set_programs ps true e)
    else
      ApplyShader_fallback
        (log [CompileFailed (GetShader (m_config (shaders e)))] (set_programs ps false e)).

(** The text handed to the compiler: header, interface, option block and
    the stage source as [InitStages] patched it. *)
Definition assembled (samples : Z) (cfg : PostProcessingShaderConfiguration) (raw : string)
  : string :=
  shader_header samples ++ s_hlsl_interface ++ options_text cfg
    ++ InitStages_loop (GetStages cfg) raw.

(** Number of slots of [m_pshader] that hold a program. *)
Definition working_programs (ps : list (option Program)) : nat :=
  List.length (filter (fun x => match x with Some _ => true | None => false end) ps).

(** **** BlitFromTexture *)

(** [sw] and [sh], then [u0], [u1], [v0], [v1]. *)
Definition inv_width (src_width : Z) : float := div one (of_int src_width).
Definition inv_height (src_height : Z) : float := div one (of_int src_height).

Record UV : Type := mkUV { uv_u0 : float; uv_u1 : float; uv_v0 : float; uv_v1 : float }.

Definition source_uv (src : TargetRectangle) (src_width src_height : Z) : UV :=
  let sw := inv_width src_width in
  let sh := inv_height src_height in
  mkUV (mul (of_int (left src)) sw) (mul (of_int (right src)) sw)
       (mul (of_int (top src)) sh) (mul (of_int (bottom src)) sh).

(** The block [params] as the call fills it; [time] is
    [m_timer.GetTimeElapsed()]. *)
Definition frame_params (src : TargetRectangle) (src_width src_height layer : Z)
    (gamma : float) (time : Z) : paramsStruct :=
  let uv := source_uv src src_width src_height in
  mkParams (wrap_u32 time) layer (div one gamma)
    [of_int src_width; of_int src_height; inv_width src_width; inv_height src_height]
    [uv_u0 uv; uv_v0 uv; div one (sub (uv_u1 uv) (uv_u0 uv));
     div one (sub (uv_v1 uv) (uv_v0 uv))].

Definition quad (uv : UV) : list STVertex :=
  [ mkVertex (of_int (-1)) (of_int 1) (of_int 0) (uv_u0 uv) (uv_v0 uv);
    mkVertex (of_int 1) (of_int 1) (of_int 0) (uv_u1 uv) (uv_v0 uv);
    mkVertex (of_int (-1)) (of_int (-1)) (of_int 0) (uv_u0 uv) (uv_v1 uv);
    mkVertex (of_int 1) (of_int (-1)) (of_int 0) (uv_u1 uv) (uv_v1 uv) ].

Definition clear_dirty (o : string * ConfigurationOption) : string * ConfigurationOption :=
  (fst o, mkOption (m_type (snd o)) (m_bool_value (snd o)) (m_integer_values (snd o))
            (m_float_values (snd o)) false).

(** The upload of the options.  [None]: the loop stores through the result
    of mapping a buffer that was never created. *)
Definition upload_options (e : Engine) : option Engine :=
  let sh := shaders e in
  let cfg := m_config sh in
  if (IsDirty cfg && HasOptions cfg)%bool then
    match m_options sh with
    | None => None
    | Some buf =>
        let stores := fst (fst (upload_walk 0 0 (GetOptions cfg))) in
        Some (with_shaders
                (mkShaderState (m_initialized sh)
                   (mkConfig (GetShader cfg) (GetStages cfg)
                      (map clear_dirty (GetOptions cfg)) false)
                   (m_pshader sh) (m_prev_samples sh)
                   (Some (mkOptionBuffer (buffer_bytes buf) stores))) e)
    end
  else Some e.

Definition upload_params (ps : paramsStruct) (e : Engine) : Engine := with_params ps e.

(** Whether the quad is appended again. *)
Definition geometry_changed (v : VertexState) (uv : UV) : bool :=
  (m_vertex_buffer_observer v
   || neq (pu0 v) (uv_u0 uv) || neq (pu1 v) (uv_u1 uv)
   || neq (pv0 v) (uv_v0 uv) || neq (pv1 v) (uv_v1 uv))%bool.

(** Whether the coordinates differ from the recorded ones. *)
Definition uv_differs (v : VertexState) (uv : UV) : bool :=
  (neq (pu0 v) (uv_u0 uv) || neq (pu1 v) (uv_u1 uv)
   || neq (pv0 v) (uv_v0 uv) || neq (pv1 v) (uv_v1 uv))%bool.

(** None of the four coordinates is a NaN. *)
Definition uv_is_number (uv : UV) : bool :=
  (SFeqb (uv_u0 uv) (uv_u0 uv) && SFeqb (uv_u1 uv) (uv_u1 uv)
   && SFeqb (uv_v0 uv) (uv_v0 uv) && SFeqb (uv_v1 uv) (uv_v1 uv))%bool.

Definition update_geometry (uv : UV) (e : Engine) : Engine :=
  if geometry_changed (vertices e) uv then
    let offset := AppendData (events (device e)) (quad uv) in
    log [VerticesAppended (quad uv)]
      (with_vertices (mkVertexState offset false (uv_u0 uv) (uv_u1 uv) (uv_v0 uv) (uv_v1 uv)) e)
  else e.

(** [size_t finalstage = stages.size() - 1]. *)
Definition finalstage_of (stages : list StageOption) : Z :=
  wrap_size_t (Z.of_nat (List.length stages) - 1).

(** Width and height of the image of a stage, from the cached dimensions:
    [(u32)(stage_width * m_outputScale)]. *)
Definition stage_extent (stage : StageOption) (src_extent dst_extent : Z) : option Z :=
  let base := wrap_u32 (if m_use_source_resolution stage then src_extent else dst_extent) in
  to_u32 (mul (of_int base) (m_outputScale stage)).

(** The loop that creates the images, one per stage before the last. *)
Fixpoint create_stage_outputs (stages : list StageOption) (im : ImageState) (next : nat)
  : option (list Texture) :=
  match stages with
  | [] => Some []
  | stage :: rest =>
      match stage_extent stage (m_prev_src_width im) (m_prev_dst_width im),
            stage_extent stage (m_prev_src_height im) (m_prev_dst_height im),
            create_stage_outputs rest im (S next) with
      | Some w, Some h, Some ts => Some (mkTexture next w h :: ts)
      | _, _, _ => None
      end
  end.

(** Whether the images are created anew. *)
Definition outputs_stale (im : ImageState) (src dst : TargetRectangle) (finalstage : Z) : bool :=
  (negb (m_prev_dst_width im =? GetWidth dst)%Z
   || negb (m_prev_dst_height im =? GetHeight dst)%Z
   || negb (m_prev_src_width im =? GetWidth src)%Z
   || negb (m_prev_src_height im =? GetHeight src)%Z
   || negb (Z.of_nat (List.length (m_stageOutput im)) =? finalstage)%Z)%bool.

(** The images of the stages before the last.  [None]: the vector is
    resized past its largest size, or a dimension has no [u32] value. *)
Definition prepare_stage_outputs (src dst : TargetRectangle) (e : Engine) : option Engine :=
  let stages := GetStages (m_config (shaders e)) in
  let finalstage := finalstage_of stages in
  let im := images e in
  if (finalstage >? 0)%Z then
    if outputs_stale im src dst finalstage then
      let im' := mkImageState (m_stageOutput im) (GetWidth dst) (GetHeight dst)
                   (GetWidth src) (GetHeight src) in
      let e := log (map TextureReleased (m_stageOutput im)) e in
      if (finalstage >? vector_max_size)%Z then None
      else
        match create_stage_outputs (firstn (Z.to_nat finalstage) stages) im'
                (next_texture (device e)) with
        | None => None
        | Some ts =>
            Some (with_device
                    (mkDevice (next_texture (device e) + List.length ts)
                       (events (device e) ++ map TextureCreated ts))
                    (with_images
                       (mkImageState ts (GetWidth dst) (GetHeight dst)
                          (GetWidth src) (GetHeight src)) e))
        end
    else Some e
  else Some e.

(** The textures bound for the inputs of a stage; [views] has room for four. *)
Fixpoint stage_inputs (k : nat) (inputs : list Z) (outputs : list Texture)
  : option (list Texture) :=
  match inputs with
  | [] => Some []
  | idx :: rest =>
      if (k <? 4)%nat && (0 <=? idx)%Z then
        match nth_error outputs (Z.to_nat idx), stage_inputs (S k) rest outputs with
        | Some t, Some ts => Some (t :: ts)
        | _, _ => None
        end
      else None
  end.

Definition stage_viewport (stage : StageOption) (im : ImageState) : Viewport :=
  let w := of_int (if m_use_source_resolution stage
                   then m_prev_src_width im else m_prev_dst_width im) in
  let h := of_int (if m_use_source_resolution stage
                   then m_prev_src_height im else m_prev_dst_height im) in
  mkViewport (of_int 0) (of_int 0) (mul w (m_outputScale stage)) (mul h (m_outputScale stage)).

Definition destination_viewport (dst : TargetRectangle) : Viewport :=
  mkViewport (of_int (left dst)) (of_int (top dst))
             (of_int (GetWidth dst)) (of_int (GetHeight dst)).

(** The loop over the stages, from stage [i] on.  [None]: an index outside
    [m_pshader], [m_stageOutput] or [views]. *)
Fixpoint draw_stages (i : nat) (todo : list StageOption) (finalstage : Z)
    (dst : TargetRectangle) (e : Engine) : option Engine :=
  match todo with
  | [] => Some e
  | stage :: rest =>
      let im := images e in
      let target :=
        if (Z.of_nat i =? finalstage)%Z then Some (Destination, destination_viewport dst)
        else match nth_error (m_stageOutput im) i with
             | Some t => Some (Intermediate t, stage_viewport stage im)
             | None => None
             end in
      let inputs :=
        if ((0 <? i)%nat && (finalstage >? 0)%Z)%bool
        then stage_inputs 0 (m_inputs stage) (m_stageOutput im)
        else Some [] in
      match target, nth_error (m_pshader (shaders e)) i, inputs with
      | Some (rt, vp), Some shader, Some ins =>
          draw_stages (S i) rest finalstage dst
            (log [Drawn i rt vp shader ins (m_vertex_buffer_offset (vertices e))] e)
      | _, _, _ => None
      end
  end.

Definition draw_all (dst : TargetRectangle) (e : Engine) : option Engine :=
  let stages := GetStages (m_config (shaders e)) in
  draw_stages 0 stages (finalstage_of stages) dst e.

Definition bind {A B : Type} (a : option A) (f : A -> option B) : option B :=
  match a with Some x => f x | None => None end.

(** The image of a stage has the extents its stage asks for, given the
    width and height of the source and destination rectangles. *)
Definition image_fits (src_w dst_w src_h dst_h : Z) (stage : StageOption) (t : Texture)
  : Prop :=
  stage_extent stage src_w dst_w = Some (tex_width t) /\
  stage_extent stage src_h dst_h = Some (tex_height t).

(** What holds of the images between draws: there are none, or there is one
    for each stage before the last, as large as the cached dimensions make
    it. *)
Definition images_consistent (e : Engine) : Prop :=
  let im := images e in
  let stages := GetStages (m_config (shaders e)) in
  m_stageOutput im = [] \/
  (Z.of_nat (List.length (m_stageOutput im)) = finalstage_of stages /\
   Forall2 (image_fits (m_prev_src_width im) (m_prev_dst_width im)
              (m_prev_src_height im) (m_prev_dst_height im))
           (firstn (List.length (m_stageOutput im)) stages) (m_stageOutput im)).

(** The texture pointers are taken as valid; [time] is what the timer reads. *)
Definition BlitFromTexture (src dst : TargetRectangle) (src_width src_height layer : Z)
    (gamma : float) (time : Z) (e : Engine) : option Engine :=
  bind (ApplyShader e) (fun e =>
  bind (upload_options e) (fun e =>
  let e := upload_params (frame_params src src_width src_height layer gamma time) e in
  let e := update_geometry (source_uv src src_width src_height) e in
  bind (prepare_stage_outputs src dst e) (fun e =>
  draw_all dst e))).

(** The engine as its constructor leaves it.  The four cached coordinates
    and the vertex offset are not initialised: they are whatever [junk]
    holds, with the observer flag set. *)
Definition constructed (cfg : PostProcessingShaderConfiguration) (junk : VertexState)
    (g : Globals) : Engine :=
  mkEngine (mkShaderState false cfg [] 0 None)
           (mkImageState [] 0 0 0 0)
           (mkVertexState (m_vertex_buffer_offset junk) true
              (pu0 junk) (pu1 junk) (pv0 junk) (pv1 junk))
           None g (mkDevice 0 []).

(** The destructor: every image is released, the programs are dropped and
    their vector cleared, and the parameter and option buffers released. *)
Definition destructor (e : Engine) : Engine :=
  let sh := shaders e in
  log (map TextureReleased (m_stageOutput (images e)))
    (mkEngine (mkShaderState (m_initialized sh) (m_config sh) [] (m_prev_samples sh) None)
       (images e) (vertices e) None (globals e) (device e)).

(** One frame: what became of the settings since the frame before, and the
    arguments of the call. *)
Record Frame : Type := mkFrame {
  frame_settings : Globals -> Globals;
  frame_src : TargetRectangle;
  frame_dst : TargetRectangle;
  frame_src_width : Z;
  frame_src_height : Z;
  frame_layer : Z;
  frame_gamma : float;
  frame_time : Z
}.

(** A run of calls, one per frame. *)
Fixpoint run_frames (frames : list Frame) (e : Engine) : option Engine :=
  match frames with
  | [] => Some e
  | f :: rest =>
      bind (BlitFromTexture (frame_src f) (frame_dst f) (frame_src_width f)
              (frame_src_height f) (frame_layer f) (frame_gamma f) (frame_time f)
              (with_globals (frame_settings f (globals e)) e))
           (run_frames rest)
  end.

(** Every texture created and not yet released is one of the images. *)
Definition textures_balanced (e : Engine) : Prop :=
  count_events is_TextureCreated (events (device e))
  = count_events is_TextureReleased (events (device e))
    + List.length (m_stageOutput (images e)).

(** What the draw loop needs of a stage among [n]: at most four inputs, each
    the index of an image. *)
Definition inputs_in_range (n : nat) (stage : StageOption) : Prop :=
  List.length (m_inputs stage) <= 4 /\
  Forall (fun idx => (0 <= idx < Z.of_nat n - 1)%Z) (m_inputs stage).

(** The extents of the image of a stage have [u32] values. *)
Definition extent_defined (src dst : TargetRectangle) (stage : StageOption) : Prop :=
  stage_extent stage (GetWidth src) (GetWidth dst) <> None /\
  stage_extent stage (GetHeight src) (GetHeight dst) <> None.


(** *** Facts about the packing *)

Section PackingFacts.

Local Open Scope Z_scope.

Lemma land_not_15 x : 0 <= x < 2 ^ 32 -> Z.land x (wrap_u32 (Z.lnot 15)) = 16 * (x / 16).
Proof.
  intros Hx.
  assert (E : Z.land x (wrap_u32 (Z.lnot 15)) = Z.ldiff x (Z.ones 4)).
  { apply Z.bits_inj'. intros n Hn.
    rewrite Z.land_spec, Z.ldiff_spec. unfold wrap_u32.
    destruct (Z.ltb_spec n 32) as [L|L].
    - rewrite Z.mod_pow2_bits_low by lia.
      change (Z.ones 4) with 15. rewrite Z.lnot_spec by lia. reflexivity.
    - rewrite (Z.bits_above_log2 x n).
      + reflexivity.
      + lia.
      + destruct (Z.eq_dec x 0) as [->|Hz]; [simpl; lia|].
        apply Z.log2_lt_pow2; [lia|].
        apply Z.lt_le_trans with (2 ^ 32); [lia|].
        apply Z.pow_le_mono_r; lia. }
  rewrite E, Z.ldiff_ones_r by lia.
  rewrite Z.shiftl_mul_pow2, Z.shiftr_div_pow2 by lia.
  change (2 ^ 4) with 16. lia.
Qed.

Lemma remaining_spec b : 0 <= b < 2 ^ 32 -> remaining b = (- b) mod 16.
Proof.
  intros Hb. unfold remaining.
  rewrite land_not_15 by apply wrap_u32_range.
  unfold wrap_u32. change (2 ^ 32) with 4294967296 in *.
  Z.to_euclidean_division_equations. lia.
Qed.

Lemma needed_size_range o : 0 <= needed_size o < 2 ^ 32.
Proof.
  unfold needed_size. destruct (m_type o); try apply wrap_u32_range. lia.
Qed.

Lemma pad_range b n : 0 <= b < 2 ^ 32 -> 0 <= pad b n < 2 ^ 32.
Proof.
  intros Hb. unfold pad. destruct (_ <? _); [apply wrap_u32_range | exact Hb].
Qed.

Lemma pad_spec b n : 0 <= b < 2 ^ 32 ->
  pad b n = if (- b) mod 16 <? n then wrap_u32 (b + (- b) mod 16) else b.
Proof. intros Hb. unfold pad. now rewrite remaining_spec. Qed.

Lemma pad_within_row b n :
  0 <= b < 2 ^ 32 -> 0 <= n <= 16 -> within_row (pad b n) n.
Proof.
  intros Hb Hn. rewrite pad_spec by exact Hb. unfold within_row, wrap_u32.
  change (2 ^ 32) with 4294967296 in *.
  destruct (Z.ltb_spec ((- b) mod 16) n) as [L|L];
    Z.to_euclidean_division_equations; lia.
Qed.

Lemma layout_walk_placements : forall opts b,
  0 <= b < 2 ^ 32 ->
  Forall (fun pl =>
            0 <= before_padding pl < 2 ^ 32 /\
            0 <= size pl /\
            placed_at pl = pad (before_padding pl) (size pl))
         (fst (layout_walk b opts)).
Proof.
  induction opts as [|[name o] rest IH]; intros b Hb; cbn [layout_walk].
  - constructor.
  - specialize (IH (wrap_u32 (pad b (needed_size o) + needed_size o)) (wrap_u32_range _)).
    destruct (layout_walk _ rest) as [ps final]. cbn [fst] in *.
    constructor; [|exact IH]. cbn [before_padding size placed_at].
    pose proof (needed_size_range o). repeat split; lia.
Qed.

Lemma upload_walk_sizes : forall opts b d,
  snd (fst (upload_walk b d opts))
    = map (fun pl => wrap_u32 (placed_at pl + size pl)) (fst (layout_walk b opts)) /\
  snd (upload_walk b d opts) = snd (layout_walk b opts).
Proof.
  induction opts as [|[name o] rest IH]; intros b d; cbn [upload_walk layout_walk].
  - split; reflexivity.
  - unfold pad.
    set (b' := if remaining b <? needed_size o then wrap_u32 (b + remaining b) else b).
    set (d' := if remaining b <? needed_size o then d + remaining b else d).
    specialize (IH (wrap_u32 (b' + needed_size o)) (d' + needed_size o)).
    destruct (upload_walk _ _ rest) as [[sts sizes] final].
    destruct (layout_walk _ rest) as [ps final'].
    cbn [fst snd map placed_at size] in *. destruct IH as [-> ->]. split; reflexivity.
Qed.

Lemma wrap_u32_step d r n (c : bool) :
  wrap_u32 ((if c then d + r else d) + n)
  = wrap_u32 ((if c then wrap_u32 (wrap_u32 d + r) else wrap_u32 d) + n).
Proof.
  unfold wrap_u32. change (2 ^ 32) with 4294967296.
  destruct c; Z.to_euclidean_division_equations; lia.
Qed.

(** The upload loop copies a value to [dstdata] and adds the padding of its
    entry afterwards, where the declaring loop adds it first: the store is
    at the offset the entry has before its padding. *)
Lemma upload_walk_offsets : forall opts d,
  map (fun st => wrap_u32 (store_offset st)) (fst (fst (upload_walk (wrap_u32 d) d opts)))
    = map before_padding (fst (layout_walk (wrap_u32 d) opts)).
Proof.
  induction opts as [|[name o] rest IH]; intros d; cbn [upload_walk layout_walk].
  - reflexivity.
  - unfold pad.
    specialize (IH ((if remaining (wrap_u32 d) <? needed_size o
                     then d + remaining (wrap_u32 d) else d) + needed_size o)).
    rewrite wrap_u32_step in IH.
    destruct (upload_walk _ _ rest) as [[sts sizes] final].
    destruct (layout_walk _ rest) as [ps final'].
    cbn [fst snd map store_offset before_padding] in *. rewrite IH. reflexivity.
Qed.

(** C2, as amended: the declaring loop of LoadShaderOptions and the upload
    loop of BlitFromTexture walk the options in the same order and keep the
    same running byte offset; before an entry the offset moves to the next
    16-byte boundary exactly when the entry is larger than what is left of
    the current 16-byte row (an entry that just fills the row stays), so
    that in the declared layout no entry of at most 16 bytes lies across a
    boundary.  For {bool a; float3 b; int a2} walked as written, the vector
    stays at offset 4 and fills bytes 4 to 15; walked in name order (a, a2,
    b), the vector that would start at 8 is placed at 16. *)
Theorem option_packing (opts : list (string * ConfigurationOption)) :
  snd (fst (upload_walk 0 0 opts)) = layout_sizes opts /\
  snd (upload_walk 0 0 opts) = snd (layout_walk 0 opts) /\
  Forall (fun pl =>
            placed_at pl =
              (if ((- before_padding pl) mod 16 <? size pl)%Z
               then wrap_u32 (before_padding pl + (- before_padding pl) mod 16)
               else before_padding pl) /\
            ((size pl <= 16)%Z -> within_row (placed_at pl) (size pl)))
         (fst (layout_walk 0 opts)) /\
  fst (layout_walk 0 [example_a; example_b; example_a2])
    = [mkPlacement 0 0 4; mkPlacement 4 4 12; mkPlacement 16 16 4] /\
  fst (layout_walk 0 [example_a; example_a2; example_b])
    = [mkPlacement 0 0 4; mkPlacement 4 4 4; mkPlacement 8 16 12].
Proof.
  split; [apply upload_walk_sizes|]. split; [apply upload_walk_sizes|].
  split; [|split; reflexivity].
  eapply Forall_impl; [|apply (layout_walk_placements opts 0); lia].
  intros pl (Hb & Hs & ->). split; [now apply pad_spec|].
  intros H16. apply pad_within_row; lia.
Qed.

(** *** Further properties of the packing *)

(** The subtraction from the rounded offset is the distance to the next
    16-byte boundary: 0 on a boundary, less than 16 anywhere. *)
Theorem remaining_is_distance_to_boundary b :
  0 <= b < 2 ^ 32 ->
  remaining b = (- b) mod 16 /\
  0 <= remaining b < 16 /\
  (b + remaining b) mod 16 = 0.
Proof.
  intros Hb. rewrite remaining_spec by exact Hb.
  Z.to_euclidean_division_equations. lia.
Qed.

(** The bytes the values of the options take, with 15 bytes of padding
    allowed for each. *)
Fixpoint options_bound (opts : list (string * ConfigurationOption)) : Z :=
  match opts with
  | [] => 0
  | o :: rest => 4 * Z.of_nat (List.length (option_words (snd o))) + 15 + options_bound rest
  end.

Lemma options_bound_nonneg opts : 0 <= options_bound opts.
Proof. induction opts as [|o opts IH]; cbn [options_bound]; lia. Qed.

Lemma needed_size_words o :
  4 * Z.of_nat (List.length (option_words o)) < 2 ^ 32 ->
  needed_size o = 4 * Z.of_nat (List.length (option_words o)).
Proof.
  unfold needed_size, option_words. intros H.
  destruct (m_type o); cbn [List.length] in *; rewrite ?length_map in *;
    [reflexivity | rewrite wrap_u32_small; lia | rewrite wrap_u32_small; lia].
Qed.

Lemma upload_walk_bounds : forall opts b,
  0 <= b -> b + options_bound opts < 2 ^ 32 ->
  b <= snd (upload_walk b b opts) <= b + options_bound opts /\
  Forall (fun st =>
            b <= store_offset st /\
            store_offset st + 4 * Z.of_nat (List.length (store_words st))
              <= snd (upload_walk b b opts))
         (fst (fst (upload_walk b b opts))).
Proof.
  induction opts as [|[name o] rest IH]; intros b Hb Hbound;
    cbn [upload_walk options_bound snd] in *.
  - cbn [fst snd]. split; [lia | constructor].
  - pose proof (options_bound_nonneg rest) as Hrest.
    rewrite needed_size_words by lia.
    set (n := 4 * Z.of_nat (List.length (option_words o))) in *.
    assert (Hn : 0 <= n) by (unfold n; lia).
    assert (Hr : 0 <= remaining b < 16).
    { rewrite remaining_spec by lia. apply Z.mod_pos_bound. lia. }
    set (r := remaining b) in *.
    assert (Hb' : (if r <? n then wrap_u32 (b + r) else b) = (if r <? n then b + r else b)).
    { destruct (r <? n); [apply wrap_u32_small; lia | reflexivity]. }
    rewrite Hb'.
    set (b' := if r <? n then b + r else b).
    assert (Hb'r : b <= b' <= b + 15) by (unfold b'; destruct (r <? n); lia).
    rewrite (wrap_u32_small (b' + n)) by lia.
    specialize (IH (b' + n)). 
    destruct (upload_walk (b' + n) (b' + n) rest) as [[sts sizes] final].
    cbn [fst snd] in *.
    destruct IH as [Hfinal Hsts]; [lia | lia |].
    split; [lia|]. constructor.
    + cbn [store_offset store_words]. fold n. lia.
    + eapply Forall_impl; [|exact Hsts]. cbv beta. intros st. lia.
Qed.

Lemma rounded_up_to_row final :
  0 <= final -> final + 15 < 2 ^ 32 ->
  Z.land (wrap_u32 (final + 15)) (wrap_u32 (Z.lnot 15)) mod 16 = 0 /\
  final <= Z.land (wrap_u32 (final + 15)) (wrap_u32 (Z.lnot 15)) < final + 16.
Proof.
  intros H0 H1.
  rewrite (wrap_u32_small (final + 15)) by lia.
  rewrite land_not_15 by lia.
  Z.to_euclidean_division_equations. lia.
Qed.

(** When the values and their padding stay below 4 GiB, every store of the
    upload loop lies inside the constant buffer that LoadShaderOptions
    created for the same options, and that buffer is a whole number of
    16-byte rows. *)
Theorem upload_stays_in_buffer (cfg : PostProcessingShaderConfiguration) (buf : OptionBuffer) :
  options_bound (GetOptions cfg) + 15 < 2 ^ 32 ->
  options_buffer cfg = Some buf ->
  buffer_bytes buf mod 16 = 0 /\
  Forall (fun st =>
            0 <= store_offset st /\
            store_offset st + 4 * Z.of_nat (List.length (store_words st))
              <= buffer_bytes buf)
         (fst (fst (upload_walk 0 0 (GetOptions cfg)))).
Proof.
  intros Hbound Hbuf. unfold options_buffer in Hbuf.
  destruct (HasOptions cfg); [|discriminate Hbuf]. cbv zeta in Hbuf.
  destruct (snd (layout_walk 0 (GetOptions cfg)) >? 0); [|discriminate Hbuf].
  injection Hbuf as <-. cbn [buffer_bytes].
  destruct (upload_walk_sizes (GetOptions cfg) 0 0) as [_ Hfin].
  destruct (upload_walk_bounds (GetOptions cfg) 0) as [Hfinal Hsts]; [lia | lia |].
  rewrite Hfin in Hfinal, Hsts.
  destruct (rounded_up_to_row (snd (layout_walk 0 (GetOptions cfg)))) as [Hm Hr];
    [lia | lia |].
  split; [exact Hm|].
  eapply Forall_impl; [|exact Hsts]. cbv beta. intros st Hst. lia.
Qed.

End PackingFacts.

(** *** Facts about the assembled text *)

Definition no_percent (s : string) : bool :=
  forallb (fun c => negb (Ascii.eqb c "%")) (list_ascii_of_string s).

(** Text without a conversion is copied as it is. *)
Lemma vformat_literal stray : forall pre rest args,
  no_percent pre = true ->
  vformat stray (pre ++ rest) args = pre ++ vformat stray rest args.
Proof.
  induction pre as [|c pre IH]; intros rest args H; [reflexivity|].
  unfold no_percent in H. cbn [list_ascii_of_string forallb] in H.
  apply andb_prop in H. destruct H as [Hc Hpre].
  destruct (Ascii.eqb c "%") eqn:Ec; [discriminate|].
  change (String c pre ++ rest) with (String c (pre ++ rest)).
  cbn [vformat]. rewrite Ec.
  destruct (pre ++ rest) eqn:E.
  - destruct pre; [|discriminate]. cbn [append] in E. subst rest. reflexivity.
  - rewrite <- E. cbn [append]. f_equal. now apply IH.
Qed.

Lemma vformat_d_given stray v rest args :
  vformat stray ("%d" ++ rest) (A_int v :: args) = fmt_d v ++ vformat stray rest args.
Proof. reflexivity. Qed.

Lemma vformat_d_missing stray rest :
  vformat stray ("%d" ++ rest) [] = fmt_d stray ++ vformat stray rest [].
Proof. reflexivity. Qed.

Lemma s_hlsl_header_MSAA_parts :
  s_hlsl_header_MSAA = msaa_part0 ++ "%d" ++ msaa_part1 ++ "%d" ++ msaa_part2.
Proof. vm_compute. reflexivity. Qed.

(** C9: for a sample count other than 1 the multisampled header is chosen
    and formatted with the sample count as its only argument: the first
    placeholder (the depth texture's sample count) holds the sample count,
    the second ([const int samples]) holds whatever is read where no
    argument was passed, not the sample count. *)
Theorem shader_header_MSAA s :
  wrap_int s <> 1%Z ->
  shader_header s =
  msaa_part0 ++ fmt_d s ++ msaa_part1 ++ fmt_d stray_vararg ++ msaa_part2.
Proof.
  intros H. unfold shader_header, StringFromFormat.
  destruct (Z.eqb_spec (wrap_int s) 1); [contradiction|].
  rewrite s_hlsl_header_MSAA_parts.
  rewrite vformat_literal by (vm_compute; reflexivity).
  rewrite vformat_d_given.
  rewrite vformat_literal by (vm_compute; reflexivity).
  rewrite vformat_d_missing.
  rewrite <- (append_nil_r msaa_part2) at 1.
  rewrite vformat_literal by (vm_compute; reflexivity).
  cbn [vformat]. now rewrite append_nil_r.
Qed.

Lemma shader_header_single s : wrap_int s = 1%Z -> shader_header s = s_hlsl_header.
Proof. intros H. unfold shader_header. now rewrite H. Qed.

(** *** Facts about ApplyShader *)

Lemma map_const_repeat {A B : Type} (b : B) (l : list A) :
  map (fun _ => b) l = repeat b (List.length l).
Proof. induction l as [|a l IH]; cbn; [reflexivity | now rewrite IH]. Qed.

Lemma firstn_repeat {A : Type} (x : A) : forall n m,
  firstn n (repeat x m) = repeat x (Nat.min n m).
Proof.
  induction n as [|n IH]; intros [|m]; cbn; try reflexivity. now rewrite IH.
Qed.

Lemma resize_repeat {A : Type} (x : A) n m :
  resize n x (repeat x m) = repeat x n.
Proof.
  unfold resize. rewrite firstn_repeat, repeat_length, <- repeat_app.
  f_equal. lia.
Qed.

Lemma resize_cleared n (ps : list (option Program)) :
  resize n None (map (fun _ => @None Program) ps) = repeat None n.
Proof. rewrite map_const_repeat. apply resize_repeat. Qed.



(** Unfolds the setters and reads the fields. *)
Ltac engine_simpl :=
  cbv beta iota zeta delta
    [reset_programs release_stage_outputs set_config set_programs InitStages
     LoadShaderOptions upload_params log with_shaders with_images with_vertices
     with_params with_globals with_device
     shaders images vertices m_params globals device
     m_initialized m_config m_pshader m_prev_samples m_options
     m_stageOutput m_prev_dst_width m_prev_dst_height m_prev_src_width m_prev_src_height
     m_vertex_buffer_offset m_vertex_buffer_observer pu0 pu1 pv0 pv1
     g_Config_sPostProcessingShader g_ActiveConfig_sPostProcessingShader active_samples
     next_texture events fst snd] in *.

(** Splits an engine into its fields. *)
Ltac destruct_engine e :=
  let sh := fresh "sh" in let im := fresh "im" in let vx := fresh "vx" in
  let g := fresh "g" in let d := fresh "d" in
  destruct e as [sh im vx ? g d]; destruct sh, im, vx, g, d.

(** The engine once [recompile] is through. *)
Definition recompiled_engine (e : Engine) : Engine :=
  let g := globals e in
  let cfg := snd (LoadShader (g_ActiveConfig_sPostProcessingShader g) (m_config (shaders e))) in
  mkEngine
    (mkShaderState (m_initialized (shaders e)) cfg
       (repeat None (List.length (GetStages cfg))) (active_samples g) (options_buffer cfg))
    (mkImageState [] (m_prev_dst_width (images e)) (m_prev_dst_height (images e))
       (m_prev_src_width (images e)) (m_prev_src_height (images e)))
    (vertices e) (m_params e) g
    (mkDevice (next_texture (device e))
       (events (device e) ++ map TextureReleased (m_stageOutput (images e)))).

Lemma recompile_eq e :
  recompile e =
  let g := globals e in
  let '(raw, cfg) := LoadShader (g_ActiveConfig_sPostProcessingShader g) (m_config (shaders e)) in
  (compile_stages (assembled (active_samples g) cfg raw) 0 (GetStages cfg)
     (repeat None (List.length (GetStages cfg))),
   recompiled_engine e).
Proof.
  destruct_engine e. unfold recompile, recompiled_engine, assembled. engine_simpl.
  destruct (LoadShader _ _) as [raw cfg]. engine_simpl.
  rewrite resize_cleared. reflexivity.
Qed.

Lemma ApplyShader_fallback_eq e :
  ApplyShader_fallback e =
  let '(raw, cfg) := LoadShader "" (m_config (shaders e)) in
  match GetStages cfg with
  | [] => None
  | _ :: rest =>
      Some (mkEngine
              (mkShaderState true cfg
                 (CompileAndCreatePixelShader
                    (assembled (m_prev_samples (shaders e)) cfg raw) default_entry
                  :: repeat None (List.length rest))
                 (m_prev_samples (shaders e)) (options_buffer cfg))
              (images e) (vertices e) (m_params e)
              (mkGlobals "" "" (active_samples (globals e))) (device e))
  end.
Proof.
  destruct_engine e. unfold ApplyShader_fallback, assembled. engine_simpl.
  destruct (LoadShader _ _) as [raw cfg]. engine_simpl.
  rewrite resize_cleared, resize_repeat.
  destruct (GetStages cfg) as [|st rest]; reflexivity.
Qed.


(** *** Facts about BlitFromTexture *)

Lemma count_events_app f a b :
  count_events f (a ++ b)%list = count_events f a + count_events f b.
Proof. unfold count_events. now rewrite filter_app, length_app. Qed.

Lemma count_events_map_none f (g : Texture -> Event) ts :
  (forall t, f (g t) = false) -> count_events f (map g ts) = 0.
Proof.
  intros H. unfold count_events. induction ts as [|t ts IH]; [reflexivity|].
  cbn [map filter]. now rewrite H.
Qed.

Lemma count_events_map_all f (g : Texture -> Event) ts :
  (forall t, f (g t) = true) -> count_events f (map g ts) = List.length ts.
Proof.
  intros H. unfold count_events. induction ts as [|t ts IH]; [reflexivity|].
  cbn [map filter]. rewrite H. cbn [List.length]. now rewrite IH.
Qed.

(** The draw loop only draws. *)
Lemma draw_stages_frame : forall todo i finalstage dst e e',
  draw_stages i todo finalstage dst e = Some e' ->
  shaders e' = shaders e /\ images e' = images e /\ vertices e' = vertices e /\
  m_params e' = m_params e /\ globals e' = globals e /\
  next_texture (device e') = next_texture (device e) /\
  exists new, events (device e') = (events (device e) ++ new)%list /\
              List.length new = List.length todo /\
              Forall (fun ev => is_Drawn ev = true) new.
Proof.
  induction todo as [|stage rest IH]; intros i finalstage dst e e' H; cbn [draw_stages] in H.
  - injection H as <-. repeat (split; [reflexivity|]).
    exists []. rewrite app_nil_r. repeat split. constructor.
  - destruct (if (Z.of_nat i =? finalstage)%Z then _ else _) as [[rt vp]|]; [|discriminate].
    destruct (nth_error (m_pshader (shaders e)) i) as [shader|]; [|discriminate].
    destruct (if ((0 <? i)%nat && (finalstage >? 0)%Z)%bool then _ else _) as [ins|];
      [|discriminate].
    apply IH in H. destruct H as (A & B & C & D & E & F & new & G & L & P).
    destruct_engine e. engine_simpl.
    repeat (split; [assumption|]).
    eexists (_ :: new). rewrite G, <- app_assoc. cbn [app List.length].
    split; [reflexivity|]. split; [now rewrite L|].
    constructor; [reflexivity | exact P].
Qed.

Lemma create_stage_outputs_length : forall stages im next ts,
  create_stage_outputs stages im next = Some ts -> List.length ts = List.length stages.
Proof.
  induction stages as [|stage rest IH]; intros im next ts H; cbn [create_stage_outputs] in H.
  - injection H as <-. reflexivity.
  - destruct (stage_extent stage _ _) as [w|]; [|discriminate].
    destruct (stage_extent stage _ _) as [h|]; [|discriminate].
    destruct (create_stage_outputs rest im (S next)) as [ts'|] eqn:E; [|discriminate].
    injection H as <-. cbn [List.length]. f_equal. now apply (IH im (S next)).
Qed.

Lemma create_stage_outputs_extents : forall stages im next ts,
  create_stage_outputs stages im next = Some ts ->
  Forall2 (fun stage t =>
             stage_extent stage (m_prev_src_width im) (m_prev_dst_width im)
               = Some (tex_width t) /\
             stage_extent stage (m_prev_src_height im) (m_prev_dst_height im)
               = Some (tex_height t))
          stages ts.
Proof.
  induction stages as [|stage rest IH]; intros im next ts H; cbn [create_stage_outputs] in H.
  - injection H as <-. constructor.
  - destruct (stage_extent stage _ _) as [w|] eqn:Ew; [|discriminate].
    destruct (stage_extent stage (m_prev_src_height im) _) as [h|] eqn:Eh; [|discriminate].
    destruct (create_stage_outputs rest im (S next)) as [ts'|] eqn:E; [|discriminate].
    injection H as <-. constructor; [now split | now apply (IH im (S next))].
Qed.

Lemma draw_stages_indices : forall todo i finalstage dst e e',
  draw_stages i todo finalstage dst e = Some e' ->
  forall k, k < List.length todo ->
    (Z.of_nat (i + k) = finalstage \/ i + k < List.length (m_stageOutput (images e))) /\
    i + k < List.length (m_pshader (shaders e)).
Proof.
  induction todo as [|stage rest IH]; intros i finalstage dst e e' H k Hk;
    cbn [List.length] in Hk; [lia|].
  cbn [draw_stages] in H.
  destruct (Z.eqb_spec (Z.of_nat i) finalstage) as [Ef|Ef].
  - destruct (nth_error (m_pshader (shaders e)) i) as [shader|] eqn:Ep; [|discriminate].
    destruct (if ((0 <? i)%nat && (finalstage >? 0)%Z)%bool then _ else _) as [ins|];
      [|discriminate].
    destruct k as [|k].
    + rewrite Nat.add_0_r. split; [now left|].
      apply nth_error_Some. congruence.
    + replace (i + S k) with (S i + k) by lia.
      apply (IH _ _ _ _ _ H k). lia.
  - destruct (nth_error (m_stageOutput (images e)) i) as [t|] eqn:Et; [|discriminate].
    destruct (nth_error (m_pshader (shaders e)) i) as [shader|] eqn:Ep; [|discriminate].
    destruct (if ((0 <? i)%nat && (finalstage >? 0)%Z)%bool then _ else _) as [ins|];
      [|discriminate].
    destruct k as [|k].
    + rewrite Nat.add_0_r. split.
      * right. apply nth_error_Some. congruence.
      * apply nth_error_Some. congruence.
    + replace (i + S k) with (S i + k) by lia.
      apply (IH _ _ _ _ _ H k). lia.
Qed.

(** What [ApplyShader] leaves alone, and what it does to the images. *)
Lemma ApplyShader_spec e e' :
  ApplyShader e = Some e' ->
  vertices e' = vertices e /\ m_params e' = m_params e /\
  next_texture (device e') = next_texture (device e) /\
  m_prev_dst_width (images e') = m_prev_dst_width (images e) /\
  m_prev_dst_height (images e') = m_prev_dst_height (images e) /\
  m_prev_src_width (images e') = m_prev_src_width (images e) /\
  m_prev_src_height (images e') = m_prev_src_height (images e) /\
  ((shader_current e = true /\ e' = e) \/
   (shader_current e = false /\ m_stageOutput (images e') = [] /\
    exists new,
      events (device e') =
        (events (device e) ++ map TextureReleased (m_stageOutput (images e)) ++ new)%list /\
      count_events is_VerticesAppended new = 0 /\
      count_events is_TextureCreated new = 0 /\
      count_events is_TextureReleased new = 0)).
Proof.
  unfold ApplyShader. destruct (shader_current e) eqn:Hc.
  - intros [= <-]. repeat (split; [reflexivity|]). left. now split.
  - rewrite recompile_eq. cbv zeta.
    destruct (LoadShader _ _) as [raw cfg].
    destruct (compile_stages _ 0 _ _) as [ps ok].
    destruct ok.
    + intros [= <-]. destruct_engine e. unfold recompiled_engine. engine_simpl.
      repeat (split; [reflexivity|]). right. split; [reflexivity|]. split; [reflexivity|].
      exists []. rewrite app_nil_r. repeat split.
    + rewrite ApplyShader_fallback_eq.
      destruct (LoadShader "" _) as [raw2 cfg2].
      destruct (GetStages cfg2) as [|st rest]; [discriminate|].
      intros [= <-]. destruct_engine e. unfold recompiled_engine. engine_simpl.
      repeat (split; [reflexivity|]). right. split; [reflexivity|]. split; [reflexivity|].
      eexists [_]. rewrite <- app_assoc. repeat split.
Qed.

Lemma upload_options_spec e e' :
  upload_options e = Some e' ->
  images e' = images e /\ vertices e' = vertices e /\ m_params e' = m_params e /\
  globals e' = globals e /\ device e' = device e /\
  GetStages (m_config (shaders e')) = GetStages (m_config (shaders e)) /\
  GetShader (m_config (shaders e')) = GetShader (m_config (shaders e)) /\
  m_pshader (shaders e') = m_pshader (shaders e) /\
  m_initialized (shaders e') = m_initialized (shaders e) /\
  m_prev_samples (shaders e') = m_prev_samples (shaders e).
Proof.
  unfold upload_options. cbv zeta.
  destruct (IsDirty _ && HasOptions _)%bool.
  - destruct (m_options (shaders e)) as [buf|]; [|discriminate].
    intros [= <-]. destruct_engine e. engine_simpl. repeat split.
  - intros [= <-]. repeat split.
Qed.

Lemma geometry_changed_eq v uv :
  geometry_changed v uv = (m_vertex_buffer_observer v || uv_differs v uv)%bool.
Proof.
  unfold geometry_changed, uv_differs.
  destruct (m_vertex_buffer_observer v), (neq (pu0 v) (uv_u0 uv)),
    (neq (pu1 v) (uv_u1 uv)), (neq (pv0 v) (uv_v0 uv)); reflexivity.
Qed.

Lemma update_geometry_spec uv e :
  let e' := update_geometry uv e in
  shaders e' = shaders e /\ images e' = images e /\ m_params e' = m_params e /\
  globals e' = globals e /\ next_texture (device e') = next_texture (device e) /\
  m_vertex_buffer_observer (vertices e') = false /\
  events (device e') =
    (events (device e) ++
     (if geometry_changed (vertices e) uv then [VerticesAppended (quad uv)] else []))%list /\
  uv_differs (vertices e') uv = (negb (uv_is_number uv) && geometry_changed (vertices e) uv)%bool.
Proof.
  cbv zeta. unfold update_geometry.
  destruct (geometry_changed (vertices e) uv) eqn:G.
  - destruct_engine e. engine_simpl. repeat (split; [reflexivity|]).
    unfold uv_differs, uv_is_number, neq. cbn [pu0 pu1 pv0 pv1].
    destruct (SFeqb (uv_u0 uv) (uv_u0 uv)), (SFeqb (uv_u1 uv) (uv_u1 uv)),
      (SFeqb (uv_v0 uv) (uv_v0 uv)), (SFeqb (uv_v1 uv) (uv_v1 uv)); reflexivity.
  - rewrite app_nil_r. repeat (split; [reflexivity|]).
    rewrite geometry_changed_eq in G.
    apply orb_false_elim in G. destruct G as [Go Gd].
    split; [exact Go|]. split; [reflexivity|].
    rewrite Gd. now rewrite andb_false_r.
Qed.

Lemma prepare_stage_outputs_spec src dst e e' :
  prepare_stage_outputs src dst e = Some e' ->
  shaders e' = shaders e /\ vertices e' = vertices e /\ m_params e' = m_params e /\
  globals e' = globals e /\
  let stages := GetStages (m_config (shaders e)) in
  let fs := finalstage_of stages in
  ((((fs >? 0)%Z && outputs_stale (images e) src dst fs)%bool = false /\ e' = e) \/
   ((fs >? 0)%Z = true /\ outputs_stale (images e) src dst fs = true /\
    (fs <= vector_max_size)%Z /\
    exists ts,
      create_stage_outputs (firstn (Z.to_nat fs) stages)
        (mkImageState (m_stageOutput (images e)) (GetWidth dst) (GetHeight dst)
           (GetWidth src) (GetHeight src))
        (next_texture (device e)) = Some ts /\
      images e' = mkImageState ts (GetWidth dst) (GetHeight dst)
                    (GetWidth src) (GetHeight src) /\
      next_texture (device e') = next_texture (device e) + List.length ts /\
      events (device e') =
        (events (device e) ++ map TextureReleased (m_stageOutput (images e))
           ++ map TextureCreated ts)%list)).
Proof.
  unfold prepare_stage_outputs. cbv zeta.
  destruct (finalstage_of _ >? 0)%Z eqn:Hf.
  - destruct (outputs_stale _ _ _ _) eqn:Hs.
    + destruct (Z.gtb_spec (finalstage_of (GetStages (m_config (shaders e)))) vector_max_size)
        as [Hm|Hm]; [discriminate|].
      cbn [log with_device device next_texture events].
      destruct (create_stage_outputs _ _ _) as [ts|] eqn:Ec; [|discriminate].
      intros [= <-].
      repeat (split; [reflexivity|]). right.
      split; [reflexivity|]. split; [reflexivity|]. split; [exact Hm|].
      exists ts. split; [reflexivity|]. split; [reflexivity|]. split; [reflexivity|].
      cbn [device events with_device with_images log]. now rewrite <- app_assoc.
    + intros [= <-]. repeat (split; [reflexivity|]). left. now split.
  - intros [= <-]. repeat (split; [reflexivity|]). left. now split.
Qed.

(** The call, phase by phase. *)
Lemma BlitFromTexture_phases src dst sw sh layer gamma time e e' :
  BlitFromTexture src dst sw sh layer gamma time e = Some e' ->
  exists e1 e2 e3,
    ApplyShader e = Some e1 /\
    upload_options e1 = Some e2 /\
    prepare_stage_outputs src dst
      (update_geometry (source_uv src sw sh)
         (upload_params (frame_params src sw sh layer gamma time) e2)) = Some e3 /\
    draw_all dst e3 = Some e'.
Proof.
  unfold BlitFromTexture, bind. cbv zeta.
  destruct (ApplyShader e) as [e1|] eqn:E1; [|discriminate].
  destruct (upload_options e1) as [e2|] eqn:E2; [|discriminate].
  destruct (prepare_stage_outputs _ _ _) as [e3|] eqn:E3; [|discriminate].
  intros H. exists e1, e2, e3. repeat split; try assumption; reflexivity.
Qed.

(** C8: every call that completes has recomputed the frame parameters and
    left them in the parameter buffer, with native_gamma = 1/gamma and
    resolution = (src_width, src_height, 1/src_width, 1/src_height); for
    the source rectangle (0,0,64,64) of a 64x64 source and gamma 2.2 they
    hold native_gamma within 0.0001 of 0.4545 and resolution exactly
    (64, 64, 1/64, 1/64). *)
Theorem frame_parameters_uploaded src dst sw sh layer gamma time e e' :
  BlitFromTexture src dst sw sh layer gamma time e = Some e' ->
  m_params e' = Some (frame_params src sw sh layer gamma time) /\
  native_gamma (frame_params src sw sh layer gamma time) = div one gamma /\
  resolution (frame_params src sw sh layer gamma time)
    = [of_int sw; of_int sh; div one (of_int sw); div one (of_int sh)] /\
  (let ex := frame_params (mkRect 0 0 64 64) 64 64 layer f2_2 time in
   within (native_gamma ex) 4545 10000 1 10000 /\
   Forall2 (fun x q => exactly x (fst q) (snd q)) (resolution ex)
           [(64, 1); (64, 1); (1, 64); (1, 64)]%Z).
Proof.
  intros H. apply BlitFromTexture_phases in H.
  destruct H as (e1 & e2 & e3 & H1 & H2 & H3 & H4).
  split; [|split; [reflexivity|split; [reflexivity|]]].
  - unfold draw_all in H4. apply draw_stages_frame in H4.
    destruct H4 as (_ & _ & _ & -> & _).
    apply prepare_stage_outputs_spec in H3. destruct H3 as (_ & _ & -> & _).
    pose proof (update_geometry_spec (source_uv src sw sh)
                  (upload_params (frame_params src sw sh layer gamma time) e2)) as G.
    cbv zeta in G. destruct G as (_ & _ & -> & _). reflexivity.
  - cbv zeta. split.
    + vm_compute. reflexivity.
    + repeat constructor; vm_compute; reflexivity.
Qed.

Lemma count_events_Drawn f new :
  (forall s rt vp sh ins off, f (Drawn s rt vp sh ins off) = false) ->
  Forall (fun ev => is_Drawn ev = true) new -> count_events f new = 0.
Proof.
  intros Hf H. unfold count_events. induction H as [|ev new Hev _ IH]; [reflexivity|].
  destruct ev; try discriminate Hev. cbn [filter]. now rewrite Hf.
Qed.

Lemma draw_all_spec dst e e' :
  draw_all dst e = Some e' ->
  shaders e' = shaders e /\ images e' = images e /\ vertices e' = vertices e /\
  count_events is_VerticesAppended (events (device e'))
    = count_events is_VerticesAppended (events (device e)) /\
  count_events is_TextureCreated (events (device e'))
    = count_events is_TextureCreated (events (device e)) /\
  count_events is_TextureReleased (events (device e'))
    = count_events is_TextureReleased (events (device e)) /\
  count_events is_Drawn (events (device e'))
    = count_events is_Drawn (events (device e))
      + List.length (GetStages (m_config (shaders e))).
Proof.
  unfold draw_all. intros H. apply draw_stages_frame in H.
  destruct H as (A & B & C & _ & _ & _ & new & E & L & P).
  repeat (split; [assumption|]). rewrite E, !count_events_app.
  rewrite !(count_events_Drawn _ new) by (try exact P; reflexivity).
  repeat (split; [lia|]).
  f_equal. rewrite <- L. unfold count_events. clear - P.
  induction P as [|ev new Hev _ IH]; [reflexivity|].
  cbn [filter]. rewrite Hev. cbn [List.length]. now rewrite IH.
Qed.

Lemma finalstage_of_le stages :
  stages <> [] ->
  (0 <= finalstage_of stages <= Z.of_nat (List.length stages) - 1)%Z.
Proof.
  intros H. unfold finalstage_of, wrap_size_t.
  assert (0 < Z.of_nat (List.length stages))%Z by (destruct stages; [congruence | cbn; lia]).
  split; [apply Z.mod_pos_bound; lia | apply Z.mod_le; lia].
Qed.

Lemma finalstage_of_nil : finalstage_of [] = SIZE_MAX.
Proof. reflexivity. Qed.

Lemma SIZE_MAX_beyond_vector : (vector_max_size < SIZE_MAX)%Z.
Proof. reflexivity. Qed.

(** The images are no more than the stages, when consistent. *)
Lemma images_consistent_length e :
  images_consistent e ->
  List.length (m_stageOutput (images e)) <= List.length (GetStages (m_config (shaders e))).
Proof.
  intros [H|[_ H]]; [rewrite H; cbn; lia|].
  apply Forall2_length in H. rewrite <- H, length_firstn. lia.
Qed.

(** The two last phases of a call, started where the images are consistent. *)
Lemma prepare_and_draw src dst e0 e3 e' :
  images_consistent e0 ->
  prepare_stage_outputs src dst e0 = Some e3 ->
  draw_all dst e3 = Some e' ->
  let stages := GetStages (m_config (shaders e0)) in
  let n := List.length stages in
  1 <= n /\
  finalstage_of stages = (Z.of_nat n - 1)%Z /\
  List.length (m_stageOutput (images e')) = n - 1 /\
  Forall2 (image_fits (GetWidth src) (GetWidth dst) (GetHeight src) (GetHeight dst))
          (firstn (n - 1) stages) (m_stageOutput (images e')) /\
  (n = 1 \/ m_prev_dst_width (images e') = GetWidth dst /\
            m_prev_dst_height (images e') = GetHeight dst /\
            m_prev_src_width (images e') = GetWidth src /\
            m_prev_src_height (images e') = GetHeight src) /\
  shaders e' = shaders e0 /\
  ((n = 1 \/ outputs_stale (images e0) src dst (Z.of_nat n - 1) = false) ->
   images e' = images e0 /\ e3 = e0).
Proof.
  intros Hinv Hprep Hdraw. cbv zeta.
  pose proof (images_consistent_length e0 Hinv) as Hlen0.
  pose proof Hdraw as Hidx. unfold draw_all in Hidx.
  pose proof (draw_stages_indices _ _ _ _ _ _ Hidx) as Hidx'. clear Hidx.
  apply draw_all_spec in Hdraw. destruct Hdraw as (Hsh & Him & _).
  apply prepare_stage_outputs_spec in Hprep.
  destruct Hprep as (Psh & _ & _ & _ & Pcase). cbv zeta in Pcase.
  rewrite Psh in Hidx'. rewrite Him, Hsh, Psh.
  remember (GetStages (m_config (shaders e0))) as stages eqn:Estages.
  remember (finalstage_of stages) as fs eqn:Efs.
  remember (List.length stages) as n eqn:En.
  (* no stage: the call cannot get here *)
  assert (Hne : stages <> []).
  { intros ->. cbn [List.length] in *. rewrite finalstage_of_nil in Efs. subst fs n.
    destruct Pcase as [[Hskip _]|(_ & _ & Hm & _)].
    - apply andb_false_iff in Hskip. destruct Hskip as [Hskip|Hskip]; [discriminate Hskip|].
      unfold outputs_stale in Hskip. apply orb_false_elim in Hskip. destruct Hskip as [_ Hskip].
      apply negb_false_iff, Z.eqb_eq in Hskip. unfold SIZE_MAX in Hskip. lia.
    - pose proof SIZE_MAX_beyond_vector. lia. }
  pose proof (finalstage_of_le stages Hne) as Hfs. rewrite <- Efs, <- En in Hfs.
  assert (Hn : 1 <= n) by (subst n; destruct stages; [congruence | cbn; lia]).
  (* the images after the second to last phase are as many as finalstage *)
  assert (Hcount : Z.of_nat (List.length (m_stageOutput (images e3))) = fs).
  { destruct Pcase as [[Hskip ->]|(Hpos & Hstale & Hm & ts & Hc & Hi & _)].
    - destruct (Z.gtb_spec fs 0) as [Hp|Hp].
      + cbn [andb] in Hskip. unfold outputs_stale in Hskip.
        apply orb_false_elim in Hskip. destruct Hskip as [_ Hskip].
        now apply negb_false_iff, Z.eqb_eq in Hskip.
      + assert (fs = 0%Z) by lia.
        destruct Hinv as [H0|[H0 _]]; [rewrite H0; cbn; lia | rewrite <- Estages, <- Efs in H0; lia].
    - rewrite Hi. cbn [m_stageOutput].
      apply create_stage_outputs_length in Hc. rewrite Hc, length_firstn, <- En. lia. }
  assert (Hfs' : fs = (Z.of_nat n - 1)%Z).
  { destruct (Hidx' (n - 1) ltac:(lia)) as [[Hk|Hk] _]; cbn [Nat.add] in Hk; lia. }
  split; [exact Hn|]. split; [exact Hfs'|]. split; [lia|].
  destruct Pcase as [[Hskip ->]|(Hpos & Hstale & Hm & ts & Hc & Hi & _)].
  - (* nothing was created *)
    assert (Hkeep : n = 1 \/ outputs_stale (images e0) src dst fs = false).
    { destruct (Z.gtb_spec fs 0) as [Hp|Hp]; [right; exact Hskip | left; lia]. }
    split.
    + destruct Hinv as [H0|[H0 HF]].
      * rewrite H0 in *. cbn [List.length] in Hcount.
        replace (n - 1) with 0 by lia. constructor.
      * destruct Hkeep as [H1|Hst].
        -- assert (Z : List.length (m_stageOutput (images e0)) = 0) by lia.
           destruct (m_stageOutput (images e0)); [|discriminate Z].
           replace (n - 1) with 0 by lia. constructor.
        -- unfold outputs_stale in Hst.
           repeat (apply orb_false_elim in Hst; destruct Hst as [Hst ?]).
           repeat match goal with
                  | H : negb (_ =? _)%Z = false |- _ =>
                      apply negb_false_iff, Z.eqb_eq in H
                  end.
           replace (n - 1) with (List.length (m_stageOutput (images e0))) by lia.
           rewrite <- Estages in HF. congruence.
    + split.
      * destruct Hkeep as [H1|Hst]; [now left | right].
        unfold outputs_stale in Hst.
        repeat (apply orb_false_elim in Hst; destruct Hst as [Hst ?]).
        repeat match goal with
               | H : negb (_ =? _)%Z = false |- _ => apply negb_false_iff, Z.eqb_eq in H
               end.
        repeat split; assumption.
      * split; [reflexivity|]. intros _. split; reflexivity.
  - (* the images were created anew *)
    rewrite Hi. cbn [m_stageOutput m_prev_dst_width m_prev_dst_height m_prev_src_width
                       m_prev_src_height].
    split.
    + apply create_stage_outputs_extents in Hc.
      cbn [m_prev_dst_width m_prev_dst_height m_prev_src_width m_prev_src_height] in Hc.
      replace (n - 1) with (Z.to_nat fs) by lia. exact Hc.
    + split; [right; repeat split|]. split; [reflexivity|].
      intros [H1|Hst]; [lia|]. rewrite <- Hfs' in Hst. congruence.
Qed.

Lemma images_consistent_ext e e' :
  images e' = images e ->
  GetStages (m_config (shaders e')) = GetStages (m_config (shaders e)) ->
  images_consistent e -> images_consistent e'.
Proof. unfold images_consistent. cbv zeta. intros -> ->. exact (fun H => H). Qed.

Lemma constructed_consistent cfg junk g : images_consistent (constructed cfg junk g).
Proof. left. reflexivity. Qed.

Lemma ApplyShader_consistent e e1 :
  ApplyShader e = Some e1 -> images_consistent e -> images_consistent e1.
Proof.
  intros H Hinv. apply ApplyShader_spec in H.
  destruct H as (_ & _ & _ & _ & _ & _ & _ & [[_ ->]|(_ & H0 & _)]); [exact Hinv|].
  left. exact H0.
Qed.

Lemma outputs_stale_false im src dst fs :
  m_prev_dst_width im = GetWidth dst -> m_prev_dst_height im = GetHeight dst ->
  m_prev_src_width im = GetWidth src -> m_prev_src_height im = GetHeight src ->
  Z.of_nat (List.length (m_stageOutput im)) = fs ->
  outputs_stale im src dst fs = false.
Proof.
  intros H1 H2 H3 H4 H5. unfold outputs_stale.
  rewrite H1, H2, H3, H4, H5, !Z.eqb_refl. reflexivity.
Qed.

(** The state in which the images are prepared. *)
Lemma before_prepare uv ps e e1 e2 :
  ApplyShader e = Some e1 -> upload_options e1 = Some e2 ->
  let e0 := update_geometry uv (upload_params ps e2) in
  images e0 = images e1 /\
  GetStages (m_config (shaders e0)) = GetStages (m_config (shaders e1)) /\
  m_pshader (shaders e0) = m_pshader (shaders e1) /\
  count_events is_TextureCreated (events (device e0))
    = count_events is_TextureCreated (events (device e1)) /\
  count_events is_TextureReleased (events (device e0))
    = count_events is_TextureReleased (events (device e1)) /\
  count_events is_Drawn (events (device e0))
    = count_events is_Drawn (events (device e1)) /\
  count_events is_VerticesAppended (events (device e0))
    = count_events is_VerticesAppended (events (device e1))
      + (if geometry_changed (vertices e1) uv then 1 else 0) /\
  m_vertex_buffer_observer (vertices e0) = false /\
  uv_differs (vertices e0) uv
    = (negb (uv_is_number uv) && geometry_changed (vertices e1) uv)%bool.
Proof.
  intros H1 H2. cbv zeta.
  apply upload_options_spec in H2.
  destruct H2 as (Ui & Uv & _ & _ & Ud & Us & _ & Up & _).
  pose proof (update_geometry_spec uv (upload_params ps e2)) as G. cbv zeta in G.
  destruct G as (Gs & Gi & _ & _ & _ & Go & Ge & Gd).
  rewrite Gs, Gi, Ge, Go, Gd.
  change (images (upload_params ps e2)) with (images e2).
  change (shaders (upload_params ps e2)) with (shaders e2).
  change (vertices (upload_params ps e2)) with (vertices e2).
  change (device (upload_params ps e2)) with (device e2).
  rewrite Ui, Us, Up, Uv, Ud, !count_events_app.
  repeat (split; [reflexivity|]).
  destruct (geometry_changed (vertices e1) uv);
    repeat (split; [first [reflexivity | cbn; lia]|]); reflexivity.
Qed.

(** What a completed call establishes about the images. *)
Lemma BlitFromTexture_images src dst sw sh layer gamma time e e' :
  images_consistent e ->
  BlitFromTexture src dst sw sh layer gamma time e = Some e' ->
  let stages := GetStages (m_config (shaders e')) in
  let n := List.length stages in
  1 <= n /\
  List.length (m_stageOutput (images e')) = n - 1 /\
  Forall2 (image_fits (GetWidth src) (GetWidth dst) (GetHeight src) (GetHeight dst))
          (firstn (n - 1) stages) (m_stageOutput (images e')) /\
  images_consistent e' /\
  (n = 1 \/ outputs_stale (images e') src dst (Z.of_nat n - 1) = false) /\
  (shader_current e = true ->
   GetStages (m_config (shaders e)) = stages /\
   ((n = 1 \/ outputs_stale (images e) src dst (Z.of_nat n - 1) = false) ->
    images e' = images e /\
    count_events is_TextureCreated (events (device e'))
      = count_events is_TextureCreated (events (device e)) /\
    count_events is_TextureReleased (events (device e'))
      = count_events is_TextureReleased (events (device e)))).
Proof.
  intros Hinv H. apply BlitFromTexture_phases in H.
  destruct H as (e1 & e2 & e3 & H1 & H2 & H3 & H4). cbv zeta.
  destruct (before_prepare (source_uv src sw sh) (frame_params src sw sh layer gamma time)
              e e1 e2 H1 H2) as (Bi & Bs & _ & Bc & Br & _).
  remember (update_geometry (source_uv src sw sh)
              (upload_params (frame_params src sw sh layer gamma time) e2)) as e0 eqn:E0.
  assert (Hinv0 : images_consistent e0).
  { apply (images_consistent_ext e1); [exact Bi | exact Bs |].
    now apply (ApplyShader_consistent e). }
  destruct (prepare_and_draw src dst e0 e3 e' Hinv0 H3 H4)
    as (Hn & Hfs & Hlen & Hfit & Hdims & Hsh & Hkeep).
  pose proof (draw_all_spec dst e3 e' H4) as (_ & _ & _ & _ & Dc & Dr & _).
  rewrite Hsh.
  remember (GetStages (m_config (shaders e0))) as stages eqn:Es.
  remember (List.length stages) as n eqn:En.
  split; [exact Hn|]. split; [exact Hlen|]. split; [exact Hfit|].
  assert (Hcons : images_consistent e').
  { unfold images_consistent. cbv zeta. rewrite Hsh, <- Es.
    destruct Hdims as [H1n|(D1 & D2 & D3 & D4)].
    - left. destruct (m_stageOutput (images e')); [reflexivity|].
      cbn [List.length] in Hlen. lia.
    - right. split; [lia|]. rewrite D1, D2, D3, D4, Hlen. exact Hfit. }
  split; [exact Hcons|]. split.
  { destruct Hdims as [H1n|(D1 & D2 & D3 & D4)]; [now left | right].
    apply outputs_stale_false; try assumption. lia. }
  intros Hcur. apply ApplyShader_spec in H1.
  destruct H1 as (_ & _ & _ & _ & _ & _ & _ & [[_ ->]|[Hc' _]]); [|congruence].
  split; [symmetry; exact Bs|].
  intros Hk. rewrite <- Bi in Hk. destruct (Hkeep Hk) as [Hi He3]. subst e3.
  rewrite Hi, Dc, Dr, Bc, Br, Bi. repeat split; reflexivity.
Qed.



(** What a completed call does to the quad. *)
Lemma BlitFromTexture_geometry src dst sw sh layer gamma time e e' :
  BlitFromTexture src dst sw sh layer gamma time e = Some e' ->
  let uv := source_uv src sw sh in
  m_vertex_buffer_observer (vertices e') = false /\
  uv_differs (vertices e') uv
    = (negb (uv_is_number uv) && geometry_changed (vertices e) uv)%bool /\
  count_events is_VerticesAppended (events (device e'))
    = count_events is_VerticesAppended (events (device e))
      + (if geometry_changed (vertices e) uv then 1 else 0).
Proof.
  intros H. apply BlitFromTexture_phases in H.
  destruct H as (e1 & e2 & e3 & H1 & H2 & H3 & H4). cbv zeta.
  destruct (before_prepare (source_uv src sw sh) (frame_params src sw sh layer gamma time)
              e e1 e2 H1 H2) as (_ & _ & _ & _ & _ & _ & Ba & Bo & Bd).
  remember (update_geometry (source_uv src sw sh)
              (upload_params (frame_params src sw sh layer gamma time) e2)) as e0 eqn:E0.
  pose proof (draw_all_spec dst e3 e' H4) as (_ & _ & Dv & Da & _).
  apply prepare_stage_outputs_spec in H3.
  destruct H3 as (_ & Pv & _ & _ & Pcase). cbv zeta in Pcase.
  assert (Pa : count_events is_VerticesAppended (events (device e3))
               = count_events is_VerticesAppended (events (device e0))).
  { destruct Pcase as [[_ ->]|(_ & _ & _ & ts & _ & _ & _ & ->)]; [reflexivity|].
    rewrite !count_events_app, !count_events_map_none by reflexivity. lia. }
  apply ApplyShader_spec in H1.
  destruct H1 as (Av & _ & _ & _ & _ & _ & _ & Acase).
  assert (Aa : count_events is_VerticesAppended (events (device e1))
               = count_events is_VerticesAppended (events (device e))).
  { destruct Acase as [[_ ->]|(_ & _ & new & -> & N & _)]; [reflexivity|].
    rewrite !count_events_app, count_events_map_none, N by reflexivity. lia. }
  rewrite Dv, Pv, Da, Pa, Ba, Bo, Bd, Aa, Av. repeat split; reflexivity.
Qed.

Lemma update_geometry_vertices uv e :
  if geometry_changed (vertices e) uv
  then pu0 (vertices (update_geometry uv e)) = uv_u0 uv /\
       pu1 (vertices (update_geometry uv e)) = uv_u1 uv /\
       pv0 (vertices (update_geometry uv e)) = uv_v0 uv /\
       pv1 (vertices (update_geometry uv e)) = uv_v1 uv
  else vertices (update_geometry uv e) = vertices e.
Proof.
  unfold update_geometry. destruct (geometry_changed (vertices e) uv); [|reflexivity].
  repeat split; reflexivity.
Qed.

(** What a completed call appends, and what it records. *)
Lemma BlitFromTexture_quad src dst sw sh layer gamma time e e' :
  BlitFromTexture src dst sw sh layer gamma time e = Some e' ->
  let uv := source_uv src sw sh in
  (exists pre post,
     events (device e')
       = (events (device e) ++ pre
            ++ (if geometry_changed (vertices e) uv then [VerticesAppended (quad uv)] else [])
            ++ post)%list /\
     count_events is_VerticesAppended pre = 0 /\
     count_events is_VerticesAppended post = 0) /\
  (if geometry_changed (vertices e) uv
   then pu0 (vertices e') = uv_u0 uv /\ pu1 (vertices e') = uv_u1 uv /\
        pv0 (vertices e') = uv_v0 uv /\ pv1 (vertices e') = uv_v1 uv
   else vertices e' = vertices e).
Proof.
  intros H. apply BlitFromTexture_phases in H.
  destruct H as (e1 & e2 & e3 & H1 & H2 & H3 & H4). cbv zeta.
  apply ApplyShader_spec in H1.
  destruct H1 as (Av & _ & _ & _ & _ & _ & _ & Ae).
  assert (Ae' : exists pre, events (device e1) = (events (device e) ++ pre)%list /\
                            count_events is_VerticesAppended pre = 0).
  { destruct Ae as [[_ ->]|(_ & _ & new & Ev & Nv & _)].
    - exists []. now rewrite app_nil_r.
    - eexists. split; [exact Ev|].
      rewrite count_events_app, Nv, count_events_map_none by reflexivity. reflexivity. }
  destruct Ae' as (pre & Epre & Npre).
  apply upload_options_spec in H2. destruct H2 as (_ & Uv & _ & _ & Ud & _).
  pose proof (update_geometry_spec (source_uv src sw sh)
                (upload_params (frame_params src sw sh layer gamma time) e2)) as G.
  cbv zeta in G. destruct G as (_ & _ & _ & _ & _ & _ & Ge & _).
  pose proof (update_geometry_vertices (source_uv src sw sh)
                (upload_params (frame_params src sw sh layer gamma time) e2)) as Gv.
  change (vertices (upload_params (frame_params src sw sh layer gamma time) e2))
    with (vertices e2) in Ge, Gv.
  change (device (upload_params (frame_params src sw sh layer gamma time) e2))
    with (device e2) in Ge.
  rewrite Uv, Av in Ge, Gv. rewrite Ud, Epre in Ge.
  remember (update_geometry (source_uv src sw sh)
              (upload_params (frame_params src sw sh layer gamma time) e2)) as e0 eqn:E0.
  apply prepare_stage_outputs_spec in H3. cbv zeta in H3.
  destruct H3 as (_ & Pv & _ & _ & Pe).
  assert (Pe' : exists mid, events (device e3) = (events (device e0) ++ mid)%list /\
                            count_events is_VerticesAppended mid = 0).
  { destruct Pe as [[_ ->]|(_ & _ & _ & ts & _ & _ & _ & Ev)].
    - exists []. now rewrite app_nil_r.
    - eexists. split; [exact Ev|].
      rewrite count_events_app, !count_events_map_none by reflexivity. reflexivity. }
  destruct Pe' as (mid & Emid & Nmid).
  unfold draw_all in H4. apply draw_stages_frame in H4.
  destruct H4 as (_ & _ & Dv & _ & _ & _ & new & Enew & _ & Pnew).
  split.
  - exists pre, (mid ++ new)%list. split.
    + rewrite Enew, Emid, Ge, <- !app_assoc. reflexivity.
    + split; [exact Npre|].
      rewrite count_events_app, Nmid, (count_events_Drawn _ new) by (try exact Pnew; reflexivity).
      reflexivity.
  - rewrite Dv, Pv. exact Gv.
Qed.

(** C7: take a call that follows a completed call, and let u0, u1, v0, v1
    be the edges of its source rectangle times the reciprocal of the source
    width or height, in single precision.  If one of them differs (in the
    sense of [!=]) from the value recorded, the call appends once the four
    vertices that carry them and records them; otherwise it appends nothing
    and records nothing.  When the coordinates of the call before are
    numbers, the recorded values compare as those do: the quad is appended
    exactly when a coordinate differs from that of the call before, and not
    at all when the source rectangle and dimensions are the same. *)
Theorem quad_appended_iff_uv_changed
    src1 dst1 sw1 sh1 layer1 gamma1 time1 src2 dst2 sw2 sh2 layer2 gamma2 time2 e e1 e2 :
  BlitFromTexture src1 dst1 sw1 sh1 layer1 gamma1 time1 e = Some e1 ->
  BlitFromTexture src2 dst2 sw2 sh2 layer2 gamma2 time2 e1 = Some e2 ->
  let u0 := mul (of_int (left src2)) (div one (of_int sw2)) in
  let u1 := mul (of_int (right src2)) (div one (of_int sw2)) in
  let v0 := mul (of_int (top src2)) (div one (of_int sh2)) in
  let v1 := mul (of_int (bottom src2)) (div one (of_int sh2)) in
  let changed :=
    (neq (pu0 (vertices e1)) u0 || neq (pu1 (vertices e1)) u1
     || neq (pv0 (vertices e1)) v0 || neq (pv1 (vertices e1)) v1)%bool in
  let coords :=
    [ mkVertex (of_int (-1)) (of_int 1) (of_int 0) u0 v0;
      mkVertex (of_int 1) (of_int 1) (of_int 0) u1 v0;
      mkVertex (of_int (-1)) (of_int (-1)) (of_int 0) u0 v1;
      mkVertex (of_int 1) (of_int (-1)) (of_int 0) u1 v1 ] in
  let prev_u0 := mul (of_int (left src1)) (div one (of_int sw1)) in
  let prev_u1 := mul (of_int (right src1)) (div one (of_int sw1)) in
  let prev_v0 := mul (of_int (top src1)) (div one (of_int sh1)) in
  let prev_v1 := mul (of_int (bottom src1)) (div one (of_int sh1)) in
  (exists pre post,
     events (device e2)
       = (events (device e1) ++ pre
            ++ (if changed then [VerticesAppended coords] else []) ++ post)%list /\
     count_events is_VerticesAppended pre = 0 /\
     count_events is_VerticesAppended post = 0) /\
  count_events is_VerticesAppended (events (device e2))
    = count_events is_VerticesAppended (events (device e1)) + (if changed then 1 else 0) /\
  (if changed
   then pu0 (vertices e2) = u0 /\ pu1 (vertices e2) = u1 /\
        pv0 (vertices e2) = v0 /\ pv1 (vertices e2) = v1
   else vertices e2 = vertices e1) /\
  ((SFeqb prev_u0 prev_u0 && SFeqb prev_u1 prev_u1
    && SFeqb prev_v0 prev_v0 && SFeqb prev_v1 prev_v1)%bool = true ->
   changed = (neq prev_u0 u0 || neq prev_u1 u1 || neq prev_v0 v0 || neq prev_v1 v1)%bool /\
   (src2 = src1 -> sw2 = sw1 -> sh2 = sh1 ->
    count_events is_VerticesAppended (events (device e2))
      = count_events is_VerticesAppended (events (device e1)))).
Proof.
  intros H1 H2. cbv zeta.
  pose proof (BlitFromTexture_geometry _ _ _ _ _ _ _ _ _ H1) as G1. cbv zeta in G1.
  destruct G1 as (O1 & D1 & _).
  pose proof (BlitFromTexture_geometry _ _ _ _ _ _ _ _ _ H2) as G2. cbv zeta in G2.
  destruct G2 as (_ & _ & C2).
  pose proof (BlitFromTexture_quad _ _ _ _ _ _ _ _ _ H2) as Q2. cbv zeta in Q2.
  destruct Q2 as (Qe & Qv).
  rewrite geometry_changed_eq, O1 in C2, Qe, Qv. cbn [orb] in C2, Qe, Qv.
  split; [exact Qe|]. split; [exact C2|]. split; [exact Qv|].
  intros Hnum.
  assert (Hrec : SFeqb (pu0 (vertices e1)) (mul (of_int (left src1)) (div one (of_int sw1))) = true /\
                 SFeqb (pu1 (vertices e1)) (mul (of_int (right src1)) (div one (of_int sw1))) = true /\
                 SFeqb (pv0 (vertices e1)) (mul (of_int (top src1)) (div one (of_int sh1))) = true /\
                 SFeqb (pv1 (vertices e1)) (mul (of_int (bottom src1)) (div one (of_int sh1))) = true).
  { change (uv_is_number (source_uv src1 sw1 sh1) = true) in Hnum.
    rewrite Hnum in D1. cbn [negb andb] in D1.
    unfold uv_differs in D1.
    apply orb_false_elim in D1. destruct D1 as [D1 Dd].
    apply orb_false_elim in D1. destruct D1 as [D1 Dc].
    apply orb_false_elim in D1. destruct D1 as [Da Db].
    unfold neq in Da, Db, Dc, Dd.
    apply negb_false_iff in Da, Db, Dc, Dd.
    repeat split; assumption. }
  destruct Hrec as (Ra & Rb & Rc & Rd).
  assert (Hch : forall a b c, SFeqb a b = true -> neq a c = neq b c).
  { intros a b c Hab. unfold neq. now rewrite (SFeqb_congr a b c Hab). }
  split.
  - unfold uv_differs. cbn [source_uv uv_u0 uv_u1 uv_v0 uv_v1].
    unfold inv_width, inv_height.
    rewrite (Hch _ _ _ Ra), (Hch _ _ _ Rb), (Hch _ _ _ Rc), (Hch _ _ _ Rd). reflexivity.
  - intros -> -> ->. rewrite C2.
    unfold uv_differs. cbn [source_uv uv_u0 uv_u1 uv_v0 uv_v1].
    unfold inv_width, inv_height. unfold neq. rewrite Ra, Rb, Rc, Rd. cbn. lia.
Qed.

(** C10: the index of the last stage is [stages.size() - 1] in [size_t]; with
    no stage it is the largest [size_t], and a call that finds no stage
    after ApplyShader does not complete (the image vector is resized past
    its largest size); a call that completes had a stage to draw. *)
Theorem draw_needs_a_stage src dst sw sh layer gamma time e :
  images_consistent e ->
  finalstage_of [] = SIZE_MAX /\
  (forall e1, ApplyShader e = Some e1 -> GetStages (m_config (shaders e1)) = [] ->
     BlitFromTexture src dst sw sh layer gamma time e = None) /\
  (forall e', BlitFromTexture src dst sw sh layer gamma time e = Some e' ->
     GetStages (m_config (shaders e')) <> []).
Proof.
  intros Hinv. split; [reflexivity|].
  assert (Hlast : forall e', BlitFromTexture src dst sw sh layer gamma time e = Some e' ->
                    GetStages (m_config (shaders e')) <> []).
  { intros e' H. destruct (BlitFromTexture_images _ _ _ _ _ _ _ _ _ Hinv H) as (Hn & _).
    intros E. rewrite E in Hn. cbn [List.length] in Hn. lia. }
  split; [|exact Hlast].
  intros e1 H1 Hnil.
  destruct (BlitFromTexture src dst sw sh layer gamma time e) as [e'|] eqn:HB; [|reflexivity].
  exfalso. apply (Hlast e' eq_refl).
  apply BlitFromTexture_phases in HB.
  destruct HB as (e1' & e2 & e3 & A1 & A2 & A3 & A4).
  rewrite H1 in A1. injection A1 as <-.
  apply draw_all_spec in A4. destruct A4 as (-> & _).
  apply prepare_stage_outputs_spec in A3. destruct A3 as (-> & _).
  pose proof (update_geometry_spec (source_uv src sw sh)
                (upload_params (frame_params src sw sh layer gamma time) e2)) as G.
  cbv zeta in G. destruct G as (-> & _).
  change (shaders (upload_params (frame_params src sw sh layer gamma time) e2))
    with (shaders e2).
  apply upload_options_spec in A2. destruct A2 as (_ & _ & _ & _ & _ & -> & _).
  exact Hnil.
Qed.

(** *** Runs of frames *)

Lemma ApplyShader_Drawn e e' :
  ApplyShader e = Some e' ->
  count_events is_Drawn (events (device e')) = count_events is_Drawn (events (device e)).
Proof.
  unfold ApplyShader. destruct (shader_current e) eqn:Hc.
  - intros [= <-]. reflexivity.
  - rewrite recompile_eq. cbv zeta.
    destruct (LoadShader _ _) as [raw cfg].
    destruct (compile_stages _ 0 _ _) as [ps ok].
    destruct ok.
    + intros [= <-]. destruct_engine e. unfold recompiled_engine. engine_simpl.
      rewrite count_events_app, count_events_map_none by reflexivity. lia.
    + rewrite ApplyShader_fallback_eq.
      destruct (LoadShader "" _) as [raw2 cfg2].
      destruct (GetStages cfg2) as [|st rest]; [discriminate|].
      intros [= <-]. destruct_engine e. unfold recompiled_engine. engine_simpl.
      rewrite !count_events_app, count_events_map_none by reflexivity.
      cbn. lia.
Qed.

(** A call that completes draws once for each stage of the configuration
    it ends with, and nothing more. *)
Theorem each_stage_is_drawn_once src dst sw sh layer gamma time e e' :
  BlitFromTexture src dst sw sh layer gamma time e = Some e' ->
  count_events is_Drawn (events (device e'))
  = count_events is_Drawn (events (device e))
    + List.length (GetStages (m_config (shaders e'))).
Proof.
  intros H. apply BlitFromTexture_phases in H.
  destruct H as (e1 & e2 & e3 & H1 & H2 & H3 & H4).
  destruct (before_prepare (source_uv src sw sh) (frame_params src sw sh layer gamma time)
              e e1 e2 H1 H2) as (_ & _ & _ & _ & _ & Bd & _).
  apply ApplyShader_Drawn in H1.
  apply draw_all_spec in H4. destruct H4 as (Ds & _ & _ & _ & _ & _ & Dd).
  rewrite Dd, Ds. f_equal.
  apply prepare_stage_outputs_spec in H3. cbv zeta in H3.
  destruct H3 as (_ & _ & _ & _ & [[_ ->]|(_ & _ & _ & ts & _ & _ & _ & Ev)]).
  - now rewrite Bd.
  - rewrite Ev, !count_events_app, !count_events_map_none by reflexivity. lia.
Qed.

Lemma BlitFromTexture_balanced src dst sw sh layer gamma time e e' :
  textures_balanced e ->
  BlitFromTexture src dst sw sh layer gamma time e = Some e' ->
  textures_balanced e'.
Proof.
  unfold textures_balanced. intros Hb H. apply BlitFromTexture_phases in H.
  destruct H as (e1 & e2 & e3 & H1 & H2 & H3 & H4).
  destruct (before_prepare (source_uv src sw sh) (frame_params src sw sh layer gamma time)
              e e1 e2 H1 H2) as (Bi & _ & _ & Bc & Br & _).
  assert (B1 : count_events is_TextureCreated (events (device e1))
               = count_events is_TextureReleased (events (device e1))
                 + List.length (m_stageOutput (images e1))).
  { apply ApplyShader_spec in H1.
    destruct H1 as (_ & _ & _ & _ & _ & _ & _ & [[_ ->]|(_ & H0 & new & Ev & _ & Nc & Nr)]);
      [exact Hb|].
    rewrite Ev, H0, !count_events_app, Nc, Nr.
    rewrite count_events_map_none, count_events_map_all by reflexivity.
    cbn [List.length]. lia. }
  apply draw_all_spec in H4. destruct H4 as (_ & Di & _ & _ & Dc & Dr & _).
  rewrite Dc, Dr, Di.
  apply prepare_stage_outputs_spec in H3. cbv zeta in H3.
  destruct H3 as (_ & _ & _ & _ & [[_ ->]|(_ & _ & _ & ts & _ & Im & _ & Ev)]).
  - rewrite Bc, Br, Bi. exact B1.
  - rewrite Ev, Im, !count_events_app. cbn [m_stageOutput].
    rewrite (count_events_map_none is_TextureCreated TextureReleased) by reflexivity.
    rewrite (count_events_map_none is_TextureReleased TextureCreated) by reflexivity.
    rewrite !count_events_map_all by reflexivity.
    rewrite Bc, Br, Bi. lia.
Qed.

Lemma run_frames_invariants frames : forall e e',
  images_consistent e -> textures_balanced e ->
  run_frames frames e = Some e' ->
  images_consistent e' /\ textures_balanced e'.
Proof.
  induction frames as [|f rest IH]; intros e e' Hc Hb H; cbn [run_frames] in H.
  - injection H as <-. now split.
  - unfold bind in H.
    destruct (BlitFromTexture _ _ _ _ _ _ _ _) as [e1|] eqn:E1; [|discriminate].
    assert (Hc' : images_consistent (with_globals (frame_settings f (globals e)) e))
      by exact Hc.
    assert (Hb' : textures_balanced (with_globals (frame_settings f (globals e)) e))
      by exact Hb.
    apply (IH e1 e'); [| |exact H].
    + apply (BlitFromTexture_images _ _ _ _ _ _ _ _ _ Hc' E1).
    + apply (BlitFromTexture_balanced _ _ _ _ _ _ _ _ _ Hb' E1).
Qed.

(** Between the calls of any run of frames from construction, whatever
    became of the settings in between, there are either no images or one
    for each stage before the last, each of the extents the cached
    dimensions give its stage. *)
Theorem frames_keep_images_consistent frames cfg junk g e' :
  run_frames frames (constructed cfg junk g) = Some e' ->
  images_consistent e'.
Proof.
  intros H.
  apply (run_frames_invariants frames (constructed cfg junk g) e'); [| |exact H].
  - apply constructed_consistent.
  - reflexivity.
Qed.

(** After any run of frames from construction, the destructor has released
    every texture the engine created, each once. *)
Theorem no_texture_outlives_the_engine frames cfg junk g e' :
  run_frames frames (constructed cfg junk g) = Some e' ->
  count_events is_TextureCreated (events (device (destructor e')))
  = count_events is_TextureReleased (events (device (destructor e'))).
Proof.
  intros H.
  assert (Hb : textures_balanced e').
  { apply (run_frames_invariants frames (constructed cfg junk g) e'); [| |exact H].
    - apply constructed_consistent.
    - reflexivity. }
  unfold textures_balanced in Hb. unfold destructor, log. cbv zeta.
  cbn [device events with_device images].
  rewrite !count_events_app, count_events_map_none, count_events_map_all by reflexivity.
  lia.
Qed.

(** *** The compile loop *)

Lemma set_nth_length {A : Type} (x : A) : forall l i,
  List.length (set_nth i x l) = List.length l.
Proof.
  induction l as [|h t IH]; intros [|i]; cbn [set_nth List.length]; try reflexivity.
  now rewrite IH.
Qed.

Lemma firstn_set_nth {A : Type} (x : A) : forall l i,
  i < List.length l -> firstn (S i) (set_nth i x l) = (firstn i l ++ [x])%list.
Proof.
  induction l as [|h t IH]; intros [|i] H; cbn [List.length] in H; try lia.
  - reflexivity.
  - cbn [set_nth]. change (firstn (S (S i)) (h :: set_nth i x t))
      with (h :: firstn (S i) (set_nth i x t)).
    rewrite IH by lia. reflexivity.
Qed.

Lemma compile_stages_all code : forall stages i ps,
  List.length ps = i + List.length stages ->
  (forall st, In st stages -> compiles code (m_stage_entry_point st) = true) ->
  compile_stages code i stages ps
  = ((firstn i ps ++ map (fun st => Some (mkProgram code (m_stage_entry_point st))) stages)%list,
     true).
Proof.
  induction stages as [|stage rest IH]; intros i ps Hlen Hall; cbn [compile_stages map].
  - cbn [List.length] in Hlen. rewrite app_nil_r, firstn_all2 by lia. reflexivity.
  - cbn [List.length] in Hlen. unfold CompileAndCreatePixelShader.
    rewrite (Hall stage) by (left; reflexivity).
    rewrite IH.
    + rewrite firstn_set_nth by lia. now rewrite <- app_assoc.
    + rewrite set_nth_length. lia.
    + intros st Hin. apply Hall. now right.
Qed.

(** When the assembled text compiles for the entry point of every stage,
    ApplyShader on a changed preset leaves the engine initialized with one
    program for each stage, compiled from that one text with the stage's
    entry point; the settings keep the preset and the images are dropped. *)
Theorem every_stage_gets_its_program (e : Engine) :
  let g := globals e in
  let loaded := LoadShader (g_ActiveConfig_sPostProcessingShader g) (m_config (shaders e)) in
  let code := assembled (active_samples g) (snd loaded) (fst loaded) in
  shader_current e = false ->
  (forall st, In st (GetStages (snd loaded)) ->
     compiles code (m_stage_entry_point st) = true) ->
  exists e',
    ApplyShader e = Some e' /\
    m_initialized (shaders e') = true /\
    m_config (shaders e') = snd loaded /\
    m_pshader (shaders e')
      = map (fun st => Some (mkProgram code (m_stage_entry_point st)))
            (GetStages (snd loaded)) /\
    working_programs (m_pshader (shaders e')) = List.length (GetStages (snd loaded)) /\
    globals e' = g /\
    m_stageOutput (images e') = [].
Proof.
  cbv zeta. intros Hcur Hall. unfold ApplyShader. rewrite Hcur, recompile_eq. cbv zeta.
  assert (Hcfg : m_config (shaders (recompiled_engine e))
                 = snd (LoadShader (g_ActiveConfig_sPostProcessingShader (globals e))
                          (m_config (shaders e)))) by reflexivity.
  destruct (LoadShader (g_ActiveConfig_sPostProcessingShader (globals e))
              (m_config (shaders e))) as [raw cfg] eqn:E1.
  cbn [fst snd] in *.
  rewrite compile_stages_all by (rewrite ?repeat_length; auto).
  cbn [firstn app].
  eexists. split; [reflexivity|].
  cbn [set_programs with_shaders shaders m_initialized m_config m_pshader globals images].
  split; [reflexivity|]. split; [exact Hcfg|]. split; [reflexivity|].
  split; [|split; reflexivity].
  unfold working_programs. generalize (GetStages cfg). intros l.
  induction l as [|st l IH]; [reflexivity|]. cbn [map filter List.length]. now rewrite IH.
Qed.

(** When loading a preset yields the configuration of that name, a second
    ApplyShader does nothing: whatever the first did, success or fallback,
    the engine it leaves is current. *)
Theorem ApplyShader_twice (e e1 : Engine) :
  (forall name cfg, GetShader (snd (LoadShader name cfg)) = name) ->
  ApplyShader e = Some e1 ->
  shader_current e1 = true /\ ApplyShader e1 = Some e1.
Proof.
  intros Hname H.
  assert (Hcur : shader_current e1 = true).
  { revert H. unfold ApplyShader. destruct (shader_current e) eqn:Hc.
    - intros [= <-]. exact Hc.
    - rewrite recompile_eq. cbv zeta.
      pose proof (Hname (g_ActiveConfig_sPostProcessingShader (globals e))
                    (m_config (shaders e))) as N1.
      destruct (LoadShader _ _) as [raw cfg] eqn:E1. cbn [snd] in N1.
      destruct (compile_stages _ 0 _ _) as [ps ok].
      destruct ok.
      + intros [= <-]. unfold shader_current, recompiled_engine.
        cbn [set_programs with_shaders shaders globals m_initialized m_config
             m_prev_samples andb].
        rewrite E1. cbn [snd].
        now rewrite N1, String.eqb_refl, Z.eqb_refl.
      + rewrite ApplyShader_fallback_eq.
        match goal with
        | |- context [LoadShader "" ?c] => pose proof (Hname "" c) as N2
        end.
        destruct (LoadShader "" _) as [raw2 cfg2]. cbn [snd] in N2.
        destruct (GetStages cfg2) as [|st rest]; [discriminate|].
        intros [= <-]. unfold shader_current.
        cbn [shaders globals m_initialized m_config m_prev_samples
             g_ActiveConfig_sPostProcessingShader active_samples andb].
        rewrite N2. cbn [String.eqb andb].
        unfold recompiled_engine.
        cbn [log set_programs with_shaders with_device shaders m_prev_samples].
        apply Z.eqb_refl. }
  split; [exact Hcur|]. unfold ApplyShader. now rewrite Hcur.
Qed.

(** *** Calls that complete *)

Lemma stage_inputs_total outputs : forall inputs k,
  k + List.length inputs <= 4 ->
  Forall (fun idx => (0 <= idx < Z.of_nat (List.length outputs))%Z) inputs ->
  exists ts, stage_inputs k inputs outputs = Some ts.
Proof.
  induction inputs as [|idx rest IH]; intros k Hk Hin; cbn [stage_inputs].
  - now exists [].
  - cbn [List.length] in Hk. inversion Hin as [|? ? Hidx Hrest]; subst.
    destruct (Nat.ltb_spec k 4) as [_|]; [|lia].
    destruct (Z.leb_spec 0 idx) as [_|]; [|lia]. cbn [andb].
    destruct (nth_error outputs (Z.to_nat idx)) as [t|] eqn:Et.
    + destruct (IH (S k)) as (ts & ->); [lia | exact Hrest |]. now eexists.
    + apply nth_error_None in Et. lia.
Qed.

Lemma create_stage_outputs_total im : forall stages next,
  Forall (fun stage =>
            stage_extent stage (m_prev_src_width im) (m_prev_dst_width im) <> None /\
            stage_extent stage (m_prev_src_height im) (m_prev_dst_height im) <> None)
         stages ->
  exists ts, create_stage_outputs stages im next = Some ts.
Proof.
  induction stages as [|stage rest IH]; intros next H; cbn [create_stage_outputs].
  - now exists [].
  - inversion H as [|? ? [Hw Hh] Hrest]; subst.
    destruct (stage_extent stage (m_prev_src_width im) _) as [w|]; [|congruence].
    destruct (stage_extent stage (m_prev_src_height im) _) as [h|]; [|congruence].
    destruct (IH (S next) Hrest) as (ts & ->). now eexists.
Qed.

Lemma draw_stages_total finalstage dst : forall todo i e,
  Z.of_nat (i + List.length todo) = (finalstage + 1)%Z ->
  List.length (m_pshader (shaders e)) = i + List.length todo ->
  ((0 < finalstage)%Z ->
   Z.of_nat (List.length (m_stageOutput (images e))) = finalstage) ->
  Forall (fun stage =>
            List.length (m_inputs stage) <= 4 /\
            Forall (fun idx => (0 <= idx < finalstage)%Z) (m_inputs stage)) todo ->
  exists e', draw_stages i todo finalstage dst e = Some e'.
Proof.
  induction todo as [|stage rest IH]; intros i e Hfs Hps Hout Hin; cbn [draw_stages].
  - now exists e.
  - cbn [List.length] in Hfs, Hps. inversion Hin as [|? ? [H4 Hidx] Hrest]; subst.
    assert (Et : exists tv,
               (if (Z.of_nat i =? finalstage)%Z
                then Some (Destination, destination_viewport dst)
                else match nth_error (m_stageOutput (images e)) i with
                     | Some t => Some (Intermediate t, stage_viewport stage (images e))
                     | None => None
                     end) = Some tv).
    { destruct (Z.eqb_spec (Z.of_nat i) finalstage) as [_|Hne]; [now eexists|].
      destruct (nth_error (m_stageOutput (images e)) i) as [t|] eqn:En; [now eexists|].
      apply nth_error_None in En. lia. }
    destruct Et as ([rt vp] & ->).
    destruct (nth_error (m_pshader (shaders e)) i) as [shader|] eqn:Ep;
      [|apply nth_error_None in Ep; lia].
    assert (Ei : exists ins,
               (if ((0 <? i)%nat && (finalstage >? 0)%Z)%bool
                then stage_inputs 0 (m_inputs stage) (m_stageOutput (images e))
                else Some []) = Some ins).
    { destruct ((0 <? i)%nat && (finalstage >? 0)%Z)%bool eqn:Eb; [|now eexists].
      apply andb_prop in Eb. destruct Eb as [_ Eb].
      apply stage_inputs_total; [lia|].
      rewrite Hout by lia. exact Hidx. }
    destruct Ei as (ins & ->).
    apply IH.
    + rewrite <- Hfs. lia.
    + cbn [log with_device shaders]. lia.
    + exact Hout.
    + exact Hrest.
Qed.

Lemma finalstage_of_small stages :
  stages <> [] ->
  (Z.of_nat (List.length stages) <= vector_max_size)%Z ->
  finalstage_of stages = (Z.of_nat (List.length stages) - 1)%Z.
Proof.
  intros Hne Hmax. unfold finalstage_of, wrap_size_t.
  assert (0 < Z.of_nat (List.length stages))%Z by (destruct stages; [congruence | cbn; lia]).
  apply Z.mod_small. split; [lia|].
  apply Z.lt_le_trans with (vector_max_size + 1)%Z; [lia|].
  apply Z.leb_le. vm_compute. reflexivity.
Qed.

(** A call completes when ApplyShader does and leaves at least one stage
    (and no more than a vector holds), a program slot for each stage, the
    option buffer if options are to be uploaded, stage inputs that are at
    most four indices of images, and image extents that have [u32]
    values. *)
Theorem blit_completes src dst sw sh layer gamma time (e e1 : Engine) :
  let stages := GetStages (m_config (shaders e1)) in
  let n := List.length stages in
  ApplyShader e = Some e1 ->
  stages <> [] ->
  (Z.of_nat n <= vector_max_size)%Z ->
  List.length (m_pshader (shaders e1)) = n ->
  ((IsDirty (m_config (shaders e1)) && HasOptions (m_config (shaders e1)))%bool = true ->
   m_options (shaders e1) <> None) ->
  Forall (inputs_in_range n) stages ->
  Forall (extent_defined src dst) (firstn (n - 1) stages) ->
  exists e', BlitFromTexture src dst sw sh layer gamma time e = Some e'.
Proof.
  cbv zeta. intros H1 Hne Hmax Hps Hopt Hin Hext.
  unfold BlitFromTexture, bind. rewrite H1.
  destruct (upload_options e1) as [e2|] eqn:E2.
  2:{ exfalso. unfold upload_options in E2. cbv zeta in E2.
      destruct (IsDirty _ && HasOptions _)%bool; [|discriminate].
      destruct (m_options (shaders e1)); [discriminate|]. now apply Hopt. }
  destruct (before_prepare (source_uv src sw sh) (frame_params src sw sh layer gamma time)
              e e1 e2 H1 E2) as (Bi & Bs & Bp & _).
  remember (update_geometry (source_uv src sw sh)
              (upload_params (frame_params src sw sh layer gamma time) e2)) as e0 eqn:E0.
  pose proof (finalstage_of_small _ Hne Hmax) as Hfs.
  assert (Hprep : exists e3, prepare_stage_outputs src dst e0 = Some e3).
  { unfold prepare_stage_outputs. cbv zeta. rewrite Bs, Hfs.
    destruct (_ >? 0)%Z; [|now eexists].
    destruct (outputs_stale _ _ _ _); [|now eexists].
    destruct (Z.gtb_spec (Z.of_nat (List.length (GetStages (m_config (shaders e1)))) - 1)
                vector_max_size) as [Hgt|_]; [lia|].
    replace (Z.to_nat (Z.of_nat (List.length (GetStages (m_config (shaders e1)))) - 1))
      with (List.length (GetStages (m_config (shaders e1))) - 1) by lia.
    match goal with
    | |- context [create_stage_outputs ?l ?im ?next] =>
        destruct (create_stage_outputs_total im l next) as (ts & ->)
    end; [|now eexists].
    cbn [m_prev_src_width m_prev_dst_width m_prev_src_height m_prev_dst_height].
    exact Hext. }
  destruct Hprep as (e3 & E3). rewrite E3.
  pose proof (prepare_stage_outputs_spec _ _ _ _ E3) as P. cbv zeta in P.
  destruct P as (Ps & _ & _ & _ & Pc).
  unfold draw_all. rewrite Ps, Bs, Hfs.
  apply draw_stages_total.
  - cbn [Nat.add]. lia.
  - rewrite Ps, Bp. exact Hps.
  - intros Hpos. rewrite Bs, Hfs in Pc.
    destruct Pc as [[Hst ->]|(_ & _ & _ & ts & Hts & Him & _)].
    + destruct (Z.gtb_spec (Z.of_nat (List.length (GetStages (m_config (shaders e1)))) - 1) 0)
        as [_|]; [|lia].
      cbn [andb] in Hst. unfold outputs_stale in Hst.
      apply orb_false_elim in Hst. destruct Hst as [_ Hst].
      apply negb_false_iff, Z.eqb_eq in Hst. exact Hst.
    + rewrite Him. cbn [m_stageOutput].
      apply create_stage_outputs_length in Hts. rewrite Hts, length_firstn. lia.
  - eapply Forall_impl; [|exact Hin]. intros st [H4 Hidx]. split; [exact H4|].
    eapply Forall_impl; [|exact Hidx]. cbv beta. intros idx. lia.
Qed.

(** *** The first call and the state after a call *)

(** The constructor sets the observer flag, so the first call that
    completes appends the quad exactly once, whatever the four cached
    coordinates, which the constructor leaves unset, happen to hold. *)
Theorem first_call_appends_the_quad src dst sw sh layer gamma time cfg junk g e' :
  BlitFromTexture src dst sw sh layer gamma time (constructed cfg junk g) = Some e' ->
  count_events is_VerticesAppended (events (device e')) = 1 /\
  m_vertex_buffer_observer (vertices e') = false.
Proof.
  intros H. apply BlitFromTexture_geometry in H. cbv zeta in H.
  destruct H as (Ho & _ & Hc). split; [|exact Ho].
  rewrite Hc, geometry_changed_eq. reflexivity.
Qed.

Lemma ApplyShader_initialized e e1 :
  ApplyShader e = Some e1 ->
  m_initialized (shaders e1) = true /\
  m_prev_samples (shaders e1) = active_samples (globals e1).
Proof.
  unfold ApplyShader. destruct (shader_current e) eqn:Hc.
  - intros [= <-]. unfold shader_current in Hc. cbv zeta in Hc.
    apply andb_prop in Hc. destruct Hc as [Hc Hs].
    apply andb_prop in Hc. destruct Hc as [Hi _].
    split; [exact Hi | now apply Z.eqb_eq].
  - rewrite recompile_eq. cbv zeta.
    destruct (LoadShader _ _) as [raw cfg].
    destruct (compile_stages _ 0 _ _) as [ps ok].
    destruct ok.
    + intros [= <-]. split; reflexivity.
    + rewrite ApplyShader_fallback_eq.
      destruct (LoadShader "" _) as [raw2 cfg2].
      destruct (GetStages cfg2) as [|st rest]; [discriminate|].
      intros [= <-]. split; reflexivity.
Qed.

(** Every call that completes leaves the engine marked initialized, with
    the sample count it compiled for equal to the active one. *)
Theorem completed_call_leaves_engine_initialized src dst sw sh layer gamma time e e' :
  BlitFromTexture src dst sw sh layer gamma time e = Some e' ->
  m_initialized (shaders e') = true /\
  m_prev_samples (shaders e') = active_samples (globals e').
Proof.
  intros H. apply BlitFromTexture_phases in H.
  destruct H as (e1 & e2 & e3 & H1 & H2 & H3 & H4).
  apply ApplyShader_initialized in H1. destruct H1 as [Hi Hs].
  apply upload_options_spec in H2.
  destruct H2 as (_ & _ & _ & Ug & _ & _ & _ & _ & Ui & Us).
  apply prepare_stage_outputs_spec in H3. destruct H3 as (Ps & _ & _ & Pg & _).
  apply draw_stages_frame in H4. destruct H4 as (Ds & _ & _ & _ & Dg & _).
  pose proof (update_geometry_spec (source_uv src sw sh)
                (upload_params (frame_params src sw sh layer gamma time) e2)) as G.
  cbv zeta in G. destruct G as (Gs & _ & _ & Gg & _).
  rewrite Ds, Dg, Ps, Pg, Gs, Gg.
  change (shaders (upload_params (frame_params src sw sh layer gamma time) e2))
    with (shaders e2).
  change (globals (upload_params (frame_params src sw sh layer gamma time) e2))
    with (globals e2).
  rewrite Ui, Us, Ug. split; assumption.
Qed.

End Engine.

(** *** One environment to run the engine in *)

(** A device that compiles a text when it defines the entry point. *)
Definition sample_compiles (code entry : string) : bool :=
  match index 0 ("void " ++ entry ++ "(") code with
  | Some _ => true
  | None => false
  end.


Definition default_source : string :=
  c_lit "void main()\n{\n\tSetOutput(Sample());\n}\n".
Definition two_stage_source : string :=
  c_lit "void first()\n{\n\tSetOutput(Sample());\n}\nvoid second()\n{\n\tSetOutput(SamplePrev());\n}\n".
Definition three_stage_source : string :=
  c_lit "void first()\n{\n\tSetOutput(Sample());\n}\nvoid second()\n{\n\tSetOutput(SamplePrev());\n}\nvoid third()\n{\n\tSetOutput(SamplePrev(1));\n}\n".
Definition broken_source : string :=
  c_lit "void blur()\n{\n\tSetOutput(Sample());\n}\n".

Definition half : float := div one (of_int 2).
Definition three_tenths : float := div (of_int 3) (of_int 10).

(** Presets: "two" has two stages, the first at half the source size;
    "three" has three, the first at half the source size and the second at
    three tenths of the destination size;
    "broken" declares the entry point main, which its source lacks; "none"
    has no stage; any other name loads the default single stage. *)
Definition sample_LoadShader (preset : string) (cfg : PostProcessingShaderConfiguration)
  : string * PostProcessingShaderConfiguration :=
  if String.eqb preset "two" then
    (two_stage_source,
     mkConfig "two" [mkStage "first" [] true half; mkStage "second" [0%Z] false one] [] false)
  else if String.eqb preset "three" then
    (three_stage_source,
     mkConfig "three"
       [mkStage "first" [] true half; mkStage "second" [0%Z] false three_tenths;
        mkStage "third" [0%Z; 1%Z] false one] [] false)
  else if String.eqb preset "broken" then
    (broken_source, mkConfig "broken" [mkStage "main" [] false one] [] false)
  else if String.eqb preset "none" then
    ("", mkConfig "none" [] [] false)
  else
    (default_source, mkConfig preset [mkStage "main" [] false one] [] false).

(** The offset of the next quad: four vertices for each one appended. *)
Definition sample_AppendData (evs : list Event) (coords : list STVertex) : Z :=
  (4 * Z.of_nat (count_events is_VerticesAppended evs))%Z.

Definition empty_config : PostProcessingShaderConfiguration := mkConfig "" [] [] false.
Definition junk : VertexState := mkVertexState 0 false S754_nan S754_nan S754_nan S754_nan.

Definition fresh_engine (preset : string) (samples : Z) : Engine :=
  constructed empty_config junk (mkGlobals preset preset samples).

Definition sample_blit :=
  BlitFromTexture sample_compiles sample_LoadShader sample_AppendData 0.
Definition sample_apply := ApplyShader sample_compiles sample_LoadShader 0.

Definition src64 : TargetRectangle := mkRect 0 0 64 64.
Definition dst128 : TargetRectangle := mkRect 0 0 128 128.


(** The engine after a call for the source rectangle (0,0,64,64) of a 64x64
    source and the destination (0,0,128,128), gamma 2.2, at the given
    time. *)
Definition blit_again (time : Z) (e : Engine) : Engine :=
  match sample_blit src64 dst128 64 64 0 f2_2 time e with
  | Some e' => e'
  | None => e
  end.

Definition first_frame (preset : string) : Engine :=
  blit_again 1000 (fresh_engine preset 1).

Definition applied (compiles : string -> string -> bool) (preset : string) : Engine :=
  match ApplyShader compiles sample_LoadShader 0 (fresh_engine preset 1) with
  | Some e' => e'
  | None => fresh_engine preset 1
  end.

Lemma fresh_engine_consistent preset samples :
  images_consistent (fresh_engine preset samples).
Proof. unfold fresh_engine. apply constructed_consistent. Qed.

Lemma first_frame_two :
  BlitFromTexture sample_compiles sample_LoadShader sample_AppendData 0
    src64 dst128 64 64 0 f2_2 1000 (fresh_engine "two" 1) = Some (first_frame "two").
Proof. vm_compute. reflexivity. Qed.

Lemma first_frame_default :
  BlitFromTexture sample_compiles sample_LoadShader sample_AppendData 0
    src64 dst128 64 64 0 f2_2 1000 (fresh_engine "" 1) = Some (first_frame "").
Proof. vm_compute. reflexivity. Qed.

(** The 12-byte vector of {bool a; float3 b; int a2} that starts at offset
    4 is declared at offset 4, not at 16: it fills what is left of the
    first row. *)
Lemma float3_at_offset_4_is_not_moved :
  ~ In (mkPlacement 4 16 12) (fst (layout_walk 0 [example_a; example_b; example_a2])) /\
  In (mkPlacement 4 4 12) (fst (layout_walk 0 [example_a; example_b; example_a2])).
Proof.
  split.
  - cbn. intros [H|[H|[H|[]]]]; discriminate H.
  - cbn. right. left. reflexivity.
Qed.

(** In name order (a, a2, b) the vector is declared at offset 16 and its
    value is stored at offset 8: the upload copies before it pads. *)
Lemma padded_value_is_stored_before_its_declaration :
  map placed_at (fst (layout_walk 0 [example_a; example_a2; example_b])) = [0; 4; 16]%Z /\
  map store_offset (fst (fst (upload_walk 0 0 [example_a; example_a2; example_b])))
    = [0; 4; 8]%Z.
Proof. split; reflexivity. Qed.



Lemma msaa_header_witness :
  shader_header 7 4 = msaa_part0 ++ "4" ++ msaa_part1 ++ "7" ++ msaa_part2.
Proof.
  apply (shader_header_MSAA 7 4). vm_compute. discriminate.
Defined.





(** The left half of the source, and the engine after a call for it. *)
Definition src32 : TargetRectangle := mkRect 0 0 32 64.

Definition narrow_frame (time : Z) (e : Engine) : Engine :=
  match sample_blit src32 dst128 64 64 0 f2_2 time e with
  | Some e' => e'
  | None => e
  end.

Lemma narrow_frame_after_first :
  BlitFromTexture sample_compiles sample_LoadShader sample_AppendData 0
    src32 dst128 64 64 0 f2_2 1001 (first_frame "")
  = Some (narrow_frame 1001 (first_frame "")).
Proof. vm_compute. reflexivity. Qed.

Lemma narrow_frame_again :
  BlitFromTexture sample_compiles sample_LoadShader sample_AppendData 0
    src32 dst128 64 64 0 f2_2 1002 (narrow_frame 1001 (first_frame ""))
  = Some (narrow_frame 1002 (narrow_frame 1001 (first_frame ""))).
Proof. vm_compute. reflexivity. Qed.

(** After a frame for the whole source, a frame for its left half appends
    the quad with u1 = 1/2 and records it; the same frame again appends
    nothing. *)
Lemma quad_witness :
  let e1 := first_frame "" in
  let e2 := narrow_frame 1001 e1 in
  let e3 := narrow_frame 1002 e2 in
  let u0 := mul (of_int 0) (div one (of_int 64)) in
  let u1 := mul (of_int 32) (div one (of_int 64)) in
  let v0 := mul (of_int 0) (div one (of_int 64)) in
  let v1 := mul (of_int 64) (div one (of_int 64)) in
  count_events is_VerticesAppended (events (device e2))
    = count_events is_VerticesAppended (events (device e1)) + 1 /\
  In (VerticesAppended
        [ mkVertex (of_int (-1)) (of_int 1) (of_int 0) u0 v0;
          mkVertex (of_int 1) (of_int 1) (of_int 0) u1 v0;
          mkVertex (of_int (-1)) (of_int (-1)) (of_int 0) u0 v1;
          mkVertex (of_int 1) (of_int (-1)) (of_int 0) u1 v1 ])
     (events (device e2)) /\
  pu1 (vertices e2) = u1 /\
  exactly u1 1 2 /\
  count_events is_VerticesAppended (events (device e3))
    = count_events is_VerticesAppended (events (device e2)).
Proof.
  cbv zeta.
  pose proof (quad_appended_iff_uv_changed sample_compiles sample_LoadShader
                sample_AppendData 0 src64 dst128 64 64 0 f2_2 1000
                src32 dst128 64 64 0 f2_2 1001
                (fresh_engine "" 1) (first_frame "") (narrow_frame 1001 (first_frame ""))
                first_frame_default narrow_frame_after_first) as T.
  cbv zeta in T. destruct T as ((pre & post & Te & _ & _) & Tc & Tv & _).
  match type of Tc with
  | _ = _ + (if ?c then _ else _) =>
      assert (Hch : c = true) by (vm_compute; reflexivity);
      rewrite Hch in Tc, Tv, Te
  end.
  split; [exact Tc|]. split.
  { rewrite Te. apply in_or_app. right. apply in_or_app. right. left. reflexivity. }
  split; [exact (proj1 (proj2 Tv))|]. split; [vm_compute; reflexivity|].
  pose proof (quad_appended_iff_uv_changed sample_compiles sample_LoadShader
                sample_AppendData 0 src32 dst128 64 64 0 f2_2 1001
                src32 dst128 64 64 0 f2_2 1002
                (first_frame "") (narrow_frame 1001 (first_frame ""))
                (narrow_frame 1002 (narrow_frame 1001 (first_frame "")))
                narrow_frame_after_first narrow_frame_again) as T2.
  cbv zeta in T2. destruct T2 as (_ & _ & _ & Tn).
  destruct Tn as [_ Tsame]; [vm_compute; reflexivity|].
  exact (Tsame eq_refl eq_refl eq_refl).
Defined.

Lemma frame_parameters_witness :
  m_params (first_frame "") = Some (frame_params src64 64 64 0 f2_2 1000) /\
  native_gamma (frame_params src64 64 64 0 f2_2 1000) = div one f2_2.
Proof.
  destruct (frame_parameters_uploaded sample_compiles sample_LoadShader sample_AppendData 0
              src64 dst128 64 64 0 f2_2 1000 (fresh_engine "" 1) (first_frame "")
              first_frame_default) as (P & G & _).
  split; [exact P | exact G].
Defined.

Lemma draw_without_stage_witness :
  BlitFromTexture sample_compiles sample_LoadShader sample_AppendData 0
    src64 dst128 64 64 0 f2_2 1000 (fresh_engine "none" 1) = None.
Proof.
  destruct (draw_needs_a_stage sample_compiles sample_LoadShader sample_AppendData 0
              src64 dst128 64 64 0 f2_2 1000 (fresh_engine "none" 1)
              (fresh_engine_consistent "none" 1)) as (_ & H & _).
  apply (H (applied sample_compiles "none")); vm_compute; reflexivity.
Defined.

(** *** Further properties, run *)

Lemma remaining_witness :
  remaining 4 = 12%Z /\ ((4 + remaining 4) mod 16 = 0)%Z.
Proof.
  destruct (remaining_is_distance_to_boundary 4) as (H1 & _ & H3); [lia|].
  split; [exact H1 | exact H3].
Defined.

(** The options of the example in the order of their names. *)
Definition example_config : PostProcessingShaderConfiguration :=
  mkConfig "example" [mkStage "main" [] false one] [example_a; example_a2; example_b] true.

Lemma upload_stays_in_buffer_witness :
  options_buffer example_config = Some (mkOptionBuffer 32 []) /\
  Forall (fun st =>
            (0 <= store_offset st)%Z /\
            (store_offset st + 4 * Z.of_nat (List.length (store_words st)) <= 32)%Z)
         (fst (fst (upload_walk 0 0 (GetOptions example_config)))).
Proof.
  assert (E : options_buffer example_config = Some (mkOptionBuffer 32 []))
    by (vm_compute; reflexivity).
  split; [exact E|].
  apply (upload_stays_in_buffer example_config (mkOptionBuffer 32 [])); [|exact E].
  vm_compute. reflexivity.
Defined.

Lemma each_stage_is_drawn_once_witness :
  count_events is_Drawn (events (device (first_frame "two")))
  = count_events is_Drawn (events (device (fresh_engine "two" 1)))
    + List.length (GetStages (m_config (shaders (first_frame "two")))).
Proof.
  exact (each_stage_is_drawn_once sample_compiles sample_LoadShader sample_AppendData 0
           src64 dst128 64 64 0 f2_2 1000 (fresh_engine "two" 1) (first_frame "two")
           first_frame_two).
Defined.

(** Three frames: two with the preset "two", then one after the preset was
    changed to "broken" and the destination to the source's size. *)
Definition sample_frames : list Frame :=
  [ mkFrame (fun g => g) src64 dst128 64 64 0 f2_2 1000;
    mkFrame (fun g => g) src64 dst128 64 64 0 f2_2 1001;
    mkFrame (fun g => mkGlobals "broken" "broken" (active_samples g))
            src64 src64 64 64 0 f2_2 1002 ].

Definition sample_run_frames (frames : list Frame) (e : Engine) : Engine :=
  match run_frames sample_compiles sample_LoadShader sample_AppendData 0 frames e with
  | Some e' => e'
  | None => e
  end.

Lemma sample_frames_run :
  run_frames sample_compiles sample_LoadShader sample_AppendData 0 sample_frames
    (constructed empty_config junk (mkGlobals "two" "two" 1))
  = Some (sample_run_frames sample_frames (fresh_engine "two" 1)).
Proof. vm_compute. reflexivity. Qed.

Lemma frames_keep_images_consistent_witness :
  images_consistent (sample_run_frames sample_frames (fresh_engine "two" 1)).
Proof.
  exact (frames_keep_images_consistent sample_compiles sample_LoadShader sample_AppendData 0
           sample_frames empty_config junk (mkGlobals "two" "two" 1) _ sample_frames_run).
Defined.

Lemma no_texture_outlives_the_engine_witness :
  let e := destructor (sample_run_frames sample_frames (fresh_engine "two" 1)) in
  count_events is_TextureCreated (events (device e))
  = count_events is_TextureReleased (events (device e)).
Proof.
  exact (no_texture_outlives_the_engine sample_compiles sample_LoadShader sample_AppendData 0
           sample_frames empty_config junk (mkGlobals "two" "two" 1) _ sample_frames_run).
Defined.

Lemma every_stage_gets_its_program_witness :
  exists e',
    ApplyShader sample_compiles sample_LoadShader 0 (fresh_engine "two" 1) = Some e' /\
    m_initialized (shaders e') = true /\
    working_programs (m_pshader (shaders e')) = 2 /\
    globals e' = mkGlobals "two" "two" 1.
Proof.
  destruct (every_stage_gets_its_program sample_compiles sample_LoadShader 0
              (fresh_engine "two" 1)) as (e' & E & Hi & _ & _ & Hw & Hg & _).
  - vm_compute. reflexivity.
  - intros st Hin. vm_compute in Hin.
    destruct Hin as [<-|[<-|[]]]; vm_compute; reflexivity.
  - exists e'. split; [exact E|]. split; [exact Hi|]. split; [exact Hw | exact Hg].
Defined.

Lemma sample_LoadShader_name name cfg : GetShader (snd (sample_LoadShader name cfg)) = name.
Proof.
  unfold sample_LoadShader.
  destruct (String.eqb_spec name "two") as [->|_]; [reflexivity|].
  destruct (String.eqb_spec name "three") as [->|_]; [reflexivity|].
  destruct (String.eqb_spec name "broken") as [->|_]; [reflexivity|].
  destruct (String.eqb_spec name "none") as [->|_]; reflexivity.
Qed.

Lemma ApplyShader_twice_witness :
  shader_current (applied sample_compiles "broken") = true /\
  ApplyShader sample_compiles sample_LoadShader 0 (applied sample_compiles "broken")
  = Some (applied sample_compiles "broken").
Proof.
  apply (ApplyShader_twice sample_compiles sample_LoadShader 0 (fresh_engine "broken" 1)).
  - exact sample_LoadShader_name.
  - vm_compute. reflexivity.
Defined.

Lemma blit_completes_witness :
  exists e',
    BlitFromTexture sample_compiles sample_LoadShader sample_AppendData 0
      src64 dst128 64 64 0 f2_2 1000 (fresh_engine "two" 1) = Some e'.
Proof.
  apply (blit_completes sample_compiles sample_LoadShader sample_AppendData 0
           src64 dst128 64 64 0 f2_2 1000 (fresh_engine "two" 1)
           (applied sample_compiles "two")).
  - vm_compute. reflexivity.
  - vm_compute. discriminate.
  - vm_compute. discriminate.
  - vm_compute. reflexivity.
  - vm_compute. discriminate.
  - vm_compute. repeat constructor; try discriminate.
  - replace (firstn _ _) with [mkStage "first" [] true half] by (vm_compute; reflexivity).
    constructor; [|constructor]. split; vm_compute; discriminate.
Defined.

Lemma first_call_witness :
  count_events is_VerticesAppended (events (device (first_frame ""))) = 1 /\
  m_vertex_buffer_observer (vertices (first_frame "")) = false.
Proof.
  exact (first_call_appends_the_quad sample_compiles sample_LoadShader sample_AppendData 0
           src64 dst128 64 64 0 f2_2 1000 empty_config junk (mkGlobals "" "" 1)
           (first_frame "") first_frame_default).
Defined.

Lemma completed_call_witness :
  m_initialized (shaders (first_frame "two")) = true /\
  m_prev_samples (shaders (first_frame "two")) = active_samples (globals (first_frame "two")).
Proof.
  exact (completed_call_leaves_engine_initialized sample_compiles sample_LoadShader
           sample_AppendData 0 src64 dst128 64 64 0 f2_2 1000
           (fresh_engine "two" 1) (first_frame "two") first_frame_two).
Defined.


End DX11.
